(** * A shallow embedding of amazonProxyTest

    The modules modelled are [amazon_proxy_test.py] (proxy loading, the
    per-proxy test protocol [check_proxy], the statistics object
    [ProxyStats], the worker pool and the blacklist file) and
    [amazon_price_checker.py] (price range check and availability check).

    Network and HTML parsing are external: they are passed in as functions
    (an oracle for [session.get], for [soup.select] and [soup.get_text]),
    so every statement holds for every behaviour of the network.

    Text is a sequence of [ascii] values, read as the Latin-1 code points
    U+0000 to U+00FF: Python's string functions are modelled on that range
    (in it the only decimal digits are 0-9). Python floats are modelled by
    [F64]: rationals rounded to the nearest binary64 value, ties to even. *)

From Stdlib Require Import String Ascii ZArith QArith Qabs Qminmax Qround Qpower Lqa Lia.
From stdpp Require Import base gmap strings list pretty.

Open Scope string_scope.

(* ------------------------------------------------------------------ *)
(** ** Python string primitives used by the source *)

Module Py.

(** [str.isspace] on Latin-1: the characters [str.strip()] and [int()]
    remove (tab to carriage return, the separators 0x1C to 0x1F, space,
    NEL 0x85 and the no-break space 0xA0). *)
Definition is_space (c : ascii) : bool :=
  let n := nat_of_ascii c in
  (n =? 32)%nat || ((9 <=? n)%nat && (n <=? 13)%nat)
  || ((28 <=? n)%nat && (n <=? 31)%nat) || (n =? 133)%nat || (n =? 160)%nat.

Fixpoint lstrip (s : string) : string :=
  match s with
  | EmptyString => EmptyString
  | String c s' => if is_space c then lstrip s' else s
  end.

Definition rev_string (s : string) : string :=
  string_of_list_ascii (List.rev (list_ascii_of_string s)).

(** [s.strip()] *)
Definition strip (s : string) : string :=
  rev_string (lstrip (rev_string (lstrip s))).

(** [s.strip(c)] for a single character [c] *)
Fixpoint lstrip_char (c : ascii) (s : string) : string :=
  match s with
  | EmptyString => EmptyString
  | String d s' => if Ascii.eqb c d then lstrip_char c s' else s
  end.

Definition strip_char (c : ascii) (s : string) : string :=
  rev_string (lstrip_char c (rev_string (lstrip_char c s))).

(** [s.split(c)]: always at least one field. *)
Fixpoint split_on (c : ascii) (s : string) : list string :=
  match s with
  | EmptyString => [EmptyString]
  | String d s' =>
      if Ascii.eqb c d then EmptyString :: split_on c s'
      else match split_on c s' with
           | f :: fs => String d f :: fs
           | [] => [String d EmptyString]
           end
  end.

(** [pat in s] *)
Fixpoint contains (pat s : string) : bool :=
  String.prefix pat s ||
  match s with
  | EmptyString => false
  | String _ s' => contains pat s'
  end.

(** [s.startswith(pat)] *)
Definition startswith (s pat : string) : bool := String.prefix pat s.

(** [s.lower()] on ASCII letters. Python also lowers the Latin-1 capitals
    U+00C0 to U+00DE, to non-ASCII letters, so a test [pat in s.lower()]
    with an ASCII [pat], the only use in the source, has the same result. *)
Definition lower_char (c : ascii) : ascii :=
  let n := nat_of_ascii c in
  if (65 <=? n)%nat && (n <=? 90)%nat then ascii_of_nat (n + 32) else c.

Fixpoint lower (s : string) : string :=
  match s with
  | EmptyString => EmptyString
  | String c s' => String (lower_char c) (lower s')
  end.

Definition digit_val (c : ascii) : option Z :=
  let n := nat_of_ascii c in
  if (48 <=? n)%nat && (n <=? 57)%nat then Some (Z.of_nat (n - 48)) else None.

(** Digits, with single underscores allowed between two digits. *)
Fixpoint digits_us (acc : Z) (l : list ascii) : option Z :=
  match l with
  | [] => Some acc
  | c :: l' =>
      match digit_val c with
      | Some d => digits_us (acc * 10 + d) l'
      | None =>
          if Ascii.eqb c "_"%char then
            match l' with
            | c2 :: l'' =>
                match digit_val c2 with
                | Some d2 => digits_us (acc * 10 + d2) l''
                | None => None
                end
            | [] => None
            end
          else None
      end
  end.

Definition unsigned_int (l : list ascii) : option Z :=
  match l with
  | c :: l' =>
      match digit_val c with
      | Some d => digits_us d l'
      | None => None
      end
  | [] => None
  end.

(** [int(s)] on a string, base 10: [None] is the [ValueError]. *)
Definition int_of_string (s : string) : option Z :=
  match list_ascii_of_string (strip s) with
  | c :: l =>
      if Ascii.eqb c "-"%char then option_map Z.opp (unsigned_int l)
      else if Ascii.eqb c "+"%char then unsigned_int l
      else unsigned_int (c :: l)
  | [] => None
  end.

(** [sep.join(l)] *)
Fixpoint join (sep : string) (l : list string) : string :=
  match l with
  | [] => EmptyString
  | [x] => x
  | x :: l' => x ++ sep ++ join sep l'
  end.

(** [s.upper()] on ASCII letters. On the other Latin-1 letters Python's
    [upper] gives non-ASCII letters or (for U+00DF) ["SS"], never a single
    ASCII letter, so two strings with the same image here have the same
    Python upper case, and a comparison of the upper case with ["GET"] or
    ["POST"] has the same result. *)
Definition upper_char (c : ascii) : ascii :=
  let n := nat_of_ascii c in
  if (97 <=? n)%nat && (n <=? 122)%nat then ascii_of_nat (n - 32) else c.

Fixpoint upper (s : string) : string :=
  match s with
  | EmptyString => EmptyString
  | String c s' => String (upper_char c) (upper s')
  end.

(** Universal newlines of a file opened in text mode: [\r\n] and a lone
    [\r] are read as [\n]; [after_cr] says the previous character was a
    [\r]. *)
Fixpoint translate_newlines (after_cr : bool) (s : string) : string :=
  match s with
  | EmptyString => EmptyString
  | String c s' =>
      if Ascii.eqb c "013"%char then String "010"%char (translate_newlines true s')
      else if after_cr && Ascii.eqb c "010"%char then translate_newlines false s'
      else String c (translate_newlines false s')
  end.

Definition universal_newlines (s : string) : string := translate_newlines false s.

End Py.

Definition newline : string := String "010"%char EmptyString.

(** The first [Some] among [f x] for [x] in [l], in order. *)
Fixpoint first_some {A B} (f : A -> option B) (l : list A) : option B :=
  match l with
  | [] => None
  | x :: l' => match f x with Some y => Some y | None => first_some f l' end
  end.

(* ------------------------------------------------------------------ *)
(** ** Python floats (IEEE 754 binary64, round to nearest, ties to even) *)

Module F64.

Local Open Scope Q_scope.

Definition pow2 (e : Z) : Q := Qpower (2 # 1) e.

(** The integer nearest to [x], ties to the even one. *)
Definition round_half_even (x : Q) : Z :=
  let f := Qfloor x in
  match Qcompare (x - inject_Z f) (1 # 2) with
  | Lt => f
  | Gt => (f + 1)%Z
  | Eq => if Z.even f then f else (f + 1)%Z
  end.

(** For [q > 0], the [e] with [2^(e+52) <= q < 2^(e+53)]: the exponent of
    the last of the 53 significant bits, with no bound on the exponent. *)
Definition exp_unbounded (q : Q) : Z :=
  let e0 := (Z.log2 (Qnum q) - Z.log2 (Zpos (Qden q)) - 52)%Z in
  if Qle_bool (pow2 (e0 + 52)) q then e0 else (e0 - 1)%Z.

(** The exponent of the unit in the last place, down to the subnormal
    quantum [2^-1074]. *)
Definition ulp_exp (q : Q) : Z := Z.max (exp_unbounded q) (-1074).

Definition round_pos (q : Q) : Q :=
  let e := ulp_exp q in inject_Z (round_half_even (q / pow2 e)) * pow2 e.

(** Rounding to binary64 before the overflow check. *)
Definition round64 (q : Q) : Q :=
  let q' := Qred q in
  Qred (match Qcompare q' 0 with
        | Eq => 0
        | Gt => round_pos q'
        | Lt => - round_pos (- q')
        end).

(** A Python [float] (NaN is never produced by the code modelled). *)
Inductive float :=
| Finite (q : Q)
| Infinity (neg : bool).

(** The float nearest to a rational: a result of magnitude [2^1024] or more
    overflows to an infinity. This is [float(s)] of a decimal string, and
    the result of an arithmetic operation on floats. *)
Definition of_Q (q : Q) : float :=
  let r := round64 q in
  if Qle_bool (pow2 1024) (Qabs r) then Infinity (negb (Qle_bool 0 r)) else Finite r.

(** [x <= y] *)
Definition le (x y : float) : bool :=
  match x, y with
  | Finite a, Finite b => Qle_bool a b
  | Infinity true, _ => true
  | _, Infinity false => true
  | _, _ => false
  end.

End F64.

(* ------------------------------------------------------------------ *)
(** ** [class Proxy] *)

Inductive py_exn :=
| IndexError
| ValueError.

Record Proxy := mkProxy {
  protocol : string;
  address : string;
  ip : string;
  port : Z;
  link : string
}.

(** [Proxy.__init__]: [ip = address.split(":")[0]],
    [port = int(address.split(":")[1])], [link = f"{protocol}://{address}"]. *)
Definition Proxy_init (proto addr : string) : py_exn + Proxy :=
  let fields := Py.split_on ":"%char addr in
  let ip0 := match fields with f :: _ => f | [] => EmptyString end in
  match nth_error fields 1 with
  | None => inl IndexError
  | Some pstr =>
      match Py.int_of_string pstr with
      | None => inl ValueError
      | Some n => inr (mkProxy proto addr ip0 n (proto ++ "://" ++ addr))
      end
  end.

(* ------------------------------------------------------------------ *)
(** ** [class ProxyStats] *)

Record counts := mkCounts { checked : nat; working : nat; failed : nat }.

Record ProxyStats := mkStats {
  total_checked : nat;
  by_protocol : gmap string counts;
  failure_reasons : gmap string nat
}.

Definition ProxyStats_new : ProxyStats := mkStats 0 ∅ ∅.

Definition init_protocol (st : ProxyStats) (proto : string) : ProxyStats :=
  match by_protocol st !! proto with
  | Some _ => st
  | None => mkStats (total_checked st) (<[proto := mkCounts 0 0 0]> (by_protocol st))
              (failure_reasons st)
  end.

Definition incr_working (c : counts) : counts := mkCounts (checked c) (S (working c)) (failed c).
Definition incr_failed (c : counts) : counts := mkCounts (checked c) (working c) (S (failed c)).
Definition incr_checked (c : counts) : counts := mkCounts (S (checked c)) (working c) (failed c).

Definition add_success (st : ProxyStats) (p : Proxy) : ProxyStats :=
  let proto := protocol p in
  let st1 := init_protocol st proto in
  let bp := alter incr_checked proto (alter incr_working proto (by_protocol st1)) in
  mkStats (S (total_checked st1)) bp (failure_reasons st1).

Definition add_failure (st : ProxyStats) (p : Proxy) (reason : string) : ProxyStats :=
  let proto := protocol p in
  let st1 := init_protocol st proto in
  let bp := alter incr_checked proto (alter incr_failed proto (by_protocol st1)) in
  let fr0 := match failure_reasons st1 !! reason with
             | Some _ => failure_reasons st1
             | None => <[reason := 0%nat]> (failure_reasons st1)
             end in
  mkStats (S (total_checked st1)) bp (alter S reason fr0).

(** A call to one of the two recording methods. *)
Inductive stat_call :=
| CallSuccess (p : Proxy)
| CallFailure (p : Proxy) (reason : string).

Definition apply_call (st : ProxyStats) (c : stat_call) : ProxyStats :=
  match c with
  | CallSuccess p => add_success st p
  | CallFailure p r => add_failure st p r
  end.

Definition run_calls (st : ProxyStats) (cs : list stat_call) : ProxyStats :=
  fold_left apply_call cs st.

Definition is_failure_call (c : stat_call) : bool :=
  match c with CallFailure _ _ => true | CallSuccess _ => false end.

Definition sum_checked (m : gmap string counts) : nat :=
  map_fold (fun _ c acc => (checked c + acc)%nat) 0%nat m.

Definition sum_reasons (m : gmap string nat) : nat :=
  map_fold (fun _ n acc => (n + acc)%nat) 0%nat m.

(** [total_working = sum(stats["working"] for stats in self.by_protocol.values())],
    as computed by [display_summary] and [save_test_results]. *)
Definition total_working (st : ProxyStats) : nat :=
  map_fold (fun _ c acc => (working c + acc)%nat) 0%nat (by_protocol st).

(** The figure printed as ["Failed proxies"] by [display_summary] and
    written as [total_checked - total_working] into the README: a Python
    int, so a difference of integers. *)
Definition failed_figure (st : ProxyStats) : Z :=
  (Z.of_nat (total_checked st) - Z.of_nat (total_working st))%Z.

(* ------------------------------------------------------------------ *)
(** ** [check_proxy]: the per-proxy test protocol *)

Definition TEST_WEBSITES : list string := [
  "https://www.amazon.ca/amazon-fire-tv-stick-hd/dp/B0CQN248PX";
  "https://www.amazon.ca/Echo-Dot-5th-Gen/dp/B09B8V1LZ3";
  "https://www.amazon.ca/All-new-Amazon-Kindle-Paperwhite-glare-free/dp/B0CFPWLGF2";
  "https://www.amazon.ca/Fire-HD-8-Tablet-Black-32GB/dp/B0CVDNLYYS";
  "https://www.amazon.ca/dp/B09BZVX3J7"
].

(** Outcome of [headers = generate_headers(); response = session.get(...)]:
    an exception (its class name, [type(e).__name__]) or a response. *)
Inductive response :=
| RExn (ename : string)
| RResp (status_code : Z) (text : string).

(** The network as seen by [check_proxy] for one proxy: the outcome of
    the GET for each website, and the result of
    [check_amazon_price_visibility] for each website (that function
    catches every exception itself and returns a bool). *)
Record net := mkNet {
  net_get : string -> response;
  net_price_visible : string -> bool
}.

(** What [check_proxy] does, in order: its own [session.get] of a
    website, or a call on the global [PROXY_STATS]. The further request
    that [check_amazon_price_visibility] makes for an Amazon website
    answering 200 is inside [net_price_visible], not an event here. *)
Inductive event :=
| EvGet (website : string)
| EvStat (c : stat_call).

(** The [for website in TEST_WEBSITES] loop of [check_proxy]. *)
Fixpoint check_loop (nw : net) (p : Proxy) (ws : list string) : bool * list event :=
  match ws with
  | [] => (false, [])
  | w :: ws' =>
      if Py.startswith w "PLACEHOLDER" then check_loop nw p ws'
      else
        match net_get nw w with
        | RExn e =>
            let '(b, evs) := check_loop nw p ws' in
            (b, EvGet w :: EvStat (CallFailure p e) :: evs)
        | RResp code _ =>
            if Z.eqb code 200 then
              if Py.contains "amazon" w then
                if net_price_visible nw w then
                  (true, [EvGet w; EvStat (CallSuccess p)])
                else
                  let '(b, evs) := check_loop nw p ws' in
                  (b, EvGet w :: EvStat (CallFailure p "Price not visible") :: evs)
              else (true, [EvGet w; EvStat (CallSuccess p)])
            else
              let '(b, evs) := check_loop nw p ws' in
              (b, EvGet w :: EvStat (CallFailure p ("HTTP " ++ pretty code)) :: evs)
        end
  end.

Definition check_proxy_on (nw : net) (p : Proxy) (ws : list string) : bool * list event :=
  check_loop nw p ws.

Definition check_proxy (nw : net) (p : Proxy) : bool * list event :=
  check_proxy_on nw p TEST_WEBSITES.

Definition stat_calls (evs : list event) : list stat_call :=
  omap (fun e => match e with EvStat c => Some c | EvGet _ => None end) evs.

Definition gets (evs : list event) : list string :=
  omap (fun e => match e with EvGet w => Some w | EvStat _ => None end) evs.

(** The test of one endpoint passes: it is not a placeholder, its GET
    answers 200, and on an Amazon page the price is visible. *)
Definition endpoint_ok (nw : net) (w : string) : bool :=
  negb (Py.startswith w "PLACEHOLDER") &&
  match net_get nw w with
  | RResp code _ => Z.eqb code 200 && (negb (Py.contains "amazon" w) || net_price_visible nw w)
  | RExn _ => false
  end.

(* ------------------------------------------------------------------ *)
(** ** Proxy loading: [download_proxy_list] and [load_proxies] *)

Definition PROXY_SOURCES : list (string * string) := [
  ("http", "https://raw.githubusercontent.com/MuRongPIG/Proxy-Master/refs/heads/main/http.txt");
  ("socks4", "https://raw.githubusercontent.com/MuRongPIG/Proxy-Master/refs/heads/main/socks4.txt");
  ("socks5", "https://raw.githubusercontent.com/MuRongPIG/Proxy-Master/refs/heads/main/socks5.txt")
].

Fixpoint assoc_lookup (k : string) (l : list (string * string)) : option string :=
  match l with
  | [] => None
  | (k', v) :: l' => if String.eqb k k' then Some v else assoc_lookup k l'
  end.

(** The environment of the loader: the current time in minutes, and the
    outcome of [requests.get(url, timeout=30)] for each url ([None] is an
    exception, [Some (status, text)] a response). *)
Record load_env := mkLoadEnv {
  now_min : Z;
  fetch : string -> option (Z * string)
}.

(** The local copies [PROXY_FILES_FOLDER/<protocol>.txt]: content and the
    minute of the last successful refresh. *)
Abbreviation local_copies := (gmap string (string * Z)).

(** [download_proxy_list(protocol)]: the returned lines, the local copies
    afterwards, and the urls requested. An unknown protocol raises
    [KeyError] inside the [try], which returns [[]]. *)
Definition download_proxy_list (env : load_env) (files : local_copies) (proto : string)
    : list string * local_copies * list string :=
  match assoc_lookup proto PROXY_SOURCES with
  | None => ([], files, [])
  | Some url =>
      match fetch env url with
      | None => ([], files, [url])
      | Some (code, text) =>
          if Z.eqb code 200 then
            (Py.split_on "010"%char (Py.strip_char "010"%char text),
             <[proto := (text, now_min env)]> files, [url])
          else ([], files, [url])
      end
  end.

Definition is_blank (s : string) : bool := String.eqb (Py.strip s) "".

(** [for address in data: if address.strip(): proxies.append(Proxy(protocol, address))] *)
Fixpoint load_lines (proto : string) (data : list string) : py_exn + list Proxy :=
  match data with
  | [] => inr []
  | a :: data' =>
      if is_blank a then load_lines proto data'
      else match Proxy_init proto a with
           | inl e => inl e
           | inr p => match load_lines proto data' with
                      | inl e => inl e
                      | inr ps => inr (p :: ps)
                      end
           end
  end.

(** [load_proxies(types)]: the result (an exception escaping, or the
    proxies), the local copies afterwards, the urls requested. *)
Fixpoint load_proxies (env : load_env) (files : local_copies) (types : list string)
    : (py_exn + list Proxy) * local_copies * list string :=
  match types with
  | [] => (inr [], files, [])
  | proto :: types' =>
      let '(data, files1, urls1) := download_proxy_list env files proto in
      match load_lines proto data with
      | inl e => (inl e, files1, urls1)
      | inr ps =>
          let '(res, files2, urls2) := load_proxies env files1 types' in
          match res with
          | inl e => (inl e, files2, (urls1 ++ urls2)%list)
          | inr qs => (inr (ps ++ qs)%list, files2, (urls1 ++ urls2)%list)
          end
      end
  end.


(** The exception [Proxy()] raises on a line that is not blank. *)
Definition line_exn (proto a : string) : option py_exn :=
  if is_blank a then None
  else match Proxy_init proto a with inl e => Some e | inr _ => None end.

(** The proxy a line that is not blank gives. *)
Definition line_proxy (proto a : string) : option Proxy :=
  if is_blank a then None
  else match Proxy_init proto a with inl _ => None | inr p => Some p end.

Definition download_data (env : load_env) (proto : string) : list string :=
  fst (fst (download_proxy_list env ∅ proto)).

(** The download of a protocol's list fails: no source for the protocol
    (the [KeyError]), an exception of [requests.get], or a status other
    than 200. *)
Definition download_fails (env : load_env) (proto : string) : bool :=
  match assoc_lookup proto PROXY_SOURCES with
  | None => true
  | Some url =>
      match fetch env url with
      | None => true
      | Some (code, _) => negb (Z.eqb code 200)
      end
  end.


Definition source_urls (types : list string) : list string :=
  omap (fun t => assoc_lookup t PROXY_SOURCES) types.

(** [load_proxy_files(protocol, types)]: read the local copy
    [PROXY_FILES_FOLDER/<protocol>.txt] if it exists, otherwise (the
    [FileNotFoundError] branch) download the list. Only
    [FileNotFoundError] is caught, so an exception of [Proxy()] escapes
    from both branches. [types] is not used. *)
Definition load_proxy_files (env : load_env) (files : local_copies) (proto : string)
    (types : list string) : (py_exn + list Proxy) * local_copies * list string :=
  match files !! proto with
  | Some (content, _) =>
      (load_lines proto (Py.split_on "010"%char
                           (Py.strip_char "010"%char (Py.universal_newlines content))), files, [])
  | None =>
      let '(data, files1, urls) := download_proxy_list env files proto in
      (load_lines proto data, files1, urls)
  end.

(* ------------------------------------------------------------------ *)
(** ** [collect_results] *)

(** The callback queue is drained in FIFO order into [checked_proxies]. *)
Definition collect_results (callback_queue : list Proxy) (proxies : list Proxy)
    : list Proxy * list Proxy :=
  let checked_proxies := callback_queue in
  let checked_set := map link checked_proxies in
  let failed_proxies :=
    filter (fun p => link p ∉ checked_set) proxies in
  (checked_proxies, failed_proxies).

(* ------------------------------------------------------------------ *)
(** ** [organize_and_save_results] *)

(** The [results] dict: protocol to the addresses of the working proxies
    of that protocol, in the order of [checked_proxies]. *)
Definition organize_results (checked_proxies : list Proxy) : gmap string (list string) :=
  fold_left (fun results p =>
               match results !! protocol p with
               | Some l => <[protocol p := (l ++ [address p])%list]> results
               | None => <[protocol p := [address p]]> results
               end) checked_proxies ∅.

(** [os.path.join(CHECKED_PROXY_FOLDER, f"{protocol}_checked.txt")], the
    folder left implicit. *)
Definition checked_path (proto : string) : string := proto ++ "_checked.txt".

(** The files written, in order, with the content each is left with
    (mode ["w+"] truncates). *)
Definition organize_and_save_results (checked_proxies : list Proxy) (types : list string)
    : list (string * string) :=
  let results := organize_results checked_proxies in
  map (fun proto =>
         let proxy_list := match results !! proto with Some l => l | None => [] end in
         (checked_path proto, Py.join newline proxy_list)) types.

(* ------------------------------------------------------------------ *)
(** ** The blacklist file: [load_blacklist] and [update_blacklist] *)

(** The file [BLACKLIST_FILE]: absent, or its content. Reading (text
    mode) translates the newlines ([Py.universal_newlines]) and iterates
    over the lines. *)
Abbreviation blacklist_file := (option string).

Fixpoint set_of_lines (ls : list string) : gset string :=
  match ls with
  | [] => ∅
  | l :: ls' =>
      let s := Py.strip l in
      if String.eqb s "" then set_of_lines ls' else {[ s ]} ∪ set_of_lines ls'
  end.

Definition load_blacklist (f : blacklist_file) : gset string * blacklist_file :=
  match f with
  | None => (∅, Some "")
  | Some content => (set_of_lines (Py.split_on "010"%char (Py.universal_newlines content)), f)
  end.

Definition proxy_str (p : Proxy) : string := protocol p ++ "://" ++ address p.

(** The lines written in append mode; [current] is not updated inside
    the loop. *)
Fixpoint blacklist_delta (current : gset string) (failed_proxies : list Proxy) : string :=
  match failed_proxies with
  | [] => ""
  | p :: ps =>
      if decide (proxy_str p ∈ current)
      then blacklist_delta current ps
      else proxy_str p ++ String "010"%char "" ++ blacklist_delta current ps
  end.

Definition update_blacklist (failed_proxies : list Proxy) (f : blacklist_file) : blacklist_file :=
  let '(current, f1) := load_blacklist f in
  let content := match f1 with Some c => c | None => "" end in
  Some (content ++ blacklist_delta current failed_proxies).

(** [filter_blacklisted_proxies(proxies, blacklist)]: the kept proxies
    and [skipped_count = len(proxies) - len(filtered_proxies)]. *)
Definition filter_blacklisted_proxies (proxies : list Proxy) (blacklist : gset string)
    : list Proxy * Z :=
  let filtered_proxies :=
    fold_left (fun acc p => if decide (proxy_str p ∉ blacklist) then (acc ++ [p])%list else acc)
      proxies [] in
  (filtered_proxies, (Z.of_nat (length proxies) - Z.of_nat (length filtered_proxies))%Z).

(** A blacklist file as [update_blacklist] leaves it: empty, or ending
    in a newline. *)
Fixpoint ends_with_newline (s : string) : bool :=
  match s with
  | EmptyString => true
  | String c EmptyString => Ascii.eqb c "010"%char
  | String _ s' => ends_with_newline s'
  end.

Definition blacklist_file_ok (f : blacklist_file) : bool :=
  match f with None => true | Some c => ends_with_newline c end.

Definition carriage_return : string := String "013"%char EmptyString.

(** A proxy identity that reads back unchanged from the blacklist file:
    no surrounding whitespace, no newline and no carriage return inside. *)
Definition identity_ok (p : Proxy) : bool :=
  String.eqb (Py.strip (proxy_str p)) (proxy_str p) && negb (Py.contains newline (proxy_str p))
  && negb (Py.contains carriage_return (proxy_str p)).

(* ------------------------------------------------------------------ *)
(** ** [AmazonPriceChecker] *)

Definition min_price : Q := 1.
Definition max_price : Q := 10000.

Definition price_selectors : list string := [
  "span.a-price span.a-offscreen";
  "span.a-price.a-text-price span.a-offscreen";
  "span.a-price.apexPriceToPay span.a-offscreen";
  "span.a-price[data-a-color=" ++ String "034"%char "price" ++ String "034"%char "] span.a-offscreen";
  "span#priceblock_dealprice";
  "span#priceblock_businessprice"
].

Definition unavailable_patterns : list string := [
  "currently unavailable";
  "see price in cart";
  "pricing unavailable";
  "temporarily out of stock"
].

(** [s.replace(c, "")] for a single character [c] *)
Fixpoint remove_char (c : ascii) (s : string) : string :=
  match s with
  | EmptyString => EmptyString
  | String d s' => if Ascii.eqb c d then remove_char c s' else String d (remove_char c s')
  end.

Definition is_digit (c : ascii) : bool :=
  match Py.digit_val c with Some _ => true | None => false end.

Definition is_num_char (c : ascii) : bool := is_digit c || Ascii.eqb c ","%char.

Fixpoint take_while (f : ascii -> bool) (s : string) : string :=
  match s with
  | EmptyString => EmptyString
  | String c s' => if f c then String c (take_while f s') else EmptyString
  end.

Fixpoint drop_while (f : ascii -> bool) (s : string) : string :=
  match s with
  | EmptyString => EmptyString
  | String c s' => if f c then drop_while f s' else s
  end.

(** Group 1 of [re.search] with the pattern of [price_selectors] (an optional dollar sign, then the
    group: digits and commas, an optional dot, digits): the leftmost match
    starts at the first digit or comma (every [$] has been removed
    before); all three parts are greedy and need no backtracking. *)
Definition price_regex_group1 (s : string) : option string :=
  match drop_while (fun c => negb (is_num_char c)) s with
  | EmptyString => None
  | s1 =>
      let run := take_while is_num_char s1 in
      match drop_while is_num_char s1 with
      | String c rest =>
          if Ascii.eqb c "."%char then Some (run ++ "." ++ take_while is_digit rest)
          else Some run
      | EmptyString => Some run
      end
  end.

Fixpoint digits_value (acc : Z) (s : string) : Z :=
  match s with
  | EmptyString => acc
  | String c s' =>
      let d := match Py.digit_val c with Some d => d | None => 0%Z end in
      digits_value (acc * 10 + d) s'
  end.

(** The decimal written by a string of the form the regex can produce
    after commas are removed: digits, optionally a dot and more digits, at
    least one digit; [None] for any other string. *)
Definition decimal_of_string (s : string) : option Q :=
  let ip := take_while is_digit s in
  let rest := drop_while is_digit s in
  let fp := match rest with
            | String c r => if Ascii.eqb c "."%char then Some (take_while is_digit r) else None
            | EmptyString => Some ""
            end in
  match fp with
  | None => None
  | Some fp =>
      let rest2 := match rest with String _ r => drop_while is_digit r | EmptyString => "" end in
      if negb (String.eqb rest2 "") then None
      else if (String.length ip + String.length fp =? 0)%nat then None
      else
        let num := digits_value 0 (ip ++ fp) in
        Some (Qred (Qmake num (Z.to_pos (10 ^ Z.of_nat (String.length fp)))))
  end.

(** [float(s)] on those strings: the decimal rounded to the nearest
    binary64 value ([inf] past the largest float); [None] is the
    [ValueError]. *)
Definition py_float (s : string) : option F64.float :=
  option_map F64.of_Q (decimal_of_string s).

(** One element of the inner loop of [_parse_price]: the price if the
    element yields one in range. *)
Definition element_price (text : string) : option F64.float :=
  let price_text := remove_char " "%char (remove_char "$"%char (Py.strip text)) in
  match price_regex_group1 price_text with
  | None => None
  | Some g =>
      match py_float (remove_char ","%char g) with
      | None => None
      | Some price =>
          if F64.le (F64.Finite min_price) price && F64.le price (F64.Finite max_price)
          then Some price else None
      end
  end.

(** The extracted value of an element, before the range check. *)
Definition element_value (text : string) : option F64.float :=
  let price_text := remove_char " "%char (remove_char "$"%char (Py.strip text)) in
  match price_regex_group1 price_text with
  | None => None
  | Some g => py_float (remove_char ","%char g)
  end.

(** [_parse_price(soup)]; [select sel] are the texts of [soup.select(sel)]. *)
Definition parse_price (select : string -> list string) : option F64.float :=
  first_some (fun sel => first_some element_price (select sel)) price_selectors.

(** [_check_availability(soup)] on [page_text = soup.get_text()] *)
Definition check_availability (page_text : string) : bool :=
  negb (existsb (fun pattern => Py.contains pattern (Py.lower page_text)) unavailable_patterns).

(** [is_price_visible]: the response of its own GET, [get_text html] for
    [BeautifulSoup(html).get_text()] and [select html sel] for
    [BeautifulSoup(html).select(sel)]. *)
Definition is_price_visible (resp : response) (get_text : string -> string)
    (select : string -> string -> list string) : bool :=
  match resp with
  | RExn _ => false
  | RResp code text =>
      if negb (Z.eqb code 200) then false
      else if Py.contains "captcha" (Py.lower text) || Py.contains "robot check" (Py.lower text)
      then false
      else if negb (check_availability (get_text text)) then false
      else match parse_price (select text) with Some _ => true | None => false end
  end.

(* ------------------------------------------------------------------ *)
(** ** [update_readme_with_results] *)

Definition README_MARKER : string := "Working proxies will be saved to".
Definition RESULTS_HEADING : string := "## Recent Results".

(** The index of the first element satisfying [f] ([enumerate] with
    [break]). *)
Fixpoint find_index {A} (f : A -> bool) (l : list A) : option nat :=
  match l with
  | [] => None
  | x :: l' => if f x then Some 0%nat else option_map S (find_index f l')
  end.

(** The line processing of [update_readme_with_results]. In the loop that
    looks for the end of the old section, the test is on [line], which is
    still the loop variable of the search for [results_start_index], that
    is [readme_lines[results_start_index]]. *)
Definition update_readme_lines (readme_lines : list string) (results_section : list string)
    : list string :=
  let insert_index :=
    match find_index (fun line => Py.contains README_MARKER line) readme_lines with
    | Some i => S i
    | None => length readme_lines
    end in
  match find_index (fun line => String.eqb (Py.strip line) RESULTS_HEADING) readme_lines with
  | None => (take insert_index readme_lines ++ results_section)%list
  | Some results_start_index =>
      let line := nth results_start_index readme_lines EmptyString in
      let results_end_index :=
        match List.find (fun _ => Py.startswith line "## ")
                (seq (S results_start_index) (length readme_lines - S results_start_index)) with
        | Some i => i
        | None => length readme_lines
        end in
      let readme_lines' :=
        (take results_start_index readme_lines ++ drop results_end_index readme_lines)%list in
      let insert_index' :=
        if (results_start_index <? insert_index)%nat then results_start_index else insert_index in
      (take insert_index' readme_lines' ++ results_section)%list
  end.

(** [results_section]: its first three lines are fixed; [body] stands for
    the formatted lines that follow (["Last test run: ..."], the summary,
    the table and the failure reasons), whose number formatting is not
    modelled. *)
Definition results_section (body : list string) : list string :=
  ([""; RESULTS_HEADING; ""] ++ body)%list.

(** [update_readme_with_results(results)] on the content of README.md. *)
Definition update_readme_with_results (total_checked : nat) (body : list string)
    (readme_content : string) : string :=
  if (total_checked =? 0)%nat then readme_content
  else Py.join newline
         (update_readme_lines (Py.split_on "010"%char readme_content) (results_section body)).

(* ------------------------------------------------------------------ *)
(** ** [antibot_utils.py] *)

Module Antibot.

Local Open Scope Q_scope.

(** [HumanBrowsingPattern.think_time()], [g] the draw of
    [random.normalvariate(3.5, 0.8)]. *)
Definition think_time (g : Q) : Q := Qmax 2 (Qmin 5 g).

(** In the float arithmetic below each operation is rounded with
    [F64.round64], and an [int] operand is first converted to a float. The
    results are clamped by [min] and [max] to a few seconds, so an overflow
    to an infinity would be clamped to the same bound; it is not
    modelled. *)

(** [HumanBrowsingPattern.navigation_delay()]: [1.0 + random.random() *
    2.0], [r] the draw of [random.random()]. *)
Definition navigation_delay (r : Q) : Q := F64.round64 (1 + F64.round64 (r * 2)).

(** [HumanBrowsingPattern.reading_time(content_length)] *)
Definition reading_time (content_length : Z) (r : Q) : Q :=
  let estimated_reading_time := F64.round64 (F64.round64 (inject_Z content_length) / 50) in
  let factor := F64.round64 (F64.round64 (7 # 10) + F64.round64 (r * F64.round64 (6 # 10))) in
  Qmin 10 (Qmax 3 (F64.round64 (estimated_reading_time * factor))).

(** [monitor_progress(total_items, processed_items, start_time)], with
    [elapsed = time.time() - start_time]: the sleep interval returned. *)
Definition monitor_progress (total_items processed_items : Z) (elapsed : Q) : Q :=
  if Z.eqb total_items 0 then 1
  else if Z.eqb processed_items 0 then 1
  else
    let time_per_item := F64.round64 (elapsed / F64.round64 (inject_Z processed_items)) in
    let items_left := (total_items - processed_items)%Z in
    let time_remaining := F64.round64 (time_per_item * F64.round64 (inject_Z items_left)) in
    Qmin (Qmax 1 (F64.round64 (time_remaining / 20))) 10.

(** What [perform_request_with_anti_bot_measures] does, in order. *)
Inductive req_event :=
| ESetupSession
| ESleep (d : Q)
| EGet
| EPost
| EClose.

(** The outcome of [session.get] / [session.post]: a response with a text
    of some length, or an exception (its [str]); and the [ValueError] with
    its message that [perform_request_with_anti_bot_measures] raises
    itself. *)
Inductive req_outcome :=
| ROk (text_length : Z)
| RRaise (ename : string)
| RValueError (msg : string).

(** [perform_request_with_anti_bot_measures(url, method, ..., add_delays,
    fast_check, session)]; [session_given] is [session is not None],
    [nav_r] and [read_r] the draws of [random.random()] in the two
    delays. *)
Definition perform_request (method : string) (session_given add_delays fast_check : bool)
    (nav_r read_r : Q) (outcome : req_outcome) : list req_event * req_outcome :=
  let setup := if session_given then [] else [ESetupSession] in
  let internal_session := negb session_given in
  let pre := if add_delays
             then [ESleep (if fast_check then 1 # 2 else navigation_delay nav_r)]
             else [] in
  let close := if internal_session then [EClose] else [] in
  let m := Py.upper method in
  if String.eqb m "GET" || String.eqb m "POST" then
    let req := if String.eqb m "GET" then EGet else EPost in
    match outcome with
    | ROk n =>
        let post := if add_delays && negb fast_check then [ESleep (reading_time n read_r)] else [] in
        (setup ++ pre ++ [req] ++ post ++ close, ROk n)%list
    | e => (setup ++ pre ++ [req] ++ close, e)%list
    end
  else (setup ++ pre ++ close, RValueError ("Unsupported HTTP method: " ++ method))%list.

(** The [user_agents] list of [generate_headers]. *)
Definition user_agents : list string := [
  "Mozilla/5.0 (Windows NT 10.0; Win64; x64) AppleWebKit/537.36 (KHTML, like Gecko) Chrome/120.0.0.0 Safari/537.36";
  "Mozilla/5.0 (Windows NT 10.0; Win64; x64) AppleWebKit/537.36 (KHTML, like Gecko) Chrome/119.0.0.0 Safari/537.36";
  "Mozilla/5.0 (Windows NT 10.0; Win64; x64) AppleWebKit/537.36 (KHTML, like Gecko) Chrome/118.0.5993.88 Safari/537.36";
  "Mozilla/5.0 (Windows NT 10.0; Win64; x64) AppleWebKit/537.36 (KHTML, like Gecko) Chrome/117.0.5938.62 Safari/537.36";
  "Mozilla/5.0 (Windows NT 10.0; Win64; x64) AppleWebKit/537.36 (KHTML, like Gecko) Chrome/116.0.5845.96 Safari/537.36";
  "Mozilla/5.0 (Macintosh; Intel Mac OS X 14_0) AppleWebKit/537.36 (KHTML, like Gecko) Chrome/120.0.0.0 Safari/537.36";
  "Mozilla/5.0 (Macintosh; Intel Mac OS X 13_6) AppleWebKit/537.36 (KHTML, like Gecko) Chrome/119.0.0.0 Safari/537.36";
  "Mozilla/5.0 (Macintosh; Intel Mac OS X 13_5) AppleWebKit/537.36 (KHTML, like Gecko) Chrome/118.0.5993.88 Safari/537.36";
  "Mozilla/5.0 (Macintosh; Intel Mac OS X 13_4) AppleWebKit/537.36 (KHTML, like Gecko) Chrome/117.0.5938.62 Safari/537.36";
  "Mozilla/5.0 (Windows NT 10.0; Win64; x64; rv:120.0) Gecko/20100101 Firefox/120.0";
  "Mozilla/5.0 (Windows NT 10.0; Win64; x64; rv:119.0) Gecko/20100101 Firefox/119.0";
  "Mozilla/5.0 (Windows NT 10.0; Win64; x64; rv:118.0) Gecko/20100101 Firefox/118.0";
  "Mozilla/5.0 (Windows NT 10.0; Win64; x64; rv:117.0) Gecko/20100101 Firefox/117.0";
  "Mozilla/5.0 (Macintosh; Intel Mac OS X 14.0; rv:120.0) Gecko/20100101 Firefox/120.0";
  "Mozilla/5.0 (Macintosh; Intel Mac OS X 13.6; rv:119.0) Gecko/20100101 Firefox/119.0";
  "Mozilla/5.0 (Macintosh; Intel Mac OS X 13.5; rv:118.0) Gecko/20100101 Firefox/118.0";
  "Mozilla/5.0 (Macintosh; Intel Mac OS X 14_0) AppleWebKit/605.1.15 (KHTML, like Gecko) Version/17.0 Safari/605.1.15";
  "Mozilla/5.0 (Macintosh; Intel Mac OS X 13_6) AppleWebKit/605.1.15 (KHTML, like Gecko) Version/16.0 Safari/605.1.15";
  "Mozilla/5.0 (Macintosh; Intel Mac OS X 13_5) AppleWebKit/605.1.15 (KHTML, like Gecko) Version/15.0 Safari/605.1.15";
  "Mozilla/5.0 (Windows NT 10.0; Win64; x64) AppleWebKit/537.36 (KHTML, like Gecko) Chrome/120.0.0.0 Safari/537.36 Edg/120.0.0.0";
  "Mozilla/5.0 (Windows NT 10.0; Win64; x64) AppleWebKit/537.36 (KHTML, like Gecko) Chrome/119.0.0.0 Safari/537.36 Edg/119.0.0.0";
  "Mozilla/5.0 (Windows NT 10.0; Win64; x64) AppleWebKit/537.36 (KHTML, like Gecko) Chrome/118.0.5993.88 Safari/537.36 Edg/118.0.5993.88";
  "Mozilla/5.0 (X11; Linux x86_64) AppleWebKit/537.36 (KHTML, like Gecko) Chrome/120.0.0.0 Safari/537.36";
  "Mozilla/5.0 (X11; Linux x86_64) AppleWebKit/537.36 (KHTML, like Gecko) Chrome/119.0.0.0 Safari/537.36";
  "Mozilla/5.0 (X11; Linux x86_64; rv:120.0) Gecko/20100101 Firefox/120.0";
  "Mozilla/5.0 (X11; Linux x86_64; rv:119.0) Gecko/20100101 Firefox/119.0";
  "Mozilla/5.0 (Windows NT 10.0; Win64; x64) AppleWebKit/537.36 (KHTML, like Gecko) Chrome/120.0.0.0 Safari/537.36 OPR/90.0.0.0";
  "Mozilla/5.0 (Windows NT 10.0; Win64; x64) AppleWebKit/537.36 (KHTML, like Gecko) Chrome/119.0.0.0 Safari/537.36 OPR/89.0.0.0";
  "Mozilla/5.0 (Macintosh; Intel Mac OS X 14_0) AppleWebKit/537.36 (KHTML, like Gecko) Chrome/120.0.0.0 Safari/537.36 OPR/90.0.0.0";
  "Mozilla/5.0 (Macintosh; Intel Mac OS X 13_6) AppleWebKit/537.36 (KHTML, like Gecko) Chrome/119.0.0.0 Safari/537.36 OPR/89.0.0.0"
].

(** Group 1 of [re.search(tag + r"(\d+)", s)]: the digits after the
    leftmost occurrence of [tag] that is followed by a digit. *)
Fixpoint re_search_digits (tag s : string) : option string :=
  let ds := take_while is_digit (substring (String.length tag) (String.length s) s) in
  if String.prefix tag s && negb (String.eqb ds "") then Some ds
  else match s with
       | EmptyString => None
       | String _ s' => re_search_digits tag s'
       end.

Definition dq (s : string) : string := String "034"%char (s ++ String "034"%char EmptyString).

(** The ["Sec-Ch-Ua"] header that [generate_headers] sets for the chosen
    user agent, [None] when it sets none. *)
Definition sec_ch_ua (chosen_ua : string) : option string :=
  let is_chrome := Py.contains "Chrome" chosen_ua in
  let is_firefox := Py.contains "Firefox" chosen_ua in
  let is_safari := Py.contains "Safari" chosen_ua && negb (Py.contains "Chrome" chosen_ua) in
  let is_edge := Py.contains "Edg/" chosen_ua in
  if is_chrome then
    option_map (fun version => dq "Google Chrome" ++ ";v=" ++ dq version ++ ", " ++
                  dq " Not A;Brand" ++ ";v=" ++ dq "99" ++ ", " ++ dq "Chromium" ++ ";v=" ++ dq version)
      (re_search_digits "Chrome/" chosen_ua)
  else if is_edge then
    option_map (fun version => dq "Microsoft Edge" ++ ";v=" ++ dq version ++ ", " ++
                  dq " Not A;Brand" ++ ";v=" ++ dq "99" ++ ", " ++ dq "Chromium" ++ ";v=" ++ dq version)
      (re_search_digits "Edg/" chosen_ua)
  else if is_firefox then
    option_map (fun version => dq "Firefox" ++ ";v=" ++ dq version ++ ", " ++
                  dq "Gecko" ++ ";v=" ++ dq version)
      (re_search_digits "Firefox/" chosen_ua)
  else if is_safari then
    option_map (fun version => dq "Safari" ++ ";v=" ++ dq version ++ ", " ++
                  dq "Apple" ++ ";v=" ++ dq version)
      (re_search_digits "Version/" chosen_ua)
  else if Py.contains "OPR/" chosen_ua then
    option_map (fun version => dq "Opera" ++ ";v=" ++ dq version ++ ", " ++
                  dq " Not A;Brand" ++ ";v=" ++ dq "99" ++ ", " ++ dq "Chromium" ++ ";v=" ++ dq version)
      (re_search_digits "OPR/" chosen_ua)
  else None.

(** The session events of [perform_request_with_anti_bot_measures]:
    [setup_session()] and [session.close()]. *)
Definition is_session_event (e : req_event) : bool :=
  match e with ESetupSession | EClose => true | _ => false end.

(** The request events: [session.get] and [session.post]. *)
Definition is_request_event (e : req_event) : bool :=
  match e with EGet | EPost => true | _ => false end.

(** The durations passed to [time.sleep], in order. *)
Definition sleeps (evs : list req_event) : list Q :=
  omap (fun e => match e with ESleep d => Some d | _ => None end) evs.

(** Whether a user agent gets the ["Google Chrome"] Sec-Ch-Ua header, and
    whether it names Edge or Opera. *)
Definition gets_chrome_hint (ua : string) : bool :=
  match sec_ch_ua ua with
  | Some h => String.prefix (dq "Google Chrome") h
  | None => false
  end.

Definition names_edge_or_opera (ua : string) : bool :=
  Py.contains "Edg/" ua || Py.contains "OPR/" ua.

End Antibot.

(* ------------------------------------------------------------------ *)
(** ** [simulate_human_browsing_sequence] and
    [check_connectivity_and_price_visibility] *)

Module Browsing.

Import Antibot.
Local Open Scope Q_scope.

(** What the GET of a page gives: a response with its text, or an
    exception (its [str]). *)
Inductive page :=
| PText (text : string)
| PRaise (ename : string).

(** The outcome of the GET as [perform_request_with_anti_bot_measures]
    sees it. *)
Definition page_outcome (p : page) : req_outcome :=
  match p with
  | PText text => ROk (Z.of_nat (String.length text))
  | PRaise e => RRaise e
  end.

(** One iteration of [for i, url in enumerate(urls)]: the url, the draws
    of [human.think_time()] and [human.reading_time(...)], and the page
    its request gets. *)
Record visit := mkVisit {
  v_url : string;
  v_think : Q;
  v_read : Q;
  v_page : page
}.

(** The loop of [simulate_human_browsing_sequence] from index [i], with
    the [responses] dict so far; [inl e] is an exception leaving the loop.
    Each request is [perform_request_with_anti_bot_measures(url,
    method="GET", add_delays=False, session=session)], whose own draws are
    not used without delays. The [headers] the loop builds (with the
    [Referer]) are never passed on, so they have no effect. *)
Fixpoint browse_loop (i : nat) (vs : list visit) (responses : gmap string string)
    : list req_event * (string + gmap string string) :=
  match vs with
  | [] => ([], inr responses)
  | v :: vs' =>
      let think := if Nat.ltb 0 i then [ESleep (think_time (v_think v))] else [] in
      let req := fst (perform_request "GET" true false false 0 0 (page_outcome (v_page v))) in
      match v_page v with
      | PRaise e => ((think ++ req)%list, inl e)
      | PText text =>
          let responses' := <[v_url v := text]> responses in
          let read := [ESleep (reading_time (Z.of_nat (String.length text)) (v_read v))] in
          let '(evs, r) := browse_loop (S i) vs' responses' in
          ((think ++ req ++ read ++ evs)%list, r)
      end
  end.

(** [simulate_human_browsing_sequence(urls, ..., session)] with
    [session_given] for [session is not None]: the events and the
    [responses] dict it returns (with the session), or the exception it
    re-raises after closing the session it created. *)
Definition simulate_human_browsing_sequence (session_given : bool) (vs : list visit)
    : list req_event * (string + gmap string string) :=
  match vs with
  | [] => (if session_given then [] else [ESetupSession], inr ∅)
  | _ =>
      let setup := if session_given then [] else [ESetupSession] in
      let internal_session := negb session_given in
      let '(evs, r) := browse_loop 0 vs ∅ in
      match r with
      | inl e => ((setup ++ evs ++ (if internal_session then [EClose] else []))%list, inl e)
      | inr responses => ((setup ++ evs)%list, inr responses)
      end
  end.

(** The [results] dict of [check_connectivity_and_price_visibility]; the
    key ['home_page_size'] is set only when the home page answered. *)
Record conn_results := mkResults {
  connected : bool;
  prices : gmap string string;
  errors : list string;
  home_page_size : option Z
}.

(** The entry [results['prices'][url]] for a browsed page of that text. *)
Definition price_label (text : string) : string :=
  if Py.contains "price" (Py.lower text) then "Price found" else "No price found".

(** [check_connectivity_and_price_visibility(base_url, product_urls, ...)]:
    [home] is what the GET of [base_url] gives and [home_status] its
    status code, [products] the iterations over [product_urls]. The result
    is [inr results] for the [results] dict returned, [inl e] when the
    browsing raises [e] (the [finally] closes the session and the exception
    propagates). The connectivity request is made with [fast_check=True] and
    the default [add_delays=True]. *)
Definition check_connectivity_and_price_visibility (home : page) (home_status : Z)
    (products : list visit) : list req_event * (string + conn_results) :=
  let '(evs1, out) := perform_request "GET" true true true 0 0 (page_outcome home) in
  let results1 :=
    match out with
    | ROk n => mkResults (Z.eqb home_status 200) ∅ [] (Some n)
    | RRaise e | RValueError e => mkResults false ∅ ["Connectivity error: " ++ e] None
    end in
  if connected results1 then
    let '(evs2, r) := simulate_human_browsing_sequence true products in
    match r with
    | inl e => ((ESetupSession :: evs1 ++ evs2 ++ [EClose])%list, inl e)
    | inr responses =>
        ((ESetupSession :: evs1 ++ evs2 ++ [EClose])%list,
         inr (mkResults (connected results1) (price_label <$> responses)
                (errors results1) (home_page_size results1)))
    end
  else ((ESetupSession :: evs1 ++ [EClose])%list, inr results1).

End Browsing.

(* ------------------------------------------------------------------ *)
(** ** The worker pool: [setup_worker_threads], [check_worker],
       [monitor_progress], [cleanup_workers] *)

(** An item of [proxy_queue]: a proxy or the string ["EXIT"]. *)
Inductive item :=
| ICand (p : Proxy)
| IExit.

(** A [check_worker] thread: blocked in [proxy_queue.get()], running
    [check_proxy(data)], or returned. [sentinels_seen] counts the ["EXIT"]
    items it has taken. *)
Inductive wstate :=
| WWaiting
| WChecking (p : Proxy)
| WExited.

Record worker := mkWorker { wst : wstate; sentinels_seen : nat }.

(** Where the main thread is: in the [while not proxy_queue.empty()] loop
    of [monitor_progress], between that loop and [cleanup_workers]
    ([collect_results], [update_blacklist], [organize_and_save_results],
    none of which touches [proxy_queue]), or past [cleanup_workers]. *)
Inductive main_phase :=
| MMonitor
| MAfterMonitor
| MDone.

Record pool := mkPool {
  proxy_queue : list item;
  workers : list worker;
  callback_queue : list Proxy;
  main : main_phase;
  nworkers : nat
}.

(** [cleanup_workers(proxy_queue, workers)] *)
Definition cleanup_workers (q : list item) (n : nat) : list item :=
  q ++ repeat IExit n.

(** The state once [setup_worker_threads] has enqueued every proxy and
    started [n] threads. *)
Definition pool_init (proxies : list Proxy) (n : nat) : pool :=
  mkPool (map ICand proxies) (repeat (mkWorker WWaiting 0) n) [] MMonitor n.

(** One atomic step of one thread; queue operations are atomic. The
    verdict [b] of [check_proxy] is arbitrary. *)
Inductive pool_step : pool -> pool -> Prop :=
| step_take_cand s i n p q :
    workers s !! i = Some (mkWorker WWaiting n) ->
    proxy_queue s = ICand p :: q ->
    pool_step s (mkPool q (<[i := mkWorker (WChecking p) n]> (workers s))
                   (callback_queue s) (main s) (nworkers s))
| step_take_exit s i n q :
    workers s !! i = Some (mkWorker WWaiting n) ->
    proxy_queue s = IExit :: q ->
    pool_step s (mkPool q (<[i := mkWorker WExited (S n)]> (workers s))
                   (callback_queue s) (main s) (nworkers s))
| step_finish s i n p (b : bool) :
    workers s !! i = Some (mkWorker (WChecking p) n) ->
    pool_step s (mkPool (proxy_queue s) (<[i := mkWorker WWaiting n]> (workers s))
                   (callback_queue s ++ (if b then [p] else [])) (main s) (nworkers s))
| step_monitor_done s :
    main s = MMonitor ->
    proxy_queue s = [] ->
    pool_step s (mkPool (proxy_queue s) (workers s) (callback_queue s) MAfterMonitor (nworkers s))
| step_cleanup s :
    main s = MAfterMonitor ->
    pool_step s (mkPool (cleanup_workers (proxy_queue s) (nworkers s)) (workers s)
                   (callback_queue s) MDone (nworkers s)).

Inductive reachable (s0 : pool) : pool -> Prop :=
| reach_refl : reachable s0 s0
| reach_step s s' : reachable s0 s -> pool_step s s' -> reachable s0 s'.

Definition terminal (s : pool) : Prop := forall s', ~ pool_step s s'.

Definition is_exit (x : item) : bool := match x with IExit => true | ICand _ => false end.

Definition count_exits (q : list item) : nat :=
  foldr (fun x acc => (if is_exit x then 1 else 0) + acc)%nat 0%nat q.

Definition total_seen (ws : list worker) : nat := foldr (fun w acc => sentinels_seen w + acc)%nat 0%nat ws.

Definition is_checking (w : worker) : bool :=
  match wst w with WChecking _ => true | _ => false end.

Definition n_checking (ws : list worker) : nat :=
  foldr (fun w acc => (if is_checking w then 1 else 0) + acc)%nat 0%nat ws.

Definition phase_weight (n : nat) (m : main_phase) : nat :=
  match m with
  | MMonitor => 2 * n + 2
  | MAfterMonitor => 2 * n + 1
  | MDone => 0
  end%nat.

(** A measure that every step decreases. *)
Definition pool_measure (s : pool) : nat :=
  (2 * length (proxy_queue s) + n_checking (workers s) + phase_weight (nworkers s) (main s))%nat.

Definition main_is_done (m : main_phase) : bool :=
  match m with MDone => true | _ => false end.

(** The invariant of the pool: one entry per started thread; a thread has
    taken at most one ["EXIT"], and exactly one once it has returned; the
    ["EXIT"] items taken and still queued are [nworkers] after
    [cleanup_workers] and none before; once [monitor_progress] has
    returned, the queue holds no proxy. *)
Definition pool_inv (s : pool) : Prop :=
  length (workers s) = nworkers s /\
  Forall (fun w => (sentinels_seen w <= 1)%nat /\ (sentinels_seen w = 1%nat <-> wst w = WExited))
    (workers s) /\
  (total_seen (workers s) + count_exits (proxy_queue s)
     = if main_is_done (main s) then nworkers s else 0)%nat /\
  (main s <> MMonitor -> Forall (fun x => is_exit x = true) (proxy_queue s)).

(** The proxies in the hands of the threads: those being checked. *)
Definition checking_proxies (ws : list worker) : list Proxy :=
  omap (fun w => match wst w with WChecking p => Some p | _ => None end) ws.

(** The proxies still queued. *)
Definition queued_proxies (q : list item) : list Proxy :=
  omap (fun x => match x with ICand p => Some p | IExit => None end) q.

(* ------------------------------------------------------------------ *)
(** ** Auxiliary functions of the proofs *)

(** The proxy a [ProxyStats] call is about. *)
Definition call_proxy (c : stat_call) : Proxy :=
  match c with CallSuccess p => p | CallFailure p _ => p end.

(** [not website.startswith("PLACEHOLDER")] *)
Definition not_placeholder (w : string) : bool := negb (Py.startswith w "PLACEHOLDER").

(** The shape of a run of [check_proxy] over [ws] with result [r]: the
    verdict is whether some endpoint passes; each GET is followed by its
    [ProxyStats] call; the calls are failures of [p], then [add_success(p)]
    iff the verdict is [True]; the websites requested are the first
    non-placeholder ones, all of them when the verdict is [False]. *)
Definition check_trace_ok (nw : net) (p : Proxy) (ws : list string) (r : bool * list event) : Prop :=
  fst r = existsb (endpoint_ok nw) ws /\
  snd r = flat_map (fun wc => [EvGet wc.1; EvStat wc.2]) (combine (gets (snd r)) (stat_calls (snd r))) /\
  length (gets (snd r)) = length (stat_calls (snd r)) /\
  (exists fs, stat_calls (snd r) = (fs ++ (if fst r then [CallSuccess p] else []))%list /\
              Forall (fun c => is_failure_call c = true /\ call_proxy c = p) fs) /\
  gets (snd r) `prefix_of` List.filter not_placeholder ws /\
  (fst r = false -> gets (snd r) = List.filter not_placeholder ws).

(** Every proxy of [proxies] is, at most once, in the callback queue,
    being checked by a thread, or still queued; the queued ones are the
    last ones of [proxies], in order. *)
Definition pool_accounting (proxies : list Proxy) (s : pool) : Prop :=
  (callback_queue s ++ checking_proxies (workers s) ++ queued_proxies (proxy_queue s))%list ⊆+ proxies /\
  queued_proxies (proxy_queue s) `suffix_of` proxies.

(** [lstrip] on the list of characters of a string. *)
Fixpoint lstrip_l (l : list ascii) : list ascii :=
  match l with
  | [] => []
  | c :: l' => if Py.is_space c then lstrip_l l' else l
  end.

(** The list does not start with whitespace. *)
Definition good_head (l : list ascii) : bool :=
  match l with [] => true | c :: _ => negb (Py.is_space c) end.

(** The addresses of the working proxies of protocol [proto], in order. *)
Definition addresses_of (checked_proxies : list Proxy) (proto : string) : list string :=
  map address (filter (fun p => protocol p = proto) checked_proxies).

(** A README line that is neither the insertion marker line nor a
    [## Recent Results] heading. *)
Definition readme_line_ok (x : string) : bool :=
  negb (Py.contains README_MARKER x) && negb (String.eqb (Py.strip x) RESULTS_HEADING).

(** A line of the results section body: as above, and without a newline. *)
Definition readme_body_ok (x : string) : bool :=
  readme_line_ok x && negb (Py.contains newline x).

(** Whether a page answered. *)
Definition page_ok (p : Browsing.page) : bool :=
  match p with Browsing.PText _ => true | Browsing.PRaise _ => false end.

(** The texts received for [u], in the order of the visits. *)
Definition texts_for (u : string) (vs : list Browsing.visit) : list string :=
  omap (fun v => if String.eqb (Browsing.v_url v) u
                 then match Browsing.v_page v with Browsing.PText t => Some t | Browsing.PRaise _ => None end
                 else None) vs.

(** The total of a list of durations. *)
Definition sum_Q (l : list Q) : Q := fold_right Qplus 0%Q l.

(** A dollar amount as a product page shows it: ["$"], the integer part
    [ipc] (digits and thousands commas), then optionally ["."] and the
    fraction digits. *)
Definition price_display (ipc : string) (fp : option string) : string :=
  "$" ++ ipc ++ match fp with None => "" | Some f => "." ++ f end.

(** The decimal value of the integer digits [ds] and fraction digits. *)
Definition decimal_value (ds : string) (fp : option string) : Q :=
  match fp with
  | None => inject_Z (digits_value 0 ds)
  | Some f => inject_Z (digits_value 0 ds)
              + inject_Z (digits_value 0 f) / inject_Z (10 ^ Z.of_nat (String.length f))
  end.

(* ================================================================== *)
(** * Theorems *)

(* ------------------------------------------------------------------ *)
(** ** Binary64 rounding is monotone *)

Module F64Facts.

Import F64.
Local Open Scope Q_scope.

Lemma pow2_pos e : 0 < pow2 e.
Proof. apply Qpower_0_lt. reflexivity. Qed.

Lemma pow2_add a b : pow2 (a + b) == pow2 a * pow2 b.
Proof. apply Qpower_plus. discriminate. Qed.

Lemma pow2_le a b : (a <= b)%Z -> pow2 a <= pow2 b.
Proof. intros H. apply Qpower_le_compat_l; [exact H | discriminate]. Qed.

Lemma pow2_lt_inv a b : pow2 a < pow2 b -> (a < b)%Z.
Proof. intros H. apply (Qpower_lt_compat_l_inv (2 # 1)); [exact H | reflexivity]. Qed.

Lemma pow2_Z k : (0 <= k)%Z -> pow2 k == inject_Z (2 ^ k).
Proof. intros H. unfold pow2. rewrite Zpower_Qpower by exact H. reflexivity. Qed.

Lemma div_lt_cross x y u v : 0 < y -> 0 < v -> x * v < u * y -> x / y < u / v.
Proof.
  intros Hy Hv H. apply Qlt_shift_div_l; [exact Hv|].
  setoid_replace (x / y * v) with ((x * v) / y) using relation Qeq by (field; intros E; rewrite E in Hy; discriminate).
  apply Qlt_shift_div_r; [exact Hy | exact H].
Qed.

Lemma floor_ge (a : Z) x : inject_Z a <= x -> (a <= Qfloor x)%Z.
Proof. intros H. rewrite <- (Qfloor_Z a). apply Qfloor_resp_le, H. Qed.

Lemma rhe_cases x :
  round_half_even x = Qfloor x \/
  (round_half_even x = (Qfloor x + 1)%Z /\ 1 # 2 <= x - inject_Z (Qfloor x)).
Proof.
  unfold round_half_even.
  destruct (Qcompare (x - inject_Z (Qfloor x)) (1 # 2)) eqn:E.
  - apply Qeq_alt in E. destruct (Z.even (Qfloor x)); [left; reflexivity|].
    right. split; [reflexivity|]. rewrite E. apply Qle_refl.
  - left; reflexivity.
  - right. split; [reflexivity|]. apply Qgt_alt in E. apply Qlt_le_weak, E.
Qed.

Lemma rhe_lower (a : Z) x : inject_Z a <= x -> (a <= round_half_even x)%Z.
Proof.
  intros H. pose proof (floor_ge a x H).
  destruct (rhe_cases x) as [-> | [-> _]]; lia.
Qed.

Lemma rhe_upper (b : Z) x : x <= inject_Z b -> (round_half_even x <= b)%Z.
Proof.
  intros H. destruct (rhe_cases x) as [-> | [-> Hr]].
  - pose proof (Qfloor_le x). rewrite Zle_Qle. eapply Qle_trans; eassumption.
  - assert (inject_Z (Qfloor x) < inject_Z b) as Hlt by lra.
    rewrite <- Zlt_Qlt in Hlt. lia.
Qed.

Lemma rhe_mono x y : x <= y -> (round_half_even x <= round_half_even y)%Z.
Proof.
  intros H. pose proof (Qfloor_resp_le x y H) as Hf.
  destruct (Z.eq_dec (Qfloor x) (Qfloor y)) as [E|Ne].
  - unfold round_half_even. rewrite E.
    set (f := Qfloor y) in *.
    assert (Hr : x - inject_Z f <= y - inject_Z f) by lra.
    destruct (Qcompare (x - inject_Z f) (1 # 2)) eqn:Ex;
    destruct (Qcompare (y - inject_Z f) (1 # 2)) eqn:Ey;
    try (destruct (Z.even f)); try lia;
    repeat match goal with
           | E : (_ ?= _) = Eq |- _ => apply Qeq_alt in E
           | E : (_ ?= _) = Lt |- _ => apply Qlt_alt in E
           | E : (_ ?= _) = Gt |- _ => apply Qgt_alt in E
           end; lra.
  - assert (Hlt : (Qfloor x < Qfloor y)%Z) by lia.
    destruct (rhe_cases x) as [-> | [-> _]]; destruct (rhe_cases y) as [-> | [-> _]]; lia.
Qed.

Lemma pow2_sub_div a b : pow2 (a - b) == pow2 a / pow2 b.
Proof.
  unfold Z.sub. rewrite pow2_add. unfold pow2 at 2. rewrite Qpower_opp. reflexivity.
Qed.

Lemma Zmul_Qlt x y u v : (x * y < u * v)%Z -> inject_Z x * inject_Z y < inject_Z u * inject_Z v.
Proof. intros H. rewrite <- !inject_Z_mult, <- Zlt_Qlt. exact H. Qed.

Lemma inject_Z_pos (x : Z) : (0 < x)%Z -> 0 < inject_Z x.
Proof. intros H. change 0 with (inject_Z 0). rewrite <- Zlt_Qlt. exact H. Qed.

Lemma exp_unbounded_spec q :
  0 < q -> pow2 (exp_unbounded q + 52) <= q /\ q < pow2 (exp_unbounded q + 53).
Proof.
  intros Hq. destruct q as [n d].
  assert (Hn : (0 < n)%Z) by (unfold Qlt in Hq; cbn in Hq; lia).
  pose proof (Z.log2_spec n Hn) as [Hn1 Hn2].
  pose proof (Z.log2_spec (Zpos d) eq_refl) as [Hd1 Hd2].
  pose proof (Z.log2_nonneg n) as Ha. pose proof (Z.log2_nonneg (Zpos d)) as Hb.
  set (a := Z.log2 n) in *. set (b := Z.log2 (Zpos d)) in *.
  rewrite Z.pow_succ_r in Hn2, Hd2 by assumption.
  assert (Hpa : (0 < 2 ^ a)%Z) by (apply Z.pow_pos_nonneg; lia).
  assert (Hpb : (0 < 2 ^ b)%Z) by (apply Z.pow_pos_nonneg; lia).
  assert (Hlo : pow2 (a - b - 1) < n # d).
  { replace (a - b - 1)%Z with (a - (b + 1))%Z by lia.
    rewrite pow2_sub_div, !pow2_Z by lia. rewrite Qmake_Qdiv.
    apply div_lt_cross; [apply inject_Z_pos; apply Z.pow_pos_nonneg; lia | apply inject_Z_pos; lia |].
    apply Zmul_Qlt. rewrite Z.pow_add_r by lia. nia. }
  assert (Hhi : n # d < pow2 (a - b + 1)).
  { replace (a - b + 1)%Z with ((a + 1) - b)%Z by lia.
    rewrite pow2_sub_div, !pow2_Z by lia. rewrite Qmake_Qdiv.
    apply div_lt_cross; [apply inject_Z_pos; lia | apply inject_Z_pos; exact Hpb |].
    apply Zmul_Qlt. rewrite Z.pow_add_r by lia. nia. }
  unfold exp_unbounded. cbn [Qnum Qden]. fold a b.
  destruct (Qle_bool (pow2 (a - b - 52 + 52)) (n # d)) eqn:E.
  - apply Qle_bool_imp_le in E. split; [exact E|].
    replace (a - b - 52 + 53)%Z with (a - b + 1)%Z by lia. exact Hhi.
  - assert (E' : n # d < pow2 (a - b - 52 + 52)).
    { apply Qnot_le_lt. intros H. apply Qle_bool_iff in H. congruence. }
    split.
    + replace (a - b - 52 - 1 + 52)%Z with (a - b - 1)%Z by lia. apply Qlt_le_weak, Hlo.
    + replace (a - b - 52 - 1 + 53)%Z with (a - b - 52 + 52)%Z by lia. exact E'.
Qed.

Lemma ulp_exp_mono q1 q2 : 0 < q1 -> q1 <= q2 -> (ulp_exp q1 <= ulp_exp q2)%Z.
Proof.
  intros H1 H12.
  destruct (exp_unbounded_spec q1 H1) as [L1 _].
  destruct (exp_unbounded_spec q2 ltac:(lra)) as [_ U2].
  assert (pow2 (exp_unbounded q1 + 52) < pow2 (exp_unbounded q2 + 53)) as H by lra.
  apply pow2_lt_inv in H. unfold ulp_exp. lia.
Qed.

Lemma pow2_scale k e : (0 <= k)%Z -> inject_Z (2 ^ k) * pow2 e == pow2 (e + k).
Proof. intros Hk. rewrite pow2_add, <- pow2_Z by exact Hk. ring. Qed.

Lemma round_pos_upper q : 0 < q -> round_pos q <= pow2 (ulp_exp q + 53).
Proof.
  intros Hq. destruct (exp_unbounded_spec q Hq) as [_ U].
  set (e := ulp_exp q).
  assert (Hu : pow2 (exp_unbounded q + 53) <= pow2 (e + 53)) by (apply pow2_le; unfold e, ulp_exp; lia).
  pose proof (pow2_pos e) as He.
  assert (Hs : q / pow2 e <= inject_Z (2 ^ 53)).
  { apply Qle_shift_div_r; [exact He|]. rewrite pow2_scale by lia. lra. }
  apply rhe_upper in Hs. unfold round_pos. fold e.
  rewrite <- pow2_scale by lia. apply Qmult_le_compat_r; [|lra].
  rewrite <- Zle_Qle. exact Hs.
Qed.

Lemma round_pos_lower q : 0 < q -> ulp_exp q = exp_unbounded q -> pow2 (ulp_exp q + 52) <= round_pos q.
Proof.
  intros Hq Hn. destruct (exp_unbounded_spec q Hq) as [L _]. rewrite <- Hn in L.
  set (e := ulp_exp q) in *.
  pose proof (pow2_pos e) as He.
  assert (Hs : inject_Z (2 ^ 52) <= q / pow2 e).
  { apply Qle_shift_div_l; [exact He|]. rewrite pow2_scale by lia. exact L. }
  apply rhe_lower in Hs. unfold round_pos. fold e.
  rewrite <- pow2_scale by lia. apply Qmult_le_compat_r; [|lra].
  rewrite <- Zle_Qle. exact Hs.
Qed.

Lemma round_pos_nonneg q : 0 < q -> 0 <= round_pos q.
Proof.
  intros Hq. unfold round_pos. pose proof (pow2_pos (ulp_exp q)) as He.
  assert (Hs : inject_Z 0 <= q / pow2 (ulp_exp q)).
  { apply Qle_shift_div_l; [exact He|]. change (inject_Z 0) with 0. lra. }
  apply rhe_lower in Hs. apply Qmult_le_0_compat; [|lra].
  change 0 with (inject_Z 0). rewrite <- Zle_Qle. exact Hs.
Qed.

Lemma round_pos_mono q1 q2 : 0 < q1 -> q1 <= q2 -> round_pos q1 <= round_pos q2.
Proof.
  intros H1 H12. pose proof (ulp_exp_mono q1 q2 H1 H12) as Hle.
  destruct (Z.eq_dec (ulp_exp q1) (ulp_exp q2)) as [E|Ne].
  - unfold round_pos. rewrite E. set (e := ulp_exp q2).
    pose proof (pow2_pos e) as He.
    apply Qmult_le_compat_r; [|lra]. rewrite <- Zle_Qle. apply rhe_mono.
    apply Qmult_le_compat_r; [exact H12|]. apply Qlt_le_weak, Qinv_lt_0_compat, He.
  - assert (E2 : ulp_exp q2 = exp_unbounded q2) by (unfold ulp_exp in *; lia).
    pose proof (round_pos_upper q1 H1) as U.
    pose proof (round_pos_lower q2 ltac:(lra) E2) as L.
    pose proof (pow2_le (ulp_exp q1 + 53) (ulp_exp q2 + 52) ltac:(lia)).
    lra.
Qed.

Lemma Qred_pos q : 0 < q -> (Qred q ?= 0) = Gt.
Proof. intros H. apply Qgt_alt. rewrite Qred_correct. exact H. Qed.

Lemma round64_pos q : 0 < q -> round64 q == round_pos (Qred q).
Proof. intros H. unfold round64. cbv zeta. rewrite Qred_pos by exact H. apply Qred_correct. Qed.

Lemma round64_zero q : q == 0 -> round64 q == 0.
Proof.
  intros H. unfold round64. cbv zeta.
  rewrite (Qred_complete q 0 H). reflexivity.
Qed.

Lemma round64_nonneg q : 0 <= q -> 0 <= round64 q.
Proof.
  intros H. destruct (Qeq_dec q 0) as [E|Ne].
  - rewrite round64_zero by exact E. lra.
  - rewrite round64_pos by lra. apply round_pos_nonneg. rewrite Qred_correct. lra.
Qed.

Lemma round64_mono q1 q2 : 0 <= q1 -> q1 <= q2 -> round64 q1 <= round64 q2.
Proof.
  intros H1 H12. destruct (Qeq_dec q1 0) as [E|Ne].
  - rewrite round64_zero by exact E. apply round64_nonneg. lra.
  - rewrite !round64_pos by lra. apply round_pos_mono; rewrite !Qred_correct; lra.
Qed.

Lemma round64_small : round64 0 = 0 /\ round64 1 = 1 /\ round64 2 = 2 /\ round64 3 = 3.
Proof. vm_compute. repeat split. Qed.


(** Rounding, hence [float()], depends on the value only. *)
Lemma round64_Qeq q1 q2 : q1 == q2 -> round64 q1 = round64 q2.
Proof. intros H. unfold round64. rewrite (Qred_complete q1 q2 H). reflexivity. Qed.

Lemma of_Q_Qeq q1 q2 : q1 == q2 -> of_Q q1 = of_Q q2.
Proof. intros H. unfold of_Q. rewrite (round64_Qeq q1 q2 H). reflexivity. Qed.

End F64Facts.

(* ------------------------------------------------------------------ *)
(** ** ProxyStats *)

Section MapSums.
Context {A : Type} (g : A -> nat).

Definition msum (m : gmap string A) : nat := map_fold (fun _ x acc => (g x + acc)%nat) 0%nat m.

Lemma msum_insert (m : gmap string A) k v :
  msum (<[k:=v]> m) = (g v + msum (delete k m))%nat.
Proof.
  unfold msum. rewrite <- insert_delete_eq.
  rewrite map_fold_insert_L; [reflexivity | intros; lia | apply lookup_delete_eq].
Qed.

Lemma msum_delete (m : gmap string A) k x :
  m !! k = Some x -> msum m = (g x + msum (delete k m))%nat.
Proof.
  intros Hk. unfold msum.
  rewrite (map_fold_delete_L _ _ k x m); [reflexivity | intros; lia | exact Hk].
Qed.

Lemma msum_insert_fresh (m : gmap string A) k v :
  m !! k = None -> msum (<[k:=v]> m) = (g v + msum m)%nat.
Proof. intros Hk. rewrite msum_insert, delete_id by exact Hk. reflexivity. Qed.

End MapSums.

Lemma sum_checked_msum m : sum_checked m = msum checked m.
Proof. reflexivity. Qed.

Lemma sum_reasons_msum m : sum_reasons m = msum (fun n => n) m.
Proof. reflexivity. Qed.

Lemma alter_alter_some {A} (f h : A -> A) (m : gmap string A) k c :
  m !! k = Some c -> alter f k (alter h k m) = <[k := f (h c)]> m.
Proof.
  intros Hk. apply map_eq. intros j.
  destruct (decide (k = j)) as [<-|Hne].
  - by rewrite lookup_alter_eq, lookup_alter_eq, lookup_insert_eq, Hk.
  - by rewrite lookup_alter_ne, lookup_alter_ne, lookup_insert_ne.
Qed.

Lemma alter_some {A} (f : A -> A) (m : gmap string A) k c :
  m !! k = Some c -> alter f k m = <[k := f c]> m.
Proof.
  intros Hk. apply map_eq. intros j.
  destruct (decide (k = j)) as [<-|Hne].
  - by rewrite lookup_alter_eq, lookup_insert_eq, Hk.
  - by rewrite lookup_alter_ne, lookup_insert_ne.
Qed.

(** The statistics invariant, with [r] failure calls so far. *)
Definition stats_inv (st : ProxyStats) (r : nat) : Prop :=
  map_Forall (fun _ c => checked c = (working c + failed c)%nat) (by_protocol st) /\
  total_checked st = sum_checked (by_protocol st) /\
  sum_reasons (failure_reasons st) = r.

Lemma init_protocol_inv st proto r :
  stats_inv st r ->
  stats_inv (init_protocol st proto) r /\
  total_checked (init_protocol st proto) = total_checked st /\
  failure_reasons (init_protocol st proto) = failure_reasons st /\
  exists c, by_protocol (init_protocol st proto) !! proto = Some c.
Proof.
  intros (Hf & Ht & Hr). unfold init_protocol.
  destruct (by_protocol st !! proto) as [c|] eqn:Hk.
  - repeat split; eauto.
  - split; [split; [|split] | split; [reflexivity | split; [reflexivity|]]].
    + apply map_Forall_insert_2; [cbn; lia | exact Hf].
    + simpl. rewrite Ht. change (sum_checked ?m) with (msum checked m). rewrite msum_insert_fresh by exact Hk. reflexivity.
    + exact Hr.
    + eexists. apply lookup_insert_eq.
Qed.

Lemma add_success_inv st p r :
  stats_inv st r -> stats_inv (add_success st p) r.
Proof.
  intros Hinv. unfold add_success.
  destruct (init_protocol_inv st (protocol p) r Hinv) as ((Hf & Ht & Hr) & _ & _ & c & Hc).
  set (st1 := init_protocol st (protocol p)) in *.
  rewrite (alter_alter_some _ _ _ _ c Hc). split; [|split]; cbn [by_protocol total_checked failure_reasons].
  - apply map_Forall_insert_2; [| exact Hf].
    specialize (Hf _ _ Hc). cbn in Hf |- *. lia.
  - rewrite Ht. change (sum_checked ?m) with (msum checked m).
    rewrite msum_insert, (msum_delete _ _ _ _ Hc). cbn. lia.
  - exact Hr.
Qed.

Lemma add_failure_inv st p reason r :
  stats_inv st r -> stats_inv (add_failure st p reason) (S r).
Proof.
  intros Hinv. unfold add_failure.
  destruct (init_protocol_inv st (protocol p) r Hinv) as ((Hf & Ht & Hr) & _ & _ & c & Hc).
  set (st1 := init_protocol st (protocol p)) in *.
  rewrite (alter_alter_some _ _ _ _ c Hc). split; [|split]; cbn [by_protocol total_checked failure_reasons].
  - apply map_Forall_insert_2; [| exact Hf].
    specialize (Hf _ _ Hc). cbn in Hf |- *. lia.
  - rewrite Ht. change (sum_checked ?m) with (msum checked m).
    rewrite msum_insert, (msum_delete _ _ _ _ Hc). cbn. lia.
  - change (sum_reasons ?m) with (msum (fun n => n) m) in Hr |- *.
    destruct (failure_reasons st1 !! reason) as [n|] eqn:Hn.
    + rewrite (alter_some _ _ _ _ Hn), msum_insert, <- Hr, (msum_delete _ _ _ _ Hn). lia.
    + rewrite (alter_some _ _ _ 0%nat) by apply lookup_insert_eq.
      rewrite msum_insert, delete_insert_eq, delete_id by exact Hn. rewrite <- Hr. lia.
Qed.

Lemma run_calls_inv cs st r :
  stats_inv st r ->
  stats_inv (run_calls st cs) (r + length (filter (fun c => is_failure_call c = true) cs)).
Proof.
  revert st r. induction cs as [|c cs IH]; intros st r Hinv.
  - cbn. rewrite Nat.add_0_r. exact Hinv.
  - destruct c as [p|p reason].
    + change (run_calls st (CallSuccess p :: cs)) with (run_calls (add_success st p) cs).
      rewrite filter_cons_False by (cbn; congruence).
      apply IH, add_success_inv, Hinv.
    + change (run_calls st (CallFailure p reason :: cs))
        with (run_calls (add_failure st p reason) cs).
      rewrite filter_cons_True by reflexivity. cbn [length].
      replace (r + S _)%nat with (S r + length (filter (fun c => is_failure_call c = true) cs))%nat by lia.
      apply IH, add_failure_inv, Hinv.
Qed.

(** C10. For every sequence of [add_success]/[add_failure] calls on a
    fresh [ProxyStats]: every protocol entry has checked = working +
    failed, [total_checked] is the sum of the per-protocol checked counts,
    and the failure-reason counts sum to the number of [add_failure]
    calls. *)
Theorem proxy_stats_invariant (cs : list stat_call) :
  let st := run_calls ProxyStats_new cs in
  map_Forall (fun _ c => checked c = (working c + failed c)%nat) (by_protocol st) /\
  total_checked st = sum_checked (by_protocol st) /\
  sum_reasons (failure_reasons st) = length (filter (fun c => is_failure_call c = true) cs).
Proof.
  cbn zeta. apply (run_calls_inv cs ProxyStats_new 0%nat).
  split; [apply map_Forall_empty | split; reflexivity].
Qed.

(* ------------------------------------------------------------------ *)
(** ** check_proxy *)

(** C1. One proxy that answers HTTP 503 on every test website gets five
    [add_failure] calls in a single [check_proxy] run, so [ProxyStats]
    counts it as five checked proxies. *)
Theorem check_proxy_records_per_endpoint :
  let p := mkProxy "http" "1.2.3.4:8080" "1.2.3.4" 8080 "http://1.2.3.4:8080" in
  let nw := mkNet (fun _ => RResp 503 "Service Unavailable") (fun _ => false) in
  Proxy_init "http" "1.2.3.4:8080" = inr p /\
  check_proxy nw p =
    (false, flat_map (fun w => [EvGet w; EvStat (CallFailure p "HTTP 503")]) TEST_WEBSITES) /\
  length (stat_calls (snd (check_proxy nw p))) = 5%nat /\
  total_checked (run_calls ProxyStats_new (stat_calls (snd (check_proxy nw p)))) = 5%nat.
Proof. vm_compute. repeat split; reflexivity. Qed.

Lemma sublist_nil_any {A} (l : list A) : [] `sublist_of` l.
Proof. induction l; constructor; auto. Qed.

Lemma check_loop_short_circuit nw p pre w post :
  endpoint_ok nw w = true ->
  fst (check_loop nw p (pre ++ w :: post)%list) = true /\
  gets (snd (check_loop nw p (pre ++ w :: post)%list)) `sublist_of` (pre ++ [w])%list.
Proof.
  intros Hok. induction pre as [|a pre IH].
  - unfold endpoint_ok in Hok. cbn [app check_loop].
    destruct (Py.startswith w "PLACEHOLDER"); [discriminate|].
    destruct (net_get nw w) as [e|code text]; [discriminate|].
    destruct (Z.eqb code 200); [|discriminate].
    cbn in Hok. destruct (Py.contains "amazon" w); cbn in Hok.
    + rewrite Hok. cbn. split; [reflexivity | apply sublist_skip, sublist_nil].
    + cbn. split; [reflexivity | apply sublist_skip, sublist_nil].
  - cbn [app check_loop].
    destruct IH as [IH1 IH2].
    destruct (check_loop nw p (pre ++ w :: post)%list) as [b evs] eqn:E.
    cbn in IH1, IH2. subst b.
    destruct (Py.startswith a "PLACEHOLDER").
    + split; [reflexivity | cbn; apply sublist_cons, IH2].
    + destruct (net_get nw a) as [e|code text].
      * cbn. split; [reflexivity | apply sublist_skip, IH2].
      * destruct (Z.eqb code 200); [destruct (Py.contains "amazon" a); [destruct (net_price_visible nw a)|]|].
        all: cbn; split; try reflexivity.
        all: apply sublist_skip; first [apply IH2 | apply sublist_nil_any].
Qed.

(** C5. If the test of an endpoint [w] passes (not a placeholder, status
    200 and, on an Amazon page, the price is visible), then for any
    endpoints [pre] before it and [post] after it, [check_proxy] returns
    [True] and only endpoints of [pre] and [w] itself are requested, in
    order: none of [post] is attempted. *)
Theorem check_proxy_short_circuit (nw : net) (p : Proxy) (pre : list string) (w : string)
    (post : list string) :
  endpoint_ok nw w = true ->
  fst (check_proxy_on nw p (pre ++ w :: post)%list) = true /\
  gets (snd (check_proxy_on nw p (pre ++ w :: post)%list)) `sublist_of` (pre ++ [w])%list.
Proof. apply check_loop_short_circuit. Qed.

Lemma check_proxy_short_circuit_witness :
  let nw := mkNet (fun _ => RResp 200 "ok") (fun _ => true) in
  endpoint_ok nw "https://www.amazon.ca/dp/B09BZVX3J7" = true /\
  fst (check_proxy_on nw (mkProxy "http" "1.2.3.4:80" "1.2.3.4" 80 "http://1.2.3.4:80")
         ([] ++ "https://www.amazon.ca/dp/B09BZVX3J7" :: ["https://example.org/"])%list) = true /\
  gets (snd (check_proxy_on nw (mkProxy "http" "1.2.3.4:80" "1.2.3.4" 80 "http://1.2.3.4:80")
         ([] ++ "https://www.amazon.ca/dp/B09BZVX3J7" :: ["https://example.org/"])%list))
    `sublist_of` ([] ++ ["https://www.amazon.ca/dp/B09BZVX3J7"])%list.
Proof.
  cbn zeta. split; [vm_compute; reflexivity|].
  apply (check_proxy_short_circuit _ _ [] "https://www.amazon.ca/dp/B09BZVX3J7").
  vm_compute. reflexivity.
Defined.

(* ------------------------------------------------------------------ *)
(** ** collect_results *)

(** C2. [collect_results] returns the drained callback queue as the
    working list, and puts a candidate in [failed_proxies] exactly when its
    link is not among the working proxies' links; so every candidate is
    on exactly one side (by link), the failed list holds only candidates,
    and no failed proxy has a working link. *)
Theorem collect_results_partition (callback : list Proxy) (proxies : list Proxy) :
  let '(checked_proxies, failed_proxies) := collect_results callback proxies in
  checked_proxies = callback /\
  Forall (fun p => (p ∈ failed_proxies) <-> (link p ∉ map link checked_proxies)) proxies /\
  Forall (fun p => ((link p ∈ map link checked_proxies) /\ (p ∉ failed_proxies)) \/
                   ((link p ∉ map link checked_proxies) /\ (p ∈ failed_proxies))) proxies /\
  Forall (fun q => q ∈ proxies /\ link q ∉ map link checked_proxies) failed_proxies.
Proof.
  unfold collect_results. split; [reflexivity|]. split; [|split].
  - apply Forall_forall. intros p Hp. rewrite list_elem_of_filter. tauto.
  - apply Forall_forall. intros p Hp. rewrite list_elem_of_filter.
    destruct (decide (link p ∈ map link callback)); tauto.
  - apply Forall_forall. intros q Hq. rewrite list_elem_of_filter in Hq.
    tauto.
Qed.

(* ------------------------------------------------------------------ *)
(** ** Proxy loading *)

Lemma download_data_files env files proto :
  fst (fst (download_proxy_list env files proto)) = download_data env proto /\
  snd (download_proxy_list env files proto) = snd (download_proxy_list env ∅ proto).
Proof.
  unfold download_data, download_proxy_list.
  destruct (assoc_lookup proto PROXY_SOURCES); [|done].
  destruct (fetch env s) as [[code text]|]; [|done].
  destruct (Z.eqb code 200); done.
Qed.


Lemma list_omap_cons {A B} (f : A -> option B) x l :
  omap f (x :: l) = match f x with Some y => y :: omap f l | None => omap f l end.
Proof. reflexivity. Qed.

Lemma load_lines_spec proto data :
  load_lines proto data =
  match first_some (line_exn proto) data with
  | Some e => inl e
  | None => inr (omap (line_proxy proto) data)
  end.
Proof.
  induction data as [|a data IH]; [reflexivity|].
  cbn [load_lines first_some]. unfold line_exn at 1. rewrite list_omap_cons. unfold line_proxy at 1.
  destruct (is_blank a); [exact IH|].
  destruct (Proxy_init proto a) as [e|p]; [reflexivity|].
  rewrite IH. destruct (first_some (line_exn proto) data); reflexivity.
Qed.

Lemma load_proxies_result env files types :
  fst (fst (load_proxies env files types)) =
  match first_some (fun t => first_some (line_exn t) (download_data env t)) types with
  | Some e => inl e
  | None => inr (flat_map (fun t => omap (line_proxy t) (download_data env t)) types)
  end.
Proof.
  revert files. induction types as [|t ts IH]; intros files; [reflexivity|].
  cbn [load_proxies first_some flat_map].
  destruct (download_data_files env files t) as [Hd _].
  destruct (download_proxy_list env files t) as [[data files1] urls1]. cbn in Hd. subst data.
  rewrite load_lines_spec.
  destruct (first_some (line_exn t) (download_data env t)) as [e|]; [reflexivity|].
  specialize (IH files1).
  destruct (load_proxies env files1 ts) as [[res files2] urls2]. cbn [fst] in IH.
  rewrite IH. destruct (first_some _ ts); reflexivity.
Qed.



Lemma load_proxies_files_irrelevant env types :
  forall files1 files2,
  fst (fst (load_proxies env files1 types)) = fst (fst (load_proxies env files2 types)) /\
  snd (load_proxies env files1 types) = snd (load_proxies env files2 types).
Proof.
  induction types as [|t ts IH]; intros files1 files2; [done|].
  cbn [load_proxies].
  destruct (download_data_files env files1 t) as [Hd1 Hu1].
  destruct (download_data_files env files2 t) as [Hd2 Hu2].
  destruct (download_proxy_list env files1 t) as [[data1 f1] u1].
  destruct (download_proxy_list env files2 t) as [[data2 f2] u2].
  cbn in Hd1, Hd2, Hu1, Hu2. subst data1 data2. rewrite Hu1 in *. subst u2.
  destruct (load_lines t (download_data env t)) as [e|ps]; [done|].
  destruct (IH f1 f2) as [IHr IHu].
  destruct (load_proxies env f1 ts) as [[r1 g1] v1].
  destruct (load_proxies env f2 ts) as [[r2 g2] v2].
  cbn in IHr, IHu. subst r2 v2. destruct r1; done.
Qed.

Lemma download_urls env files proto :
  snd (download_proxy_list env files proto) =
  match assoc_lookup proto PROXY_SOURCES with Some url => [url] | None => [] end.
Proof.
  unfold download_proxy_list.
  destruct (assoc_lookup proto PROXY_SOURCES); [|done].
  destruct (fetch env s) as [[code text]|]; [|done].
  destruct (Z.eqb code 200); done.
Qed.

Lemma load_proxies_urls env types :
  forall files,
  match fst (fst (load_proxies env files types)) with
  | inr _ => snd (load_proxies env files types) = source_urls types
  | inl _ => True
  end.
Proof.
  induction types as [|t ts IH]; intros files; [done|].
  cbn [load_proxies].
  pose proof (download_urls env files t) as Hu.
  destruct (download_proxy_list env files t) as [[data f1] u1]. cbn [snd] in Hu. subst u1.
  destruct (load_lines t data) as [e|ps]; [done|].
  specialize (IH f1).
  destruct (load_proxies env f1 ts) as [[r g] v]. cbn [fst snd] in IH |- *.
  destruct r; [done|]. cbn [fst snd]. subst v.
  change (source_urls (t :: ts)) with
    (match assoc_lookup t PROXY_SOURCES with Some u => u :: source_urls ts | None => source_urls ts end).
  destruct (assoc_lookup t PROXY_SOURCES); reflexivity.
Qed.

Lemma first_some_app {A B} (f : A -> option B) l1 l2 :
  first_some f (l1 ++ l2) = match first_some f l1 with Some y => Some y | None => first_some f l2 end.
Proof.
  induction l1 as [|x l1 IH]; [reflexivity|].
  cbn [app first_some]. destruct (f x); [reflexivity | exact IH].
Qed.

Lemma download_data_fails env t : download_fails env t = true -> download_data env t = [].
Proof.
  unfold download_fails, download_data, download_proxy_list.
  destruct (assoc_lookup t PROXY_SOURCES); [|reflexivity].
  destruct (fetch env s) as [[code text]|]; [|reflexivity].
  destruct (Z.eqb code 200); [discriminate | reflexivity].
Qed.

(** C4 (as the code does it). [load_proxies] always downloads: its result
    and the urls it requests do not depend on the local copies at all
    (neither their presence nor the time of their last refresh), and when
    it returns normally it has requested the source of every requested
    protocol that has one, once each, in order. A failed download (no
    source for the protocol, an exception, or a status other than 200)
    yields no candidates for that protocol: the result is that of the same
    call without the protocol. *)
Theorem load_proxies_always_downloads (env : load_env) (types : list string)
    (files1 files2 : local_copies) :
  fst (fst (load_proxies env files1 types)) = fst (fst (load_proxies env files2 types)) /\
  snd (load_proxies env files1 types) = snd (load_proxies env files2 types) /\
  match fst (fst (load_proxies env files1 types)) with
  | inr _ => snd (load_proxies env files1 types) = source_urls types
  | inl _ => True
  end /\
  (forall pre t post, download_fails env t = true ->
     fst (fst (load_proxies env files1 (pre ++ t :: post)%list))
     = fst (fst (load_proxies env files1 (pre ++ post)%list))).
Proof.
  destruct (load_proxies_files_irrelevant env types files1 files2) as [H1 H2].
  split; [exact H1 | split; [exact H2 | split; [apply load_proxies_urls|]]].
  intros pre t post Ht. rewrite !load_proxies_result, !first_some_app, !flat_map_app.
  cbn [first_some flat_map]. rewrite (download_data_fails env t Ht). reflexivity.
Qed.

Lemma load_proxies_always_downloads_witness :
  let env := mkLoadEnv 0 (fun u => if String.eqb u
               "https://raw.githubusercontent.com/MuRongPIG/Proxy-Master/refs/heads/main/http.txt"
               then Some (200%Z, "1.2.3.4:8080") else Some (404%Z, "5.6.7.8:1080")) in
  download_fails env "socks5" = true /\
  fst (fst (load_proxies env ∅ (["http"] ++ "socks5" :: [])%list))
  = fst (fst (load_proxies env ∅ (["http"] ++ [])%list)).
Proof.
  cbn zeta. split; [vm_compute; reflexivity|].
  apply (load_proxies_always_downloads _ ["http"; "socks5"] ∅ ∅). vm_compute. reflexivity.
Defined.

(** C4 counterexample: the local copy of the http list was refreshed at
    the current minute (age 0, well within 180 minutes) and holds one
    proxy; [load_proxies ["http"]] still requests the http source, and as
    that request fails it returns no candidates instead of the local one. *)
Lemma load_proxies_fresh_copy_counterexample :
  let nl := String "010"%char "" in
  let files : local_copies := <["http" := ("1.2.3.4:8080" ++ nl, 600%Z)]> ∅ in
  let env := mkLoadEnv 600 (fun _ => None) in
  files !! "http" = Some ("1.2.3.4:8080" ++ nl, now_min env) /\
  load_lines "http" (Py.split_on "010"%char (Py.strip_char "010"%char ("1.2.3.4:8080" ++ nl)))
    = inr [mkProxy "http" "1.2.3.4:8080" "1.2.3.4" 8080 "http://1.2.3.4:8080"] /\
  snd (load_proxies env files ["http"])
    = ["https://raw.githubusercontent.com/MuRongPIG/Proxy-Master/refs/heads/main/http.txt"] /\
  fst (fst (load_proxies env files ["http"])) = inr [].
Proof. vm_compute. repeat split; reflexivity. Qed.

(* ------------------------------------------------------------------ *)
(** ** The blacklist *)

(** C6 (failing input). A proxy whose downloaded line ends in a space is
    loaded with that space in its address. [update_blacklist] writes its
    identity with the space; [load_blacklist] strips every line, so the
    next merge does not find it and appends the same line again: running
    the merge twice leaves a duplicate line that running it once does
    not. *)
Theorem update_blacklist_twice_duplicates :
  let nl := String "010"%char "" in
  let p := mkProxy "http" "1.2.3.4:8080 " "1.2.3.4" 8080 "http://1.2.3.4:8080 " in
  load_lines "http" ["1.2.3.4:8080 "] = inr [p] /\
  update_blacklist [p] None = Some ("http://1.2.3.4:8080 " ++ nl) /\
  update_blacklist [p] (update_blacklist [p] None)
    = Some ("http://1.2.3.4:8080 " ++ nl ++ "http://1.2.3.4:8080 " ++ nl).
Proof. vm_compute. repeat split; reflexivity. Qed.

(* ------------------------------------------------------------------ *)
(** ** The price checker *)

Lemma Qle_bool_and (a b v : Q) :
  Qle_bool a v && Qle_bool v b = true <-> (a <= v /\ v <= b)%Q.
Proof. rewrite andb_true_iff, !Qle_bool_iff. reflexivity. Qed.

Lemma float_range_check (v : F64.float) :
  F64.le (F64.Finite min_price) v && F64.le v (F64.Finite max_price) = true <->
  match v with F64.Finite q => (1 <= q /\ q <= 10000)%Q | F64.Infinity _ => False end.
Proof.
  unfold min_price, max_price.
  destruct v as [q|[]]; cbn [F64.le andb].
  - apply Qle_bool_and.
  - split; [discriminate | tauto].
  - split; [discriminate | tauto].
Qed.

(** C7. The range check of [_parse_price] is inclusive: an element whose
    extracted value is the float [v] yields [v] exactly when
    [1.00 <= v <= 10000.00] and nothing otherwise (an infinity is never in
    range). In particular [$1.00] and [$10,000.00] are accepted, [$0.00]
    and [$10,001.00] (one unit outside) are rejected, also through the
    whole selector loop. [float()] rounds to binary64 before the
    comparison, so a decimal within half a unit in the last place of a
    bound reads as the bound itself: [$10000.0000000000000001] is
    accepted as [10000.0] and [$0.99999999999999999] as [1.0]. *)
Theorem parse_price_range_inclusive :
  (forall text : string,
     match element_value text with
     | Some v =>
         let in_range :=
           match v with F64.Finite q => (1 <= q /\ q <= 10000)%Q | F64.Infinity _ => False end in
         (element_price text = Some v <-> in_range) /\
         (element_price text = None <-> ~ in_range)
     | None => element_price text = None
     end) /\
  element_price "$1.00" = Some (F64.Finite 1) /\
  element_price "$10,000.00" = Some (F64.Finite 10000) /\
  element_price "$0.00" = None /\
  element_price "$10,001.00" = None /\
  parse_price (fun _ => ["$0.00"; "$1.00"]) = Some (F64.Finite 1) /\
  parse_price (fun _ => ["$10,001.00"; "$10,000.00"]) = Some (F64.Finite 10000) /\
  parse_price (fun _ => ["$0.00"; "$10,001.00"]) = None /\
  element_price "$10000.0000000000000001" = Some (F64.Finite 10000) /\
  element_price "$0.99999999999999999" = Some (F64.Finite 1).
Proof.
  split.
  - intros text. unfold element_price, element_value.
    destruct (price_regex_group1 _) as [g|]; [|reflexivity].
    destruct (py_float _) as [v|]; [|reflexivity]. cbn zeta.
    destruct (F64.le (F64.Finite min_price) v && F64.le v (F64.Finite max_price)) eqn:E.
    + apply float_range_check in E. split; split; intros H; try congruence; tauto.
    + assert (~ match v with F64.Finite q => (1 <= q /\ q <= 10000)%Q | F64.Infinity _ => False end)
        as Hn by (rewrite <- float_range_check; congruence).
      split; split; intros H; try congruence; tauto.
  - vm_compute. repeat split; reflexivity.
Qed.

(** C8. If the page text ([soup.get_text()]) contains one of the
    unavailability phrases after lower-casing, [is_price_visible] returns
    [False], whatever the status code and whatever the price selectors
    find. *)
Theorem unavailable_page_not_visible (code : Z) (html : string)
    (get_text : string -> string) (select : string -> string -> list string) :
  existsb (fun pattern => Py.contains pattern (Py.lower (get_text html))) unavailable_patterns = true ->
  is_price_visible (RResp code html) get_text select = false.
Proof.
  intros Hun. unfold is_price_visible, check_availability.
  rewrite Hun. cbn [negb].
  destruct (negb (Z.eqb code 200)); [reflexivity|].
  destruct (Py.contains "captcha" (Py.lower html) || Py.contains "robot check" (Py.lower html));
    reflexivity.
Qed.

Lemma unavailable_page_not_visible_witness :
  existsb (fun pattern => Py.contains pattern (Py.lower (id "Echo Dot: Currently Unavailable.")))
    unavailable_patterns = true /\
  parse_price ((fun _ _ => ["$19.99"]) "Echo Dot: Currently Unavailable.")
    = Some (F64.of_Q (1999 # 100)) /\
  is_price_visible (RResp 200 "Echo Dot: Currently Unavailable.") id (fun _ _ => ["$19.99"]) = false.
Proof.
  split; [vm_compute; reflexivity|]. split; [vm_compute; reflexivity|].
  apply unavailable_page_not_visible. vm_compute. reflexivity.
Defined.

(* ------------------------------------------------------------------ *)
(** ** The worker pool *)

Lemma wsum_insert (f : worker -> nat) (ws : list worker) i w w' :
  ws !! i = Some w ->
  (foldr (fun x acc => f x + acc) 0 (<[i:=w']> ws) + f w
   = foldr (fun x acc => f x + acc) 0 ws + f w')%nat.
Proof.
  revert i. induction ws as [|y ws IH]; intros [|i] H; cbn in H; try discriminate.
  - injection H as ->. change (<[0:=w']> (w :: ws)) with (w' :: ws). cbn [foldr]. lia.
  - change (<[S i:=w']> (y :: ws)) with (y :: <[i:=w']> ws). cbn [foldr].
    specialize (IH i H). lia.
Qed.

Lemma count_exits_app q1 q2 :
  count_exits (q1 ++ q2) = (count_exits q1 + count_exits q2)%nat.
Proof. induction q1 as [|x q1 IH]; cbn; [reflexivity|]. unfold count_exits in *. lia. Qed.

Lemma count_exits_repeat n : count_exits (repeat IExit n) = n.
Proof. induction n as [|n IH]; cbn; [reflexivity|]. unfold count_exits in IH. lia. Qed.

Lemma Forall_repeat_item n : Forall (fun x => is_exit x = true) (repeat IExit n).
Proof. induction n; constructor; auto. Qed.

Lemma total_seen_lt ws w :
  Forall (fun w => (sentinels_seen w <= 1)%nat) ws -> w ∈ ws -> sentinels_seen w = 0%nat ->
  (total_seen ws < length ws)%nat.
Proof.
  intros Hf Hin H0. induction ws as [|y ws IH]; [inversion Hin|].
  apply Forall_cons in Hf as [Hy Hf]. cbn.
  apply elem_of_cons in Hin as [->|Hin].
  - assert (total_seen ws <= length ws)%nat.
    { clear IH. induction ws as [|z ws IHz]; cbn; [lia|].
      apply Forall_cons in Hf as [Hz Hf]. specialize (IHz Hf). unfold total_seen, count_exits in *. lia. }
    unfold total_seen, count_exits in *. lia.
  - specialize (IH Hf Hin). unfold total_seen, count_exits in *. lia.
Qed.

Lemma pool_inv_init proxies n : pool_inv (pool_init proxies n).
Proof.
  unfold pool_inv, pool_init. cbn [workers proxy_queue main nworkers].
  split; [apply repeat_length|]. split; [|split].
  - induction n; constructor; cbn; auto. split; [lia|]. split; [lia|discriminate].
  - assert (total_seen (repeat (mkWorker WWaiting 0) n) = 0%nat) as ->.
    { induction n; cbn; auto. }
    induction proxies; cbn; auto.
  - congruence.
Qed.

Lemma pool_step_inv s s' : pool_inv s -> pool_step s s' -> pool_inv s'.
Proof.
  intros (Hlen & Hf & Hcnt & Hq) Hstep.
  destruct Hstep as [s i n p q Hi Hqe|s i n q Hi Hqe|s i n p b Hi|s Hm Hqe|s Hm];
    unfold pool_inv; cbn [workers proxy_queue main nworkers].
  - pose proof (Forall_lookup_1 _ _ _ _ Hf Hi) as [Hle Hiff]. cbn in Hle, Hiff.
    split; [rewrite length_insert; exact Hlen|]. split; [|split].
    + apply Forall_insert; [exact Hf|]. cbn. split; [exact Hle|].
      split; [intros H; apply Hiff in H; discriminate | discriminate].
    + pose proof (wsum_insert sentinels_seen _ _ _ (mkWorker (WChecking p) n) Hi) as Hs.
      cbn in Hs. rewrite Hqe in Hcnt. cbn in Hcnt. unfold total_seen, count_exits in *. lia.
    + intros Hm. specialize (Hq Hm). rewrite Hqe in Hq.
      apply Forall_cons in Hq as [Hx _]. discriminate.
  - pose proof (Forall_lookup_1 _ _ _ _ Hf Hi) as [Hle Hiff]. cbn in Hle, Hiff.
    assert (n = 0%nat) as ->.
    { destruct (decide (n = 1%nat)) as [E|E]; [apply Hiff in E; discriminate | lia]. }
    split; [rewrite length_insert; exact Hlen|]. split; [|split].
    + apply Forall_insert; [exact Hf|]. cbn. split; [lia|tauto].
    + pose proof (wsum_insert sentinels_seen _ _ _ (mkWorker WExited 1) Hi) as Hs.
      cbn in Hs. rewrite Hqe in Hcnt. cbn in Hcnt. unfold total_seen, count_exits in *. lia.
    + intros Hm. specialize (Hq Hm). rewrite Hqe in Hq.
      apply Forall_cons in Hq as [_ Hq]. exact Hq.
  - pose proof (Forall_lookup_1 _ _ _ _ Hf Hi) as [Hle Hiff]. cbn in Hle, Hiff.
    split; [rewrite length_insert; exact Hlen|]. split; [|split].
    + apply Forall_insert; [exact Hf|]. cbn. split; [exact Hle|].
      split; [intros H; apply Hiff in H; discriminate | discriminate].
    + pose proof (wsum_insert sentinels_seen _ _ _ (mkWorker WWaiting n) Hi) as Hs.
      cbn in Hs. unfold total_seen, count_exits in *. lia.
    + exact Hq.
  - rewrite Hm in Hcnt. cbn in Hcnt.
    split; [exact Hlen|]. split; [exact Hf|]. split; [exact Hcnt|].
    intros _. rewrite Hqe. constructor.
  - rewrite Hm in Hcnt. cbn in Hcnt. specialize (Hq ltac:(congruence)).
    split; [exact Hlen|]. split; [exact Hf|]. split.
    + unfold cleanup_workers. rewrite count_exits_app, count_exits_repeat.
      cbn. assert (count_exits (proxy_queue s) = 0%nat) as Hz by lia.
      unfold total_seen, count_exits in *. lia.
    + intros _. unfold cleanup_workers. apply Forall_app. split; [exact Hq|apply Forall_repeat_item].
Qed.

Lemma reachable_inv proxies n s : reachable (pool_init proxies n) s -> pool_inv s.
Proof.
  induction 1 as [|s s' _ IH Hstep]; [apply pool_inv_init|].
  exact (pool_step_inv s s' IH Hstep).
Qed.

Lemma reachable_nworkers proxies n s : reachable (pool_init proxies n) s -> nworkers s = n.
Proof. induction 1 as [|s s' _ IH Hstep]; [reflexivity|]. destruct Hstep; exact IH. Qed.

Lemma terminal_all_exited s :
  pool_inv s -> terminal s ->
  Forall (fun w => wst w = WExited /\ sentinels_seen w = 1%nat) (workers s).
Proof.
  intros (Hlen & Hf & Hcnt & Hq) Ht.
  apply Forall_lookup_2. intros i w Hi.
  pose proof (Forall_lookup_1 _ _ _ _ Hf Hi) as [Hle Hiff].
  destruct w as [st n]; cbn in Hle, Hiff |- *.
  destruct st as [|p|].
  - exfalso.
    destruct (proxy_queue s) as [|x q] eqn:Hqe.
    + destruct (main s) eqn:Hm.
      * eapply Ht. apply step_monitor_done; assumption.
      * eapply Ht. apply step_cleanup; assumption.
      * cbn in Hcnt.
        assert (n = 0%nat) as ->.
        { destruct (decide (n = 1%nat)) as [E|E]; [apply Hiff in E; discriminate | lia]. }
        assert (total_seen (workers s) < length (workers s))%nat.
        { eapply total_seen_lt; [| eapply list_elem_of_lookup_2; exact Hi | reflexivity].
          eapply Forall_impl; [exact Hf|]. intros w [Hw _]. exact Hw. }
        lia.
    + destruct x as [p|]; eapply Ht.
      * exact (step_take_cand s i n p q Hi Hqe).
      * exact (step_take_exit s i n q Hi Hqe).
  - exfalso. eapply Ht. exact (step_finish s i n p true Hi).
  - split; [reflexivity | apply Hiff; reflexivity].
Qed.

Lemma pool_measure_decreases s s' : pool_step s s' -> (pool_measure s' < pool_measure s)%nat.
Proof.
  intros Hstep.
  destruct Hstep as [s i n p q Hi Hqe|s i n q Hi Hqe|s i n p b Hi|s Hm Hqe|s Hm];
    unfold pool_measure; cbn [workers proxy_queue main nworkers].
  - pose proof (wsum_insert (fun x => if is_checking x then 1 else 0)%nat _ _ _
                  (mkWorker (WChecking p) n) Hi) as Hs.
    cbn in Hs. rewrite Hqe. cbn [length]. unfold n_checking. lia.
  - pose proof (wsum_insert (fun x => if is_checking x then 1 else 0)%nat _ _ _
                  (mkWorker WExited (S n)) Hi) as Hs.
    cbn in Hs. rewrite Hqe. cbn [length]. unfold n_checking. lia.
  - pose proof (wsum_insert (fun x => if is_checking x then 1 else 0)%nat _ _ _
                  (mkWorker WWaiting n) Hi) as Hs.
    cbn in Hs. unfold n_checking. lia.
  - rewrite Hm. cbn. lia.
  - rewrite Hm. unfold cleanup_workers. rewrite length_app, repeat_length. cbn. lia.
Qed.

(** C9. Along every interleaving of the worker threads and the main
    thread, from [n] threads started on a queue of candidates:
    - [cleanup_workers] appends exactly [n] ["EXIT"] items, and it runs
      only after [monitor_progress] has returned, when no candidate is
      left in the queue;
    - the ["EXIT"] items taken plus those still queued are [n] after
      [cleanup_workers] and none before;
    - a thread takes at most one ["EXIT"], and has taken one exactly when
      it has returned;
    - in a state where no thread can move, there are [n] threads and
      every one has returned after taking exactly one ["EXIT"];
    - every step decreases [pool_measure], so every run ends;
    - [monitor_progress] returns as soon as the queue is empty, whatever
      the threads are doing. *)
Theorem worker_pool_sentinels (proxies : list Proxy) (n : nat) (s : pool) :
  reachable (pool_init proxies n) s ->
  (forall q, count_exits (cleanup_workers q n) = (count_exits q + n)%nat) /\
  (main s <> MMonitor -> Forall (fun x => is_exit x = true) (proxy_queue s)) /\
  (total_seen (workers s) + count_exits (proxy_queue s)
     = if main_is_done (main s) then n else 0)%nat /\
  Forall (fun w => (sentinels_seen w <= 1)%nat /\ (sentinels_seen w = 1%nat <-> wst w = WExited))
    (workers s) /\
  (terminal s -> length (workers s) = n /\
     Forall (fun w => wst w = WExited /\ sentinels_seen w = 1%nat) (workers s)) /\
  (forall s', pool_step s s' -> (pool_measure s' < pool_measure s)%nat) /\
  (proxy_queue s = [] -> main s = MMonitor ->
     pool_step s (mkPool [] (workers s) (callback_queue s) MAfterMonitor (nworkers s))).
Proof.
  intros Hr.
  pose proof (reachable_inv _ _ _ Hr) as Hinv.
  pose proof (reachable_nworkers _ _ _ Hr) as Hn.
  pose proof Hinv as (Hlen & Hf & Hcnt & Hq).
  split; [intros q; unfold cleanup_workers; rewrite count_exits_app, count_exits_repeat; reflexivity|].
  split; [exact Hq|].
  split; [rewrite <- Hn; exact Hcnt|].
  split; [exact Hf|].
  split; [intros Ht; split; [congruence | apply terminal_all_exited; assumption]|].
  split; [apply pool_measure_decreases|].
  intros Hqe Hm. rewrite <- Hqe. apply step_monitor_done; assumption.
Qed.

(** A run with one proxy and one thread: the thread takes the proxy, the
    main thread leaves [monitor_progress] while the thread is still
    checking, enqueues one ["EXIT"], the thread reports the proxy as
    working, takes the ["EXIT"] and returns. *)
Lemma worker_pool_sentinels_witness :
  let p0 := mkProxy "http" "1.2.3.4:80" "1.2.3.4" 80 "http://1.2.3.4:80" in
  let s5 := mkPool [] [mkWorker WExited 1] [p0] MDone 1 in
  reachable (pool_init [p0] 1) s5 /\
  (forall q, count_exits (cleanup_workers q 1) = (count_exits q + 1)%nat) /\
  (main s5 <> MMonitor -> Forall (fun x => is_exit x = true) (proxy_queue s5)) /\
  (total_seen (workers s5) + count_exits (proxy_queue s5)
     = if main_is_done (main s5) then 1%nat else 0%nat)%nat /\
  Forall (fun w => (sentinels_seen w <= 1)%nat /\ (sentinels_seen w = 1%nat <-> wst w = WExited))
    (workers s5) /\
  (terminal s5 -> length (workers s5) = 1%nat /\
     Forall (fun w => wst w = WExited /\ sentinels_seen w = 1%nat) (workers s5)) /\
  (forall s', pool_step s5 s' -> (pool_measure s' < pool_measure s5)%nat) /\
  (proxy_queue s5 = [] -> main s5 = MMonitor ->
     pool_step s5 (mkPool [] (workers s5) (callback_queue s5) MAfterMonitor (nworkers s5))).
Proof.
  cbn zeta.
  set (p0 := mkProxy "http" "1.2.3.4:80" "1.2.3.4" 80 "http://1.2.3.4:80").
  set (s0 := pool_init [p0] 1).
  set (s1 := mkPool [] [mkWorker (WChecking p0) 0] [] MMonitor 1).
  set (s2 := mkPool [] [mkWorker (WChecking p0) 0] [] MAfterMonitor 1).
  set (s3 := mkPool [IExit] [mkWorker (WChecking p0) 0] [] MDone 1).
  set (s4 := mkPool [IExit] [mkWorker WWaiting 0] [p0] MDone 1).
  set (s5 := mkPool [] [mkWorker WExited 1] [p0] MDone 1).
  assert (H1 : reachable s0 s1).
  { eapply reach_step; [apply reach_refl | exact (step_take_cand s0 0 0 p0 [] eq_refl eq_refl)]. }
  assert (H2 : reachable s0 s2).
  { eapply reach_step; [exact H1 | exact (step_monitor_done s1 eq_refl eq_refl)]. }
  assert (H3 : reachable s0 s3).
  { eapply reach_step; [exact H2 | exact (step_cleanup s2 eq_refl)]. }
  assert (H4 : reachable s0 s4).
  { eapply reach_step; [exact H3 | exact (step_finish s3 0 0 p0 true eq_refl)]. }
  assert (H5 : reachable s0 s5).
  { eapply reach_step; [exact H4 | exact (step_take_exit s4 0 0 [] eq_refl eq_refl)]. }
  split; [exact H5|].
  apply (worker_pool_sentinels [p0] 1 s5 H5).
Defined.

(* ================================================================== *)
(** * Further properties of the code *)

(* ------------------------------------------------------------------ *)
(** ** Python string helpers *)

Lemma str_app_nil_r s : s ++ "" = s.
Proof.
  induction s as [|a s IH]; [reflexivity|].
  change (String a s ++ "") with (String a (s ++ "")). rewrite IH. reflexivity.
Qed.

Lemma str_app_assoc a b c : a ++ (b ++ c) = (a ++ b) ++ c.
Proof.
  induction a as [|x a IH]; [reflexivity|].
  change (String x a ++ (b ++ c)) with (String x (a ++ (b ++ c))).
  change (String x a ++ b) with (String x (a ++ b)).
  change (String x (a ++ b) ++ c) with (String x ((a ++ b) ++ c)).
  rewrite IH. reflexivity.
Qed.

Lemma split_on_cons c s : exists f fs, Py.split_on c s = f :: fs.
Proof.
  destruct s as [|d s]; cbn; [eauto|].
  destruct (Ascii.eqb c d); [eauto|].
  destruct (Py.split_on c s); eauto.
Qed.

Lemma split_on_app_sep c s1 s2 :
  Py.split_on c (s1 ++ String c s2) = (Py.split_on c s1 ++ Py.split_on c s2)%list.
Proof.
  induction s1 as [|d s1 IH]; simpl.
  - rewrite Ascii.eqb_refl. reflexivity.
  - rewrite IH. destruct (Ascii.eqb c d); [reflexivity|].
    destruct (split_on_cons c s1) as (f & fs & ->). reflexivity.
Qed.

Lemma split_on_no_sep c s :
  Py.contains (String c EmptyString) s = false -> Py.split_on c s = [s].
Proof.
  induction s as [|d s IH]; cbn; [reflexivity|].
  intros H. apply orb_false_iff in H as [H1 H2].
  rewrite IH by exact H2.
  destruct (Ascii.eqb c d) eqn:E; [|reflexivity].
  apply Ascii.eqb_eq in E. subst d.
  destruct (ascii_dec c c); [destruct s; discriminate | contradiction].
Qed.

Lemma contains_char_cons c d s :
  Py.contains (String c EmptyString) (String d s)
  = Ascii.eqb c d || Py.contains (String c EmptyString) s.
Proof.
  unfold Py.contains at 1; fold Py.contains. f_equal. cbn [String.prefix].
  destruct (Ascii.eqb_spec c d) as [->|Hn].
  - destruct (ascii_dec d d); [destruct s; reflexivity | contradiction].
  - destruct (ascii_dec c d); [contradiction | reflexivity].
Qed.

Lemma contains_char_app c a b :
  Py.contains (String c EmptyString) a = false -> Py.contains (String c EmptyString) b = false ->
  Py.contains (String c EmptyString) (a ++ b) = false.
Proof.
  induction a as [|d a IH]; intros Ha Hb; [exact Hb|].
  rewrite contains_char_cons in Ha. apply orb_false_iff in Ha as [H1 H2].
  change (String d a ++ b) with (String d (a ++ b)). cbn [Py.contains].
  rewrite (IH H2 Hb), orb_false_r. cbn [String.prefix].
  destruct (ascii_dec c d) as [<-|]; [rewrite Ascii.eqb_refl in H1; discriminate | reflexivity].
Qed.

Lemma str_nil_app b : "" ++ b = b.
Proof. reflexivity. Qed.

(** Text with no carriage return reads back unchanged. *)
Lemma translate_newlines_no_cr s :
  Py.contains carriage_return s = false -> Py.translate_newlines false s = s.
Proof.
  unfold carriage_return.
  induction s as [|d s IH]; intros H; [reflexivity|].
  rewrite contains_char_cons in H. apply orb_false_iff in H as [H1 H2].
  cbn [Py.translate_newlines].
  rewrite Ascii.eqb_sym, H1. cbn [andb]. rewrite (IH H2). reflexivity.
Qed.

(** A newline ends the translation of a carriage return. *)
Lemma translate_newlines_app_nl b a d :
  Py.translate_newlines b (a ++ String "010"%char d)
  = Py.translate_newlines b (a ++ newline) ++ Py.translate_newlines false d.
Proof.
  revert b. induction a as [|c a IH]; intros b.
  - destruct b; reflexivity.
  - change (String c a ++ String "010"%char d) with (String c (a ++ String "010"%char d)).
    change (String c a ++ newline) with (String c (a ++ newline)).
    cbn [Py.translate_newlines].
    destruct (Ascii.eqb c "013"%char); [rewrite IH; reflexivity|].
    destruct (b && Ascii.eqb c "010"%char); [apply IH | rewrite IH; reflexivity].
Qed.

Lemma translate_newlines_ends (b : bool) (a : string) :
  exists y, (if b then newline else "") ++ Py.translate_newlines b (a ++ newline) = y ++ newline.
Proof.
  revert b. induction a as [|c a IH]; intros b.
  - destruct b; exists ""; reflexivity.
  - change (String c a ++ newline) with (String c (a ++ newline)).
    cbn [Py.translate_newlines].
    destruct (Ascii.eqb c "013"%char).
    + destruct (IH true) as [y Hy]. exists ((if b then newline else "") ++ y).
      change (String "010"%char (Py.translate_newlines true (a ++ newline)))
        with (newline ++ Py.translate_newlines true (a ++ newline)).
      rewrite Hy, str_app_assoc. reflexivity.
    + destruct (IH false) as [y Hy]. rewrite str_nil_app in Hy.
      destruct (b && Ascii.eqb c "010"%char).
      * exists ((if b then newline else "") ++ y). rewrite Hy, str_app_assoc. reflexivity.
      * exists ((if b then newline else "") ++ String c y). rewrite Hy, <- str_app_assoc.
        reflexivity.
Qed.

Lemma lstrip_l_spec s : list_ascii_of_string (Py.lstrip s) = lstrip_l (list_ascii_of_string s).
Proof. induction s as [|c s IH]; cbn; [reflexivity|]. destruct (Py.is_space c); auto. Qed.

Lemma rev_string_spec s : list_ascii_of_string (Py.rev_string s) = rev (list_ascii_of_string s).
Proof. unfold Py.rev_string. apply list_ascii_of_string_of_list_ascii. Qed.

Lemma strip_spec s :
  list_ascii_of_string (Py.strip s) = rev (lstrip_l (rev (lstrip_l (list_ascii_of_string s)))).
Proof. unfold Py.strip. rewrite rev_string_spec, lstrip_l_spec, rev_string_spec, lstrip_l_spec. reflexivity. Qed.

Lemma lstrip_l_good l : good_head (lstrip_l l) = true.
Proof.
  induction l as [|c l IH]; cbn; [reflexivity|].
  destruct (Py.is_space c) eqn:E; [exact IH|]. cbn. rewrite E. reflexivity.
Qed.

Lemma lstrip_l_id l : good_head l = true -> lstrip_l l = l.
Proof.
  destruct l as [|c l]; cbn; [reflexivity|].
  intros H. destruct (Py.is_space c); [discriminate|reflexivity].
Qed.

Lemma lstrip_l_split l : exists P, l = (P ++ lstrip_l l)%list.
Proof.
  induction l as [|c l IH]; cbn; [exists []; reflexivity|].
  destruct (Py.is_space c).
  - destruct IH as [P HP]. exists (c :: P). cbn. rewrite <- HP. reflexivity.
  - exists []. reflexivity.
Qed.

Lemma strip_l_good M : good_head M = true -> good_head (rev (lstrip_l (rev M))) = true.
Proof.
  intros HM. destruct (lstrip_l_split (rev M)) as [P HP].
  set (N := lstrip_l (rev M)) in *.
  assert (M = rev N ++ rev P)%list as HMN.
  { rewrite <- rev_app_distr, <- HP, rev_involutive. reflexivity. }
  destruct (rev N) as [|c R] eqn:ER; [reflexivity|].
  rewrite HMN in HM. exact HM.
Qed.

(** [s.strip()] is idempotent. *)
Lemma strip_idem s : Py.strip (Py.strip s) = Py.strip s.
Proof.
  assert (E : list_ascii_of_string (Py.strip (Py.strip s)) = list_ascii_of_string (Py.strip s)).
  { rewrite (strip_spec (Py.strip s)), (strip_spec s).
    set (N := lstrip_l (rev (lstrip_l (list_ascii_of_string s)))).
    assert (good_head (rev N) = true) as HN by apply strip_l_good, lstrip_l_good.
    rewrite (lstrip_l_id (rev N)) by exact HN. rewrite rev_involutive.
    rewrite (lstrip_l_id N) by apply lstrip_l_good. reflexivity. }
  rewrite <- (string_of_list_ascii_of_string (Py.strip (Py.strip s))), E.
  apply string_of_list_ascii_of_string.
Qed.

(* ------------------------------------------------------------------ *)
(** ** The blacklist file, read back *)

Lemma set_of_lines_app l1 l2 : set_of_lines (l1 ++ l2) = set_of_lines l1 ∪ set_of_lines l2.
Proof.
  induction l1 as [|l l1 IH]; cbn; [set_solver|].
  destruct (String.eqb (Py.strip l) ""); rewrite IH; set_solver.
Qed.

Lemma set_of_lines_stripped ls x : x ∈ set_of_lines ls -> Py.strip x = x.
Proof.
  induction ls as [|l ls IH]; cbn; [set_solver|].
  destruct (String.eqb (Py.strip l) ""); [exact IH|].
  intros [Hx|Hx]%elem_of_union; [|exact (IH Hx)].
  apply elem_of_singleton in Hx. subst x. apply strip_idem.
Qed.

Lemma ends_with_newline_app c d :
  d <> EmptyString -> ends_with_newline (c ++ d) = ends_with_newline d.
Proof.
  intros Hd. induction c as [|a c IH]; [reflexivity|].
  change (String a c ++ d) with (String a (c ++ d)).
  destruct (c ++ d) as [|b cd] eqn:E.
  - destruct c, d; unfold String.append in E; congruence.
  - exact IH.
Qed.

Lemma ends_with_newline_inv c :
  ends_with_newline c = true -> c = EmptyString \/ exists c', c = c' ++ newline.
Proof.
  induction c as [|a c IH]; [auto|].
  destruct c as [|b c].
  - cbn. intros E. apply Ascii.eqb_eq in E. subst a. right. exists EmptyString. reflexivity.
  - intros E. change (ends_with_newline (String b c) = true) in E.
    destruct (IH E) as [E'|(c' & ->)]; [discriminate|].
    right. exists (String a c'). reflexivity.
Qed.

Lemma identity_ok_split p :
  identity_ok p = true ->
  Py.strip (proxy_str p) = proxy_str p /\ Py.split_on "010"%char (proxy_str p) = [proxy_str p].
Proof.
  unfold identity_ok. rewrite !andb_true_iff, String.eqb_eq, !negb_true_iff.
  intros [[Hs Hn] _]. split; [exact Hs|]. apply split_on_no_sep, Hn.
Qed.

Lemma blacklist_delta_no_cr cur ps :
  Forall (fun p => identity_ok p = true) ps ->
  Py.contains carriage_return (blacklist_delta cur ps) = false.
Proof.
  induction ps as [|p ps IH]; intros Hok; [reflexivity|].
  apply Forall_cons in Hok as [Hp Hok]. cbn [blacklist_delta].
  destruct (decide (proxy_str p ∈ cur)); [exact (IH Hok)|].
  unfold identity_ok in Hp. rewrite !andb_true_iff, !negb_true_iff in Hp.
  destruct Hp as [_ Hc]. unfold carriage_return in *.
  apply contains_char_app; [exact Hc|]. apply contains_char_app; [reflexivity | exact (IH Hok)].
Qed.

(** Reading a file that is empty or ends in a newline, with lines
    appended that contain no carriage return. *)
Lemma universal_newlines_append c d :
  ends_with_newline c = true -> Py.contains carriage_return d = false ->
  Py.universal_newlines (c ++ d) = Py.universal_newlines c ++ d /\
  ends_with_newline (Py.universal_newlines c) = true.
Proof.
  intros Hc Hd. unfold Py.universal_newlines.
  destruct (ends_with_newline_inv c Hc) as [->|(c' & ->)].
  - split; [apply translate_newlines_no_cr, Hd | reflexivity].
  - split.
    + rewrite <- str_app_assoc. change (newline ++ d) with (String "010"%char d).
      rewrite translate_newlines_app_nl, (translate_newlines_no_cr d Hd). reflexivity.
    + destruct (translate_newlines_ends false c') as [y Hy]. rewrite str_nil_app in Hy.
      rewrite Hy. apply ends_with_newline_app. discriminate.
Qed.

Lemma proxy_str_nonempty p : String.eqb (proxy_str p) "" = false.
Proof. unfold proxy_str. destruct (protocol p); reflexivity. Qed.

Lemma blacklist_delta_lines cur ps :
  Forall (fun p => identity_ok p = true) ps ->
  ends_with_newline (blacklist_delta cur ps) = true /\
  forall x, x ∈ set_of_lines (Py.split_on "010"%char (blacklist_delta cur ps))
            <-> x ∈ map proxy_str ps /\ x ∉ cur.
Proof.
  induction ps as [|p ps IH]; intros Hok.
  - split; [reflexivity|]. intros x. cbn. set_solver.
  - apply Forall_cons in Hok as [Hp Hok]. destruct (IH Hok) as [IHe IHs].
    cbn [blacklist_delta].
    destruct (decide (proxy_str p ∈ cur)) as [Hin|Hnin].
    + split; [exact IHe|]. intros x. rewrite IHs. cbn [map]. rewrite elem_of_cons.
      split; [tauto|]. intros [[->|H] Hx]; [contradiction | tauto].
    + destruct (identity_ok_split p Hp) as [Hs Hsp].
      change (String "010"%char "" ++ blacklist_delta cur ps)
        with (String "010"%char (blacklist_delta cur ps)).
      split.
      * rewrite ends_with_newline_app by discriminate.
        revert IHe. destruct (blacklist_delta cur ps); [reflexivity | intros H; exact H].
      * intros x. rewrite split_on_app_sep, set_of_lines_app, Hsp. cbn [set_of_lines].
        rewrite Hs, proxy_str_nonempty, elem_of_union, IHs. cbn [map].
        rewrite elem_of_cons. set_solver.
Qed.

Lemma blacklist_delta_all_in cur ps :
  Forall (fun p => proxy_str p ∈ cur) ps -> blacklist_delta cur ps = "".
Proof.
  induction ps as [|p ps IH]; intros H; [reflexivity|].
  apply Forall_cons in H as [Hp H]. cbn.
  destruct (decide (proxy_str p ∈ cur)); [exact (IH H) | contradiction].
Qed.

Lemma update_blacklist_load failed f :
  blacklist_file_ok f = true ->
  Forall (fun p => identity_ok p = true) failed ->
  blacklist_file_ok (update_blacklist failed f) = true /\
  forall x, x ∈ fst (load_blacklist (update_blacklist failed f))
            <-> x ∈ fst (load_blacklist f) \/ x ∈ map proxy_str failed.
Proof.
  intros Hf Hok.
  assert (Hend : forall c cur, ends_with_newline c = true ->
     ends_with_newline (c ++ blacklist_delta cur failed) = true).
  { intros c cur Hc. destruct (blacklist_delta_lines cur failed Hok) as [He _].
    destruct (blacklist_delta cur failed) eqn:Ed.
    - rewrite str_app_nil_r. exact Hc.
    - rewrite ends_with_newline_app by discriminate. exact He. }
  assert (Hgen : forall c, ends_with_newline c = true ->
     forall x, x ∈ set_of_lines (Py.split_on "010"%char
                   (c ++ blacklist_delta (set_of_lines (Py.split_on "010"%char c)) failed))
               <-> x ∈ set_of_lines (Py.split_on "010"%char c) \/ x ∈ map proxy_str failed).
  { intros c Hc. set (cur := set_of_lines (Py.split_on "010"%char c)).
    destruct (blacklist_delta_lines cur failed Hok) as [_ Hs].
    destruct (ends_with_newline_inv c Hc) as [->|(c' & ->)].
    - cbn [String.append]. intros x. rewrite Hs.
      subst cur. cbn. destruct (decide (x ∈ map proxy_str failed)); set_solver.
    - intros x. unfold newline. rewrite <- str_app_assoc.
      change (String "010"%char "" ++ blacklist_delta cur failed)
        with (String "010"%char (blacklist_delta cur failed)).
      rewrite split_on_app_sep, set_of_lines_app, elem_of_union, Hs.
      assert (Hc' : cur = set_of_lines (Py.split_on "010"%char c')).
      { subst cur. unfold newline. rewrite split_on_app_sep, set_of_lines_app. cbn. set_solver. }
      rewrite Hc'. destruct (decide (x ∈ set_of_lines (Py.split_on "010"%char c'))); tauto. }
  destruct f as [c|]; cbn in Hf |- *.
  - set (cur := set_of_lines (Py.split_on "010"%char (Py.universal_newlines c))).
    destruct (universal_newlines_append c (blacklist_delta cur failed) Hf
                (blacklist_delta_no_cr cur failed Hok)) as [Hu He].
    split; [exact (Hend c cur Hf)|]. rewrite Hu. exact (Hgen _ He).
  - split; [exact (Hend "" ∅ eq_refl)|].
    rewrite str_nil_app. unfold Py.universal_newlines.
    rewrite (translate_newlines_no_cr _ (blacklist_delta_no_cr ∅ failed Hok)).
    exact (Hgen "" eq_refl).
Qed.

Lemma filter_blacklisted_proxies_spec proxies bl :
  filter_blacklisted_proxies proxies bl =
    (filter (fun p => proxy_str p ∉ bl) proxies,
     Z.of_nat (length (filter (fun p => proxy_str p ∈ bl) proxies))).
Proof.
  unfold filter_blacklisted_proxies.
  assert (Hf : forall acc, fold_left (fun acc p => if decide (proxy_str p ∉ bl)
                                                   then (acc ++ [p])%list else acc) proxies acc
                           = (acc ++ filter (fun p => proxy_str p ∉ bl) proxies)%list).
  { induction proxies as [|p ps IH]; intros acc; cbn [fold_left]; [rewrite app_nil_r; reflexivity|].
    rewrite IH. destruct (decide (proxy_str p ∉ bl)).
    - rewrite filter_cons_True by assumption. rewrite <- app_assoc. reflexivity.
    - rewrite filter_cons_False by assumption. reflexivity. }
  rewrite Hf. cbn [app]. f_equal.
  assert (length proxies = length (filter (fun p => proxy_str p ∉ bl) proxies)
                           + length (filter (fun p => proxy_str p ∈ bl) proxies))%nat as ->.
  { clear Hf. induction proxies as [|p ps IH]; [reflexivity|].
    destruct (decide (proxy_str p ∈ bl)).
    - rewrite (filter_cons_False (fun p => proxy_str p ∉ bl)) by tauto.
      rewrite filter_cons_True by assumption. cbn [length]. lia.
    - rewrite (filter_cons_True (fun p => proxy_str p ∉ bl)) by assumption.
      rewrite (filter_cons_False (fun p => proxy_str p ∈ bl)) by assumption. cbn [length]. lia. }
  lia.
Qed.

(** [filter_blacklisted_proxies] keeps, in order, the proxies whose
    identity [protocol://address] is not in the blacklist, and its
    [skipped_count] is the number of proxies whose identity is
    blacklisted, counted with repetitions. *)
Theorem filter_blacklisted_proxies_counts (proxies : list Proxy) (bl : gset string) :
  let '(kept, skipped) := filter_blacklisted_proxies proxies bl in
  kept = filter (fun p => proxy_str p ∉ bl) proxies /\
  kept `sublist_of` proxies /\
  skipped = Z.of_nat (length (filter (fun p => proxy_str p ∈ bl) proxies)) /\
  (Z.of_nat (length kept) + skipped)%Z = Z.of_nat (length proxies).
Proof.
  rewrite filter_blacklisted_proxies_spec.
  split; [reflexivity|]. split; [apply sublist_filter|]. split; [reflexivity|].
  induction proxies as [|p ps IH]; [reflexivity|].
  destruct (decide (proxy_str p ∈ bl)).
  - rewrite (filter_cons_False (fun p => proxy_str p ∉ bl)) by tauto.
    rewrite filter_cons_True by assumption. cbn [length]. lia.
  - rewrite (filter_cons_True (fun p => proxy_str p ∉ bl)) by assumption.
    rewrite (filter_cons_False (fun p => proxy_str p ∈ bl)) by assumption. cbn [length]. lia.
Qed.

(** The blacklist round trip across two runs. If the blacklist file is
    absent, empty or ends in a newline, and every failed proxy's identity
    has no surrounding whitespace and no newline, then after
    [update_blacklist(failed_proxies)] the file again ends in a newline,
    and the next run's [load_blacklist] followed by
    [filter_blacklisted_proxies] keeps exactly the candidates that were
    neither blacklisted before nor among the failed proxies. *)
Theorem blacklist_next_run_skips_failed (f : blacklist_file) (failed proxies : list Proxy) :
  blacklist_file_ok f = true ->
  Forall (fun p => identity_ok p = true) failed ->
  blacklist_file_ok (update_blacklist failed f) = true /\
  let kept := fst (filter_blacklisted_proxies proxies
                     (fst (load_blacklist (update_blacklist failed f)))) in
  kept `sublist_of` proxies /\
  forall q, q ∈ kept <->
            q ∈ proxies /\ (proxy_str q ∉ fst (load_blacklist f)) /\ (proxy_str q ∉ map proxy_str failed).
Proof.
  intros Hf Hok. destruct (update_blacklist_load failed f Hf Hok) as [Hf' Hs].
  split; [exact Hf'|]. cbn zeta. rewrite filter_blacklisted_proxies_spec. cbn [fst].
  split; [apply sublist_filter|].
  intros q. rewrite list_elem_of_filter, Hs. tauto.
Qed.

Lemma blacklist_next_run_skips_failed_witness :
  let p := mkProxy "http" "1.2.3.4:8080" "1.2.3.4" 8080 "http://1.2.3.4:8080" in
  let q := mkProxy "http" "5.6.7.8:3128" "5.6.7.8" 3128 "http://5.6.7.8:3128" in
  let f := Some ("socks5://9.9.9.9:1080" ++ newline) in
  blacklist_file_ok f = true /\
  Forall (fun p => identity_ok p = true) [p] /\
  fst (filter_blacklisted_proxies [p; q] (fst (load_blacklist (update_blacklist [p] f)))) = [q] /\
  (blacklist_file_ok (update_blacklist [p] f) = true /\
   let kept := fst (filter_blacklisted_proxies [p; q]
                      (fst (load_blacklist (update_blacklist [p] f)))) in
   kept `sublist_of` [p; q] /\
   forall r, r ∈ kept <->
     r ∈ [p; q] /\ (proxy_str r ∉ fst (load_blacklist f)) /\ (proxy_str r ∉ map proxy_str [p])).
Proof.
  cbn zeta. split; [vm_compute; reflexivity|]. split; [repeat constructor|].
  split; [vm_compute; reflexivity|].
  apply blacklist_next_run_skips_failed; [vm_compute; reflexivity | repeat constructor].
Defined.

(** Under the same conditions, running [update_blacklist] a second time
    with the same failed proxies leaves the file unchanged: the merge is
    idempotent when identities read back unchanged. *)
Theorem update_blacklist_idempotent (f : blacklist_file) (failed : list Proxy) :
  blacklist_file_ok f = true ->
  Forall (fun p => identity_ok p = true) failed ->
  update_blacklist failed (update_blacklist failed f) = update_blacklist failed f.
Proof.
  intros Hf Hok. destruct (update_blacklist_load failed f Hf Hok) as [_ Hs].
  destruct (update_blacklist failed f) as [c|] eqn:E.
  - unfold update_blacklist at 1. cbn [load_blacklist].
    rewrite blacklist_delta_all_in, str_app_nil_r; [reflexivity|].
    apply Forall_forall. intros p Hp. cbn in Hs. apply Hs. right.
    apply list_elem_of_fmap. eauto.
  - unfold update_blacklist in E. destruct (load_blacklist f). discriminate.
Qed.

Lemma update_blacklist_idempotent_witness :
  let p := mkProxy "socks4" "1.2.3.4:1080" "1.2.3.4" 1080 "socks4://1.2.3.4:1080" in
  blacklist_file_ok None = true /\
  Forall (fun p => identity_ok p = true) [p; p] /\
  update_blacklist [p; p] None = Some ("socks4://1.2.3.4:1080" ++ newline ++ "socks4://1.2.3.4:1080" ++ newline) /\
  update_blacklist [p; p] (update_blacklist [p; p] None) = update_blacklist [p; p] None.
Proof.
  cbn zeta. split; [reflexivity|]. split; [repeat constructor|].
  split; [vm_compute; reflexivity|].
  apply update_blacklist_idempotent; [reflexivity | repeat constructor].
Defined.

(** A proxy whose identity has surrounding whitespace (for example a
    downloaded line ending in a carriage return, which [Proxy()] accepts
    since [int()] strips the port) is never blacklisted: every entry
    [load_blacklist] returns is stripped, so whatever the blacklist file
    holds, also after [update_blacklist] has recorded that very proxy,
    [filter_blacklisted_proxies] keeps it. *)
Theorem unstripped_identity_never_blacklisted (p : Proxy) :
  Py.strip (proxy_str p) <> proxy_str p ->
  forall (f : blacklist_file) (failed proxies : list Proxy),
  (proxy_str p ∉ fst (load_blacklist f)) /\
  (p ∈ proxies -> p ∈ fst (filter_blacklisted_proxies proxies
                            (fst (load_blacklist (update_blacklist failed f))))).
Proof.
  intros Hp.
  assert (Hnot : forall f, proxy_str p ∉ fst (load_blacklist f)).
  { intros [c|] Hin; cbn in Hin; [|set_solver].
    apply Hp, (set_of_lines_stripped _ _ Hin). }
  intros f failed proxies. split; [apply Hnot|].
  intros Hin. rewrite filter_blacklisted_proxies_spec. cbn [fst].
  apply list_elem_of_filter. split; [apply Hnot | exact Hin].
Qed.

Lemma unstripped_identity_never_blacklisted_witness :
  let cr := String "013"%char "" in
  let p := mkProxy "http" ("1.2.3.4:8080" ++ cr) "1.2.3.4" 8080 ("http://1.2.3.4:8080" ++ cr) in
  load_lines "http" (Py.split_on "010"%char (Py.strip_char "010"%char
                       ("1.2.3.4:8080" ++ cr ++ newline))) = inr [p] /\
  Py.strip (proxy_str p) <> proxy_str p /\
  ((proxy_str p ∉ fst (load_blacklist (update_blacklist [p] None))) /\
   (p ∈ [p] -> p ∈ fst (filter_blacklisted_proxies [p]
                         (fst (load_blacklist (update_blacklist [p] (update_blacklist [p] None))))))).
Proof.
  cbn zeta. split; [vm_compute; reflexivity|].
  assert (H : Py.strip (proxy_str (mkProxy "http" ("1.2.3.4:8080" ++ String "013"%char "") "1.2.3.4" 8080
                                     ("http://1.2.3.4:8080" ++ String "013"%char "")))
              <> proxy_str (mkProxy "http" ("1.2.3.4:8080" ++ String "013"%char "") "1.2.3.4" 8080
                                     ("http://1.2.3.4:8080" ++ String "013"%char ""))).
  { vm_compute. discriminate. }
  split; [exact H|].
  apply (unstripped_identity_never_blacklisted _ H).
Defined.

(* ------------------------------------------------------------------ *)
(** ** Saving the working proxies *)

Lemma join_split_roundtrip (l : list string) :
  l <> [] -> Forall (fun x => Py.contains newline x = false) l ->
  Py.split_on "010"%char (Py.join newline l) = l.
Proof.
  induction l as [|x l IH]; intros Hne Hok; [congruence|].
  apply Forall_cons in Hok as [Hx Hok].
  destruct l as [|y l].
  - cbn [Py.join]. apply split_on_no_sep, Hx.
  - change (Py.join newline (x :: y :: l)) with (x ++ String "010"%char (Py.join newline (y :: l))).
    rewrite split_on_app_sep, split_on_no_sep by exact Hx.
    rewrite IH by (discriminate || exact Hok). reflexivity.
Qed.

Lemma organize_results_fold ps (res : gmap string (list string)) t :
  fold_left (fun results p =>
               match results !! protocol p with
               | Some l => <[protocol p := (l ++ [address p])%list]> results
               | None => <[protocol p := [address p]]> results
               end) ps res !! t
  = match res !! t with
    | Some l => Some (l ++ addresses_of ps t)%list
    | None => match addresses_of ps t with [] => None | a => Some a end
    end.
Proof.
  revert res. induction ps as [|p ps IH]; intros res.
  - cbn. destruct (res !! t); [rewrite app_nil_r|]; reflexivity.
  - cbn [fold_left]. rewrite IH. unfold addresses_of.
    destruct (decide (protocol p = t)) as [<-|Hne].
    + rewrite filter_cons_True by reflexivity. cbn [map].
      destruct (res !! protocol p) as [l|] eqn:E.
      * rewrite lookup_insert_eq, <- app_assoc. reflexivity.
      * rewrite lookup_insert_eq. reflexivity.
    + rewrite filter_cons_False by exact Hne.
      destruct (res !! protocol p); rewrite lookup_insert_ne by exact Hne; reflexivity.
Qed.

Lemma organize_results_lookup checked_proxies t :
  organize_results checked_proxies !! t =
    match addresses_of checked_proxies t with [] => None | a => Some a end.
Proof. unfold organize_results. rewrite organize_results_fold. reflexivity. Qed.

(** [organize_and_save_results] writes one file per requested protocol,
    in the order of [types], and nothing for other protocols; the file of
    protocol [t] holds the addresses of the working proxies of protocol
    [t], in the order they came out of the callback queue, joined by
    newlines (an empty file when there is none). When no address contains
    a newline, splitting the file on newlines gives that list back, or
    [[""]] for the empty file. *)
Theorem organize_and_save_results_files (checked_proxies : list Proxy) (types : list string) :
  map fst (organize_and_save_results checked_proxies types) = map checked_path types /\
  (forall i t, types !! i = Some t ->
     organize_and_save_results checked_proxies types !! i
       = Some (checked_path t, Py.join newline (addresses_of checked_proxies t))) /\
  (Forall (fun p => Py.contains newline (address p) = false) checked_proxies ->
   forall t,
   Py.split_on "010"%char (Py.join newline (addresses_of checked_proxies t))
     = match addresses_of checked_proxies t with [] => [""] | l => l end).
Proof.
  split; [|split].
  - unfold organize_and_save_results. rewrite map_map. reflexivity.
  - intros i t Hi. unfold organize_and_save_results.
    rewrite list_lookup_fmap, Hi. cbn. rewrite organize_results_lookup.
    destruct (addresses_of checked_proxies t); reflexivity.
  - intros Hok t. destruct (addresses_of checked_proxies t) as [|a l] eqn:Ea; [reflexivity|].
    rewrite <- Ea. apply join_split_roundtrip; [rewrite Ea; discriminate|].
    unfold addresses_of. apply Forall_fmap, Forall_forall. intros p Hp.
    apply list_elem_of_filter in Hp as [_ Hp]. exact (proj1 (Forall_forall _ _) Hok p Hp).
Qed.

(* ------------------------------------------------------------------ *)
(** ** [load_proxy_files]: the local copy as a cache *)

(** [load_proxy_files] uses an existing local copy whatever its age and
    then makes no request and writes nothing. When there is no local copy
    and the download answers 200, it requests the source once, and the
    copy [download_proxy_list] writes makes every later call (with any
    network, even one that is down) make no request and return the
    proxies of the copy as read back in text mode, where a [\r\n] or a
    lone [\r] reads as a newline; when the downloaded text has no
    carriage return, that is the same result as the first call. *)
Theorem load_proxy_files_cache (env : load_env) (files : local_copies) (proto : string)
    (types : list string) (url text : string) :
  files !! proto = None ->
  assoc_lookup proto PROXY_SOURCES = Some url ->
  fetch env url = Some (200%Z, text) ->
  let '(r1, files1, urls1) := load_proxy_files env files proto types in
  urls1 = [url] /\
  (forall x, files1 !! proto = Some x ->
     forall env' types', snd (load_proxy_files env' files1 proto types') = [] /\
                         snd (fst (load_proxy_files env' files1 proto types')) = files1) /\
  (forall env' types', load_proxy_files env' files1 proto types'
     = (load_lines proto (Py.split_on "010"%char
                            (Py.strip_char "010"%char (Py.universal_newlines text))), files1, [])) /\
  (Py.contains carriage_return text = false ->
   forall env' types', load_proxy_files env' files1 proto types' = (r1, files1, [])).
Proof.
  intros Hnone Hurl Hfetch. unfold load_proxy_files at 1.
  rewrite Hnone. unfold download_proxy_list. rewrite Hurl, Hfetch. cbn [Z.eqb].
  split; [reflexivity|]. split; [|split].
  - intros x Hx env' types'. unfold load_proxy_files. rewrite Hx. destruct x. split; reflexivity.
  - intros env' types'. unfold load_proxy_files. rewrite lookup_insert_eq. reflexivity.
  - intros Hcr env' types'. unfold load_proxy_files. rewrite lookup_insert_eq.
    unfold Py.universal_newlines. rewrite (translate_newlines_no_cr text Hcr). reflexivity.
Qed.

Lemma load_proxy_files_cache_witness :
  let url := "https://raw.githubusercontent.com/MuRongPIG/Proxy-Master/refs/heads/main/socks5.txt" in
  let text := "1.2.3.4:1080" ++ newline ++ "5.6.7.8:1080" ++ newline in
  let env := mkLoadEnv 0 (fun u => if String.eqb u url then Some (200%Z, text) else None) in
  (∅ : local_copies) !! "socks5" = None /\
  assoc_lookup "socks5" PROXY_SOURCES = Some url /\
  fetch env url = Some (200%Z, text) /\
  fst (fst (load_proxy_files env ∅ "socks5" [])) =
    inr [mkProxy "socks5" "1.2.3.4:1080" "1.2.3.4" 1080 "socks5://1.2.3.4:1080";
         mkProxy "socks5" "5.6.7.8:1080" "5.6.7.8" 1080 "socks5://5.6.7.8:1080"] /\
  let '(r1, files1, urls1) := load_proxy_files env ∅ "socks5" [] in
  urls1 = [url] /\
  (forall x, files1 !! "socks5" = Some x ->
     forall env' types', snd (load_proxy_files env' files1 "socks5" types') = [] /\
                         snd (fst (load_proxy_files env' files1 "socks5" types')) = files1) /\
  (forall env' types', load_proxy_files env' files1 "socks5" types'
     = (load_lines "socks5" (Py.split_on "010"%char (Py.strip_char "010"%char
          (Py.universal_newlines ("1.2.3.4:1080" ++ newline ++ "5.6.7.8:1080" ++ newline)))),
        files1, [])) /\
  (Py.contains carriage_return ("1.2.3.4:1080" ++ newline ++ "5.6.7.8:1080" ++ newline) = false ->
   forall env' types', load_proxy_files env' files1 "socks5" types' = (r1, files1, [])).
Proof.
  cbn zeta. split; [reflexivity|]. split; [reflexivity|]. split; [vm_compute; reflexivity|].
  split; [vm_compute; reflexivity|].
  apply (load_proxy_files_cache _ _ _ _
           "https://raw.githubusercontent.com/MuRongPIG/Proxy-Master/refs/heads/main/socks5.txt"
           ("1.2.3.4:1080" ++ newline ++ "5.6.7.8:1080" ++ newline));
    vm_compute; reflexivity.
Defined.

(* ------------------------------------------------------------------ *)
(** ** The figures of [display_summary] and [save_test_results] *)

Lemma msum_replace {A} (g : A -> nat) (m : gmap string A) k c v :
  m !! k = Some c -> (msum g (<[k:=v]> m) + g c = msum g m + g v)%nat.
Proof. intros Hk. rewrite msum_insert, (msum_delete g m k c Hk). lia. Qed.

Lemma init_protocol_some st proto : exists c, by_protocol (init_protocol st proto) !! proto = Some c.
Proof.
  unfold init_protocol. destruct (by_protocol st !! proto) as [c|] eqn:E; [eauto|].
  cbn. eexists. apply lookup_insert_eq.
Qed.

Lemma init_protocol_msum (g : counts -> nat) st proto :
  g (mkCounts 0 0 0) = 0%nat ->
  msum g (by_protocol (init_protocol st proto)) = msum g (by_protocol st) /\
  failure_reasons (init_protocol st proto) = failure_reasons st.
Proof.
  intros Hg. unfold init_protocol. destruct (by_protocol st !! proto) eqn:E; [done|].
  cbn. rewrite msum_insert_fresh by exact E. rewrite Hg. done.
Qed.

Lemma apply_call_working st c :
  msum working (by_protocol (apply_call st c)) =
    (msum working (by_protocol st) + if is_failure_call c then 0 else 1)%nat /\
  msum failed (by_protocol (apply_call st c)) =
    (msum failed (by_protocol st) + if is_failure_call c then 1 else 0)%nat.
Proof.
  destruct c as [p|p reason]; cbn [apply_call is_failure_call].
  - unfold add_success. destruct (init_protocol_some st (protocol p)) as [c Hc].
    destruct (init_protocol_msum working st (protocol p) eq_refl) as [Hw _].
    destruct (init_protocol_msum failed st (protocol p) eq_refl) as [Hf _].
    cbn [by_protocol]. rewrite (alter_alter_some _ _ _ _ c Hc).
    pose proof (msum_replace working _ _ c (incr_checked (incr_working c)) Hc) as H1.
    pose proof (msum_replace failed _ _ c (incr_checked (incr_working c)) Hc) as H2.
    cbn in H1, H2. lia.
  - unfold add_failure. destruct (init_protocol_some st (protocol p)) as [c Hc].
    destruct (init_protocol_msum working st (protocol p) eq_refl) as [Hw _].
    destruct (init_protocol_msum failed st (protocol p) eq_refl) as [Hf _].
    cbn [by_protocol]. rewrite (alter_alter_some _ _ _ _ c Hc).
    pose proof (msum_replace working _ _ c (incr_checked (incr_failed c)) Hc) as H1.
    pose proof (msum_replace failed _ _ c (incr_checked (incr_failed c)) Hc) as H2.
    cbn in H1, H2. lia.
Qed.

Lemma apply_call_reasons_pos st c :
  map_Forall (fun _ n => (1 <= n)%nat) (failure_reasons st) ->
  map_Forall (fun _ n => (1 <= n)%nat) (failure_reasons (apply_call st c)).
Proof.
  intros Hpos. destruct c as [p|p reason]; cbn [apply_call].
  - unfold add_success. cbn [failure_reasons].
    destruct (init_protocol_msum working st (protocol p) eq_refl) as [_ ->]. exact Hpos.
  - unfold add_failure. cbn [failure_reasons].
    destruct (init_protocol_msum working st (protocol p) eq_refl) as [_ ->].
    intros k n Hk. destruct (decide (reason = k)) as [<-|Hne].
    + rewrite lookup_alter_eq in Hk.
      destruct (failure_reasons st !! reason) eqn:E.
      * rewrite E in Hk. injection Hk as <-. lia.
      * rewrite lookup_insert_eq in Hk. injection Hk as <-. lia.
    + rewrite lookup_alter_ne in Hk by exact Hne.
      destruct (failure_reasons st !! reason) eqn:E.
      * exact (Hpos k n Hk).
      * rewrite lookup_insert_ne in Hk by exact Hne. exact (Hpos k n Hk).
Qed.

Lemma run_calls_sums cs st :
  msum working (by_protocol (run_calls st cs)) =
    (msum working (by_protocol st) + length (filter (fun c => is_failure_call c = false) cs))%nat /\
  msum failed (by_protocol (run_calls st cs)) =
    (msum failed (by_protocol st) + length (filter (fun c => is_failure_call c = true) cs))%nat /\
  (map_Forall (fun _ n => (1 <= n)%nat) (failure_reasons st) ->
   map_Forall (fun _ n => (1 <= n)%nat) (failure_reasons (run_calls st cs))).
Proof.
  revert st. induction cs as [|c cs IH]; intros st.
  - cbn. split; [lia|]. split; [lia|]. tauto.
  - change (run_calls st (c :: cs)) with (run_calls (apply_call st c) cs).
    destruct (IH (apply_call st c)) as (IHw & IHf & IHp).
    destruct (apply_call_working st c) as [Hw Hf].
    split; [|split].
    + rewrite IHw, Hw. destruct (is_failure_call c) eqn:E.
      * rewrite (filter_cons_False (fun c => is_failure_call c = false)) by congruence. lia.
      * rewrite (filter_cons_True (fun c => is_failure_call c = false)) by exact E. cbn [length]. lia.
    + rewrite IHf, Hf. destruct (is_failure_call c) eqn:E.
      * rewrite (filter_cons_True (fun c => is_failure_call c = true)) by exact E. cbn [length]. lia.
      * rewrite (filter_cons_False (fun c => is_failure_call c = true)) by congruence. lia.
    + intros Hpos. apply IHp, apply_call_reasons_pos, Hpos.
Qed.

(** The figures [display_summary] prints and [save_test_results] writes,
    after any sequence of [add_success]/[add_failure] calls on a fresh
    [ProxyStats]: [total_working] is the number of [add_success] calls;
    the ["Failed proxies"] figure [total_checked - total_working] is the
    number of [add_failure] calls, never negative, and equals both the
    sum of the per-protocol failed counts and the sum of the
    failure-reason counts; every recorded reason has a count of at least
    one. So the failure-reason percentages of [display_summary] and of
    the README add up to 100%, and their divisor is positive whenever a
    reason is listed. *)
Theorem stats_summary_figures (cs : list stat_call) :
  let st := run_calls ProxyStats_new cs in
  total_working st = length (filter (fun c => is_failure_call c = false) cs) /\
  failed_figure st = Z.of_nat (length (filter (fun c => is_failure_call c = true) cs)) /\
  failed_figure st = Z.of_nat (msum failed (by_protocol st)) /\
  failed_figure st = Z.of_nat (sum_reasons (failure_reasons st)) /\
  (total_working st <= total_checked st)%nat /\
  map_Forall (fun _ n => (1 <= n)%nat) (failure_reasons st) /\
  (failure_reasons st <> ∅ -> (0 < failed_figure st)%Z).
Proof.
  cbn zeta.
  destruct (run_calls_sums cs ProxyStats_new) as (Hw & Hf & Hp).
  destruct (run_calls_inv cs ProxyStats_new 0%nat
              ltac:(split; [apply map_Forall_empty | split; reflexivity])) as (Hc & Ht & Hr).
  set (st := run_calls ProxyStats_new cs) in *.
  assert (Htw : total_working st = msum working (by_protocol st)) by reflexivity.
  assert (Hsplit : msum checked (by_protocol st)
                   = (msum working (by_protocol st) + msum failed (by_protocol st))%nat).
  { clear -Hc. unfold msum. induction (by_protocol st) as [|k c m Hk _ IH] using map_first_key_ind.
    - reflexivity.
    - apply map_Forall_insert in Hc as [Hkc Hc]; [|exact Hk].
      rewrite !map_fold_insert_L by (intros; lia || exact Hk). rewrite IH by exact Hc. lia. }
  change (msum working (by_protocol ProxyStats_new)) with 0%nat in Hw.
  change (msum failed (by_protocol ProxyStats_new)) with 0%nat in Hf.
  rewrite sum_checked_msum in Ht.
  unfold failed_figure. rewrite Htw.
  split; [lia|]. split; [lia|]. split; [lia|]. split; [rewrite Hr; lia|].
  split; [lia|].
  assert (Hpos : map_Forall (fun _ n => (1 <= n)%nat) (failure_reasons st)).
  { apply Hp. apply map_Forall_empty. }
  split; [exact Hpos|].
  intros Hne. apply map_choose in Hne as (k & n & Hkn).
  pose proof (Hpos k n Hkn) as Hn.
  rewrite sum_reasons_msum, (msum_delete _ _ _ _ Hkn) in Hr.
  rewrite Ht, Hsplit. cbv beta in Hn. lia.
Qed.

(* ------------------------------------------------------------------ *)
(** ** [update_readme_with_results] *)

Lemma find_index_none {A} (f : A -> bool) l :
  find_index f l = None <-> Forall (fun x => f x = false) l.
Proof.
  induction l as [|x l IH]; cbn; [split; [constructor|reflexivity]|].
  rewrite Forall_cons, <- IH. destruct (f x); cbn.
  - split; [discriminate | intros [H _]; discriminate].
  - destruct (find_index f l); cbn; intuition congruence.
Qed.

Lemma find_index_app_some {A} (f : A -> bool) l1 l2 i :
  find_index f l1 = Some i -> find_index f (l1 ++ l2) = Some i.
Proof.
  revert i. induction l1 as [|x l1 IH]; intros i; cbn; [discriminate|].
  destruct (f x); [tauto|].
  destruct (find_index f l1) as [j|]; cbn; [|discriminate].
  intros H. rewrite (IH j eq_refl). exact H.
Qed.

Lemma find_index_app_none {A} (f : A -> bool) l1 l2 :
  find_index f l1 = None ->
  find_index f (l1 ++ l2) = option_map (Nat.add (length l1)) (find_index f l2).
Proof.
  induction l1 as [|x l1 IH]; cbn.
  - intros _. destruct (find_index f l2); reflexivity.
  - destruct (f x); [discriminate|].
    destruct (find_index f l1); cbn; [discriminate|].
    intros _. rewrite IH by reflexivity. destruct (find_index f l2); reflexivity.
Qed.

Lemma find_index_lt {A} (f : A -> bool) l i : find_index f l = Some i -> (i < length l)%nat.
Proof.
  revert i. induction l as [|x l IH]; intros i; cbn; [discriminate|].
  destruct (f x); [intros [=<-]; lia|].
  destruct (find_index f l) as [j|]; cbn; [|discriminate].
  intros [=<-]. specialize (IH j eq_refl). lia.
Qed.

Lemma find_index_take_none {A} (f : A -> bool) l n h :
  find_index f l = Some h -> find_index f (take n l) = None -> (n <= h)%nat.
Proof.
  intros Hh Hn. pose proof (find_index_lt f l h Hh) as Hlt.
  rewrite <- (take_drop n l), (find_index_app_none f _ _ Hn) in Hh.
  destruct (find_index f (drop n l)); cbn in Hh; [|discriminate].
  injection Hh as <-. rewrite length_take in *. lia.
Qed.

Lemma find_index_take_some {A} (f : A -> bool) l k :
  find_index f l = Some k -> find_index f (take (S k) l) = Some k.
Proof.
  intros Hk. pose proof (find_index_lt f l k Hk) as Hlt.
  destruct (find_index f (take (S k) l)) as [i|] eqn:E.
  - rewrite <- (take_drop (S k) l), (find_index_app_some f _ _ i E) in Hk. exact Hk.
  - pose proof (find_index_take_none f l (S k) k Hk E). lia.
Qed.

Lemma split_on_no_newline s : Forall (fun x => Py.contains newline x = false) (Py.split_on "010"%char s).
Proof.
  induction s as [|d s IH]; cbn [Py.split_on]; [repeat constructor|].
  destruct (Ascii.eqb "010"%char d) eqn:E; [constructor; [reflexivity | exact IH]|].
  destruct (Py.split_on "010"%char s) as [|f fs].
  - repeat constructor. unfold newline. rewrite contains_char_cons, E. reflexivity.
  - apply Forall_cons in IH as [Hf Hfs]. constructor; [|exact Hfs].
    unfold newline in *. rewrite contains_char_cons, E. exact Hf.
Qed.

Lemma results_section_no_newline body :
  Forall (fun x => readme_body_ok x = true) body ->
  Forall (fun x => Py.contains newline x = false) (results_section body).
Proof.
  intros Hb. unfold results_section. repeat constructor.
  eapply Forall_impl; [exact Hb|]. intros x Hx. unfold readme_body_ok in Hx.
  apply andb_true_iff in Hx as [_ Hx]. apply negb_true_iff, Hx.
Qed.

Lemma update_readme_lines_marker L sec k :
  find_index (fun line => Py.contains README_MARKER line) L = Some k ->
  find_index (fun line => String.eqb (Py.strip line) RESULTS_HEADING) (take (S k) L) = None ->
  update_readme_lines L sec = (take (S k) L ++ sec)%list.
Proof.
  intros Hk Hn. pose proof (find_index_lt _ _ _ Hk) as Hklt.
  unfold update_readme_lines. rewrite Hk.
  destruct (find_index (fun line => String.eqb (Py.strip line) RESULTS_HEADING) L) as [h|] eqn:Eh;
    [|reflexivity].
  pose proof (find_index_take_none _ _ _ _ Eh Hn) as Hkh.
  pose proof (find_index_lt _ _ _ Eh) as Hhlt.
  cbn zeta.
  match goal with |- context [take ?i (take h L ++ drop ?e L)] => set (ee := e) end.
  assert (Hi : (if (h <? S k)%nat then h else S k) = S k).
  { destruct (Nat.ltb_spec h (S k)); lia. }
  rewrite Hi, take_app_le by (rewrite length_take; lia).
  rewrite take_take. f_equal. f_equal. lia.
Qed.

(** When README.md has the line [Working proxies will be saved to ...]
    and no [## Recent Results] line up to it, and the new section's lines
    neither contain that phrase nor are a [## Recent Results] heading nor
    contain a newline: the updated README is the old one up to and
    including that line followed by the new section. Everything after
    that line (the old results, and any other section) is dropped; and
    running the update again with the same results changes nothing. *)
Theorem update_readme_marker_idempotent (t : nat) (body : list string) (c : string) (k : nat) :
  t <> 0%nat ->
  find_index (fun line => Py.contains README_MARKER line) (Py.split_on "010"%char c) = Some k ->
  find_index (fun line => String.eqb (Py.strip line) RESULTS_HEADING)
    (take (S k) (Py.split_on "010"%char c)) = None ->
  Forall (fun x => readme_body_ok x = true) body ->
  Py.split_on "010"%char (update_readme_with_results t body c)
    = (take (S k) (Py.split_on "010"%char c) ++ results_section body)%list /\
  update_readme_with_results t body (update_readme_with_results t body c)
    = update_readme_with_results t body c.
Proof.
  intros Ht Hk Hn Hb.
  set (L := Py.split_on "010"%char c) in *.
  assert (Hu : update_readme_with_results t body c
               = Py.join newline (take (S k) L ++ results_section body)).
  { unfold update_readme_with_results. destruct (Nat.eqb_spec t 0); [contradiction|].
    fold L. rewrite (update_readme_lines_marker L _ k Hk Hn). reflexivity. }
  set (U := (take (S k) L ++ results_section body)%list) in *.
  assert (HU : Py.split_on "010"%char (Py.join newline U) = U).
  { apply join_split_roundtrip.
    - unfold U, results_section. destruct (take (S k) L); discriminate.
    - apply Forall_app. split; [apply Forall_take, split_on_no_newline|].
      apply results_section_no_newline, Hb. }
  rewrite Hu, HU. split; [reflexivity|].
  unfold update_readme_with_results at 1. destruct (Nat.eqb_spec t 0); [contradiction|].
  rewrite HU.
  assert (Hlen : length (take (S k) L) = S k).
  { rewrite length_take. pose proof (find_index_lt _ _ _ Hk). lia. }
  assert (HkU : find_index (fun line => Py.contains README_MARKER line) U = Some k).
  { apply find_index_app_some, find_index_take_some, Hk. }
  assert (HtU : take (S k) U = take (S k) L).
  { unfold U. apply take_app_length'. symmetry. exact Hlen. }
  rewrite (update_readme_lines_marker U _ k HkU) by (rewrite HtU; exact Hn).
  rewrite HtU. reflexivity.
Qed.

Lemma readme_line_ok_marker l :
  Forall (fun x => readme_line_ok x = true) l ->
  find_index (fun line => Py.contains README_MARKER line) l = None.
Proof.
  intros H. apply find_index_none. eapply Forall_impl; [exact H|].
  intros x Hx. unfold readme_line_ok in Hx. apply andb_true_iff in Hx as [Hx _].
  apply negb_true_iff, Hx.
Qed.

Lemma readme_line_ok_heading l :
  Forall (fun x => readme_line_ok x = true) l ->
  find_index (fun line => String.eqb (Py.strip line) RESULTS_HEADING) l = None.
Proof.
  intros H. apply find_index_none. eapply Forall_impl; [exact H|].
  intros x Hx. unfold readme_line_ok in Hx. apply andb_true_iff in Hx as [_ Hx].
  apply negb_true_iff, Hx.
Qed.

Lemma readme_body_line_ok body :
  Forall (fun x => readme_body_ok x = true) body -> Forall (fun x => readme_line_ok x = true) body.
Proof.
  intros H. eapply Forall_impl; [exact H|]. intros x Hx.
  unfold readme_body_ok in Hx. apply andb_true_iff in Hx as [Hx _]. exact Hx.
Qed.

Lemma Forall_of_forallb {A} (f : A -> bool) l : forallb f l = true -> Forall (fun x => f x = true) l.
Proof.
  induction l as [|x l IH]; cbn; [constructor|].
  intros H. apply andb_true_iff in H as [Hx Hl]. constructor; [exact Hx | exact (IH Hl)].
Qed.

Lemma Forall_repeat_empty (P : string -> Prop) m : P "" -> Forall P (repeat "" m).
Proof. intros H. induction m as [|m IHm]; [constructor | constructor; [exact H | exact IHm]]. Qed.

Lemma update_readme_lines_plain L sec :
  Forall (fun x => readme_line_ok x = true) L -> update_readme_lines L sec = (L ++ sec)%list.
Proof.
  intros H. unfold update_readme_lines.
  rewrite (readme_line_ok_marker L H), (readme_line_ok_heading L H).
  rewrite take_ge by lia. reflexivity.
Qed.

Lemma update_readme_lines_grow P body :
  Forall (fun x => readme_line_ok x = true) P ->
  Forall (fun x => readme_body_ok x = true) body ->
  update_readme_lines (P ++ results_section body) (results_section body)
  = (P ++ [""] ++ results_section body)%list.
Proof.
  intros HP Hb.
  set (L2 := (P ++ results_section body)%list).
  assert (Hm : find_index (fun line => Py.contains README_MARKER line) L2 = None).
  { unfold L2, results_section.
    rewrite find_index_app_none by (apply readme_line_ok_marker, HP).
    cbn [app find_index]. rewrite (readme_line_ok_marker body (readme_body_line_ok body Hb)).
    reflexivity. }
  assert (Hh : find_index (fun line => String.eqb (Py.strip line) RESULTS_HEADING) L2
               = Some (length P + 1)%nat).
  { unfold L2. rewrite find_index_app_none by (apply readme_line_ok_heading, HP). reflexivity. }
  assert (Hn : nth (length P + 1) L2 "" = RESULTS_HEADING).
  { unfold L2. rewrite app_nth2_plus. reflexivity. }
  assert (Hc : (length L2 - S (length P + 1) = S (length body))%nat).
  { unfold L2, results_section. rewrite !length_app. cbn. lia. }
  assert (Hlt : (length P + 1 <? length L2)%nat = true).
  { apply Nat.ltb_lt. lia. }
  assert (Ht : take (length P + 1) L2 = (P ++ [""])%list).
  { unfold L2, results_section.
    replace (P ++ [""; RESULTS_HEADING; ""] ++ body)%list
      with ((P ++ [""]) ++ RESULTS_HEADING :: "" :: body)%list
      by (rewrite <- app_assoc; reflexivity).
    apply take_app_length'. rewrite length_app. cbn. lia. }
  unfold update_readme_lines. fold L2. rewrite Hm, Hh, Hn, Hc, Hlt, Ht.
  cbn [seq List.find].
  change (Py.startswith RESULTS_HEADING "## ") with true. cbv iota.
  rewrite take_app_length' by (rewrite length_app; cbn; lia).
  rewrite <- app_assoc. reflexivity.
Qed.

(** When README.md has no line with [Working proxies will be saved to]
    and no [## Recent Results] line, and the section's lines are as
    above: every run of the update appends the results section at the end,
    and each later run with the same results replaces the old section but
    leaves one more empty line in front of it, so after [n+1] runs the
    README is its original lines, [n] empty lines, then the section. *)
Theorem update_readme_no_marker_grows (t : nat) (body : list string) (c : string) :
  t <> 0%nat ->
  Forall (fun x => readme_line_ok x = true) (Py.split_on "010"%char c) ->
  Forall (fun x => readme_body_ok x = true) body ->
  forall n : nat,
    Py.split_on "010"%char (Nat.iter (S n) (update_readme_with_results t body) c)
    = (Py.split_on "010"%char c ++ repeat "" n ++ results_section body)%list.
Proof.
  intros Ht HL Hb.
  set (L := Py.split_on "010"%char c) in *.
  assert (Hf : forall d, update_readme_with_results t body d
                = Py.join newline (update_readme_lines (Py.split_on "010"%char d) (results_section body))).
  { intros d. unfold update_readme_with_results. destruct (Nat.eqb_spec t 0); [contradiction | reflexivity]. }
  assert (Hrt : forall m, Py.split_on "010"%char (Py.join newline (L ++ repeat "" m ++ results_section body))
                          = (L ++ repeat "" m ++ results_section body)%list).
  { intros m. apply join_split_roundtrip.
    - destruct L; [destruct m|]; discriminate.
    - apply Forall_app; split; [apply split_on_no_newline|].
      apply Forall_app; split; [apply Forall_repeat_empty; reflexivity|].
      apply results_section_no_newline, Hb. }
  induction n as [|n IH].
  - change (Nat.iter 1 (update_readme_with_results t body) c) with (update_readme_with_results t body c).
    rewrite Hf. fold L. rewrite update_readme_lines_plain by exact HL.
    exact (Hrt 0%nat).
  - change (Nat.iter (S (S n)) (update_readme_with_results t body) c)
      with (update_readme_with_results t body (Nat.iter (S n) (update_readme_with_results t body) c)).
    rewrite Hf, IH, app_assoc, update_readme_lines_grow.
    + rewrite <- !app_assoc. cbn [app]. replace (repeat "" n ++ "" :: results_section body)%list
        with (repeat "" (S n) ++ results_section body)%list
        by (cbn [repeat]; rewrite repeat_cons, <- app_assoc; reflexivity).
      exact (Hrt (S n)).
    + apply Forall_app; split; [exact HL | apply Forall_repeat_empty; reflexivity].
    + exact Hb.
Qed.

Lemma update_readme_marker_idempotent_witness :
  let c := Py.join newline ["# Proxy checker"; "Working proxies will be saved to working.txt";
                            ""; "## License"; "MIT"] in
  let body := ["Last test run: 2025-01-01 00:00:00"] in
  (1 <> 0)%nat /\
  find_index (fun line => Py.contains README_MARKER line) (Py.split_on "010"%char c) = Some 1%nat /\
  find_index (fun line => String.eqb (Py.strip line) RESULTS_HEADING)
    (take 2 (Py.split_on "010"%char c)) = None /\
  Forall (fun x => readme_body_ok x = true) body /\
  Py.split_on "010"%char (update_readme_with_results 1 body c)
    = (take 2 (Py.split_on "010"%char c) ++ results_section body)%list /\
  update_readme_with_results 1 body (update_readme_with_results 1 body c)
    = update_readme_with_results 1 body c.
Proof.
  cbn zeta. split; [discriminate|]. split; [vm_compute; reflexivity|].
  split; [vm_compute; reflexivity|]. split; [apply Forall_of_forallb; vm_compute; reflexivity|].
  apply (update_readme_marker_idempotent 1 _ _ 1); [discriminate | vm_compute; reflexivity
    | vm_compute; reflexivity | apply Forall_of_forallb; vm_compute; reflexivity].
Defined.

Lemma update_readme_no_marker_grows_witness :
  let c := Py.join newline ["# Proxy checker"; "## Usage"; "python amazon_proxy_test.py"] in
  let body := ["Last test run: 2025-01-01 00:00:00"] in
  (1 <> 0)%nat /\
  Forall (fun x => readme_line_ok x = true) (Py.split_on "010"%char c) /\
  Forall (fun x => readme_body_ok x = true) body /\
  Py.split_on "010"%char (Nat.iter 3 (update_readme_with_results 1 body) c)
    = (Py.split_on "010"%char c ++ ["" ; ""] ++ results_section body)%list.
Proof.
  cbn zeta. split; [discriminate|].
  split; [apply Forall_of_forallb; vm_compute; reflexivity|].
  split; [apply Forall_of_forallb; vm_compute; reflexivity|].
  apply (update_readme_no_marker_grows 1 _ _); [discriminate | ..];
    apply Forall_of_forallb; vm_compute; reflexivity.
Defined.

(* ------------------------------------------------------------------ *)
(** ** [antibot_utils.py] *)

Section AntibotProps.

Local Open Scope Q_scope.

Import Antibot.

(** The sleep interval that [monitor_progress] returns is always between 1
    and 10 seconds, whatever the counts and the elapsed time (also for
    negative or inconsistent ones). *)
Theorem monitor_progress_bounds (total_items processed_items : Z) (elapsed : Q) :
  1 <= monitor_progress total_items processed_items elapsed /\
  monitor_progress total_items processed_items elapsed <= 10.
Proof.
  unfold monitor_progress.
  destruct (Z.eqb total_items 0); [lra|]. destruct (Z.eqb processed_items 0); [lra|].
  cbn zeta. split.
  - apply Q.min_glb; [apply Q.le_max_l | lra].
  - apply Q.le_min_r.
Qed.

Lemma think_time_bounds g : 2 <= think_time g /\ think_time g <= 5.
Proof.
  unfold think_time. split; [apply Q.le_max_l|].
  apply Q.max_lub; [lra | apply Q.le_min_l].
Qed.

Lemma reading_time_bounds n r : 3 <= reading_time n r /\ reading_time n r <= 10.
Proof.
  unfold reading_time. cbn zeta. split; [|apply Q.le_min_l].
  apply Q.min_glb; [lra | apply Q.le_max_l].
Qed.

Lemma navigation_delay_bounds r : 0 <= r -> r <= 1 -> 1 <= navigation_delay r /\ navigation_delay r <= 3.
Proof.
  intros Hr0 Hr1. unfold navigation_delay.
  destruct F64Facts.round64_small as (H0 & H1 & H2 & H3).
  assert (Hd : 0 <= F64.round64 (r * 2) <= 2).
  { pose proof (F64Facts.round64_mono 0 (r * 2)) as Ha.
    pose proof (F64Facts.round64_mono (r * 2) 2) as Hb. rewrite H0 in Ha. rewrite H2 in Hb.
    split; [apply Ha | apply Hb]; lra. }
  pose proof (F64Facts.round64_mono 1 (1 + F64.round64 (r * 2))) as Ha.
  pose proof (F64Facts.round64_mono (1 + F64.round64 (r * 2)) 3) as Hb.
  rewrite H1 in Ha. rewrite H3 in Hb.
  split; [apply Ha | apply Hb]; lra.
Qed.

(** The delays of [HumanBrowsingPattern]: [think_time] is between 2 and 5
    seconds whatever the Gaussian draw, [reading_time] between 3 and 10
    seconds whatever the content length and draw, and [navigation_delay]
    between 1 and 3 seconds, both included, for a draw of
    [random.random()] in [0, 1): in float arithmetic the largest draw
    [1 - 2^-53] gives exactly [3.0]. *)
Theorem human_browsing_bounds (g r : Q) (content_length : Z) :
  0 <= r -> r < 1 ->
  (2 <= think_time g /\ think_time g <= 5) /\
  (3 <= reading_time content_length r /\ reading_time content_length r <= 10) /\
  (1 <= navigation_delay r /\ navigation_delay r <= 3) /\
  navigation_delay (1 - (1 # 9007199254740992)) = 3.
Proof.
  intros Hr0 Hr1. split; [apply think_time_bounds|]. split; [apply reading_time_bounds|].
  split; [apply navigation_delay_bounds; lra|].
  vm_compute. reflexivity.
Qed.

Lemma human_browsing_bounds_witness :
  0 <= 1 # 2 /\ 1 # 2 < 1 /\
  (2 <= think_time (7 # 2) /\ think_time (7 # 2) <= 5) /\
  (3 <= reading_time 1000 (1 # 2) /\ reading_time 1000 (1 # 2) <= 10) /\
  (1 <= navigation_delay (1 # 2) /\ navigation_delay (1 # 2) <= 3) /\
  navigation_delay (1 - (1 # 9007199254740992)) = 3.
Proof.
  split; [apply Qle_bool_imp_le; reflexivity|]. split; [reflexivity|].
  apply (human_browsing_bounds (7 # 2) (1 # 2) 1000);
    [apply Qle_bool_imp_le; reflexivity | reflexivity].
Defined.

(** [perform_request_with_anti_bot_measures] creates a session iff it is
    given none, and then closes it as its very last action, whether the
    request succeeds, raises, or the method is unsupported; a session it
    is given is never closed. Between the two, there is no other session
    event. *)
Theorem perform_request_session (method : string) (session_given add_delays fast_check : bool)
    (nav_r read_r : Q) (outcome : req_outcome) :
  let evs := fst (perform_request method session_given add_delays fast_check nav_r read_r outcome) in
  evs = (if session_given then filter (fun e => negb (is_session_event e)) evs
         else ESetupSession :: filter (fun e => negb (is_session_event e)) evs ++ [EClose])%list.
Proof.
  cbn zeta. unfold perform_request. cbn zeta.
  destruct (String.eqb (Py.upper method) "GET"), (String.eqb (Py.upper method) "POST"),
    session_given, add_delays, fast_check, outcome; reflexivity.
Qed.

(** The pre-request and post-request delays of
    [perform_request_with_anti_bot_measures]: with [fast_check] the only
    sleep is 0.5 seconds (none without [add_delays]); otherwise there is
    at most one sleep before the request and one after a response, each of
    at most 10 seconds, and none at all without [add_delays]. *)
Theorem perform_request_sleeps (method : string) (session_given add_delays fast_check : bool)
    (nav_r read_r : Q) (outcome : req_outcome) :
  0 <= nav_r -> nav_r < 1 ->
  let ds := sleeps (fst (perform_request method session_given add_delays fast_check nav_r read_r outcome)) in
  (fast_check = true -> ds = if add_delays then [1 # 2] else []) /\
  (add_delays = false -> ds = []) /\
  (length ds <= 2)%nat /\
  Forall (fun d => 1 # 2 <= d /\ d <= 10) ds.
Proof.
  intros H0 H1. cbn zeta. unfold perform_request. cbn zeta.
  assert (H1' : nav_r <= 1) by lra.
  pose proof (navigation_delay_bounds nav_r H0 H1') as [Hn1 Hn2].
  set (nd := navigation_delay nav_r) in *. clearbody nd.
  destruct outcome as [n|e|e].
  1: pose proof (reading_time_bounds n read_r) as [Hr1 Hr2];
     set (rd := reading_time n read_r) in *; clearbody rd.
  all: destruct (String.eqb (Py.upper method) "GET"), (String.eqb (Py.upper method) "POST"),
      session_given, add_delays, fast_check; cbn;
      repeat split; intros; try discriminate; try reflexivity; try lia;
      repeat constructor; lra.
Qed.

Lemma perform_request_sleeps_witness :
  0 <= 0 /\ 0 < 1 /\
  let ds := sleeps (fst (perform_request "GET" false true false 0 (1 # 2) (ROk 5000))) in
  (false = true -> ds = [1 # 2]) /\
  (true = false -> ds = []) /\
  (length ds <= 2)%nat /\
  Forall (fun d => 1 # 2 <= d /\ d <= 10) ds.
Proof.
  split; [apply Qle_bool_imp_le; reflexivity|]. split; [reflexivity|].
  apply (perform_request_sleeps "GET" false true false 0 (1 # 2) (ROk 5000));
    [apply Qle_bool_imp_le; reflexivity | reflexivity].
Defined.

Lemma str_app_inv_l a b c : a ++ b = a ++ c -> b = c.
Proof.
  induction a as [|x a IH]; [auto|].
  intros H. change (String x (a ++ b) = String x (a ++ c)) in H. injection H as H. exact (IH H).
Qed.

(** [perform_request_with_anti_bot_measures] sees [method] only through
    [method.upper()], except in the message of the [ValueError] it raises
    for an unsupported method: two methods with the same upper case (such
    as ["get"], ["Get"] and ["GET"]) make the same sleeps, requests and
    session events, and have the same result or exception unless the
    method is unsupported and the two are spelt differently, since the
    message [Unsupported HTTP method: {method}] quotes the method as
    given. *)
Theorem perform_request_method_case (m1 m2 : string) (session_given add_delays fast_check : bool)
    (nav_r read_r : Q) (outcome : req_outcome) :
  Py.upper m1 = Py.upper m2 ->
  fst (perform_request m1 session_given add_delays fast_check nav_r read_r outcome)
  = fst (perform_request m2 session_given add_delays fast_check nav_r read_r outcome) /\
  (snd (perform_request m1 session_given add_delays fast_check nav_r read_r outcome)
   = snd (perform_request m2 session_given add_delays fast_check nav_r read_r outcome)
   <-> String.eqb (Py.upper m1) "GET" || String.eqb (Py.upper m1) "POST" = true \/ m1 = m2).
Proof.
  intros Hu. unfold perform_request. rewrite Hu.
  destruct (String.eqb (Py.upper m2) "GET" || String.eqb (Py.upper m2) "POST").
  - destruct outcome; (split; [reflexivity | split; [auto | reflexivity]]).
  - cbn [fst snd]. split; [reflexivity|]. split.
    + intros H. right. injection H as H. exact (str_app_inv_l _ _ _ H).
    + intros [H|H]; [discriminate H | subst; reflexivity].
Qed.

Lemma perform_request_method_case_witness :
  Py.upper "delete" = Py.upper "Delete" /\
  fst (perform_request "delete" false true false 0 0 (ROk 10))
  = fst (perform_request "Delete" false true false 0 0 (ROk 10)) /\
  (snd (perform_request "delete" false true false 0 0 (ROk 10))
   = snd (perform_request "Delete" false true false 0 0 (ROk 10))
   <-> String.eqb (Py.upper "delete") "GET" || String.eqb (Py.upper "delete") "POST" = true
       \/ "delete" = "Delete").
Proof.
  split; [reflexivity|].
  apply (perform_request_method_case "delete" "Delete"). reflexivity.
Defined.

(** For a [method] that is ["GET"] or ["POST"] in any case, exactly one
    request is sent ([session.get] for ["GET"], [session.post] for
    ["POST"]), and its response or exception is what the function returns
    or raises. *)
Theorem perform_request_supported (method : string) (session_given add_delays fast_check : bool)
    (nav_r read_r : Q) (outcome : req_outcome) :
  Py.upper method = "GET" \/ Py.upper method = "POST" ->
  let r := perform_request method session_given add_delays fast_check nav_r read_r outcome in
  filter is_request_event (fst r) = [if String.eqb (Py.upper method) "GET" then EGet else EPost] /\
  snd r = outcome.
Proof.
  intros Hm. cbn zeta. unfold perform_request. cbn zeta.
  destruct Hm as [-> | ->]; cbn; destruct session_given, add_delays, fast_check, outcome;
    split; reflexivity.
Qed.

Lemma perform_request_supported_witness :
  (Py.upper "post" = "GET" \/ Py.upper "post" = "POST") /\
  let r := perform_request "post" true true true 0 0 (RRaise "ConnectionError") in
  filter is_request_event (fst r) = [EPost] /\ snd r = RRaise "ConnectionError".
Proof.
  split; [right; reflexivity|].
  apply (perform_request_supported "post" true true true 0 0 (RRaise "ConnectionError")).
  right; reflexivity.
Defined.

(** For any other [method], no request is sent and
    [ValueError(f"Unsupported HTTP method: {method}")] is raised, whatever
    the network would have answered; the session it created is still
    closed (see [perform_request_session]). *)
Theorem perform_request_unsupported (method : string) (session_given add_delays fast_check : bool)
    (nav_r read_r : Q) (outcome outcome' : req_outcome) :
  String.eqb (Py.upper method) "GET" = false -> String.eqb (Py.upper method) "POST" = false ->
  let r := perform_request method session_given add_delays fast_check nav_r read_r outcome in
  snd r = RValueError ("Unsupported HTTP method: " ++ method) /\
  filter is_request_event (fst r) = [] /\
  r = perform_request method session_given add_delays fast_check nav_r read_r outcome'.
Proof.
  intros Hg Hp. cbn zeta. unfold perform_request. cbn zeta. rewrite Hg, Hp. cbn.
  destruct session_given, add_delays, fast_check; (split; [reflexivity | split; reflexivity]).
Qed.

Lemma perform_request_unsupported_witness :
  String.eqb (Py.upper "delete") "GET" = false /\ String.eqb (Py.upper "delete") "POST" = false /\
  let r := perform_request "delete" false true false (1 # 4) 0 (ROk 100) in
  snd r = RValueError ("Unsupported HTTP method: " ++ "delete") /\
  filter is_request_event (fst r) = [] /\
  r = perform_request "delete" false true false (1 # 4) 0 (RRaise "Timeout").
Proof.
  split; [reflexivity|]. split; [reflexivity|].
  apply (perform_request_unsupported "delete" false true false (1 # 4) 0 (ROk 100) (RRaise "Timeout"));
    reflexivity.
Defined.

(** Every user agent of [generate_headers] gets a [Sec-Ch-Ua] header, and
    every Edge ([Edg/]) or Opera ([OPR/]) one gets the Google Chrome one:
    these user agents also contain [Chrome], which is tested first, so the
    Microsoft Edge and Opera branches are never taken. *)
Theorem generate_headers_sec_ch_ua (ua : string) :
  In ua user_agents ->
  sec_ch_ua ua <> None /\ (names_edge_or_opera ua = true -> gets_chrome_hint ua = true).
Proof.
  intros Hin.
  assert (Hall : forallb (fun u => match sec_ch_ua u with Some _ => true | None => false end &&
                                   implb (names_edge_or_opera u) (gets_chrome_hint u)) user_agents = true)
    by (vm_compute; reflexivity).
  rewrite forallb_forall in Hall. specialize (Hall ua Hin).
  apply andb_true_iff in Hall as [Hs He]. split.
  - destruct (sec_ch_ua ua); [discriminate | discriminate Hs].
  - intros Hn. rewrite Hn in He. exact He.
Qed.

Lemma generate_headers_sec_ch_ua_witness :
  let ua := "Mozilla/5.0 (Windows NT 10.0; Win64; x64) AppleWebKit/537.36 (KHTML, like Gecko) Chrome/120.0.0.0 Safari/537.36 Edg/120.0.0.0" in
  In ua user_agents /\ names_edge_or_opera ua = true /\
  sec_ch_ua ua <> None /\ gets_chrome_hint ua = true.
Proof.
  cbn zeta. split; [cbn; tauto|]. split; [vm_compute; reflexivity|].
  destruct (generate_headers_sec_ch_ua
    "Mozilla/5.0 (Windows NT 10.0; Win64; x64) AppleWebKit/537.36 (KHTML, like Gecko) Chrome/120.0.0.0 Safari/537.36 Edg/120.0.0.0")
    as [Hs He]; [cbn; tauto|].
  split; [exact Hs | apply He; vm_compute; reflexivity].
Defined.

End AntibotProps.

(* ------------------------------------------------------------------ *)
(** ** [check_proxy]: verdict and trace *)

Lemma trace_skip nw p w ws r :
  not_placeholder w = false -> check_trace_ok nw p ws r -> check_trace_ok nw p (w :: ws) r.
Proof.
  intros Hw (Hb & Hev & Hlen & Hfs & Hpre & Hall).
  assert (He : endpoint_ok nw w = false) by (unfold endpoint_ok; unfold not_placeholder in Hw; rewrite Hw; reflexivity).
  unfold check_trace_ok. cbn [existsb List.filter]. rewrite He, Hw. cbn [orb].
  repeat split; assumption.
Qed.

Lemma trace_fail nw p w ws b evs reason :
  not_placeholder w = true -> endpoint_ok nw w = false ->
  check_trace_ok nw p ws (b, evs) ->
  check_trace_ok nw p (w :: ws) (b, EvGet w :: EvStat (CallFailure p reason) :: evs).
Proof.
  intros Hw He (Hb & Hev & Hlen & (fs & Hfs & Hfa) & Hpre & Hall).
  cbn [fst snd] in *.
  unfold check_trace_ok. cbn [fst snd existsb List.filter]. rewrite He, Hw. cbn [orb].
  change (gets (EvGet w :: EvStat (CallFailure p reason) :: evs)) with (w :: gets evs).
  change (stat_calls (EvGet w :: EvStat (CallFailure p reason) :: evs))
    with (CallFailure p reason :: stat_calls evs).
  split; [exact Hb|]. split.
  { cbn [combine flat_map app fst snd]. do 2 f_equal. exact Hev. }
  split; [cbn; f_equal; exact Hlen|]. split.
  { exists (CallFailure p reason :: fs). split; [cbn; f_equal; exact Hfs|].
    constructor; [split; reflexivity | exact Hfa]. }
  split; [apply prefix_cons, Hpre|].
  intros Hf. f_equal. apply Hall, Hf.
Qed.

Lemma trace_succ nw p w ws :
  not_placeholder w = true -> endpoint_ok nw w = true ->
  check_trace_ok nw p (w :: ws) (true, [EvGet w; EvStat (CallSuccess p)]).
Proof.
  intros Hw He. unfold check_trace_ok. cbn [fst snd existsb List.filter]. rewrite He, Hw. cbn [orb].
  split; [reflexivity|]. split; [reflexivity|]. split; [reflexivity|]. split.
  { exists []. split; [reflexivity | constructor]. }
  split; [apply prefix_cons, prefix_nil | discriminate].
Qed.

Lemma check_loop_trace nw p ws : check_trace_ok nw p ws (check_loop nw p ws).
Proof.
  induction ws as [|w ws IH].
  - unfold check_trace_ok. cbn. split; [reflexivity|]. split; [reflexivity|].
    split; [reflexivity|]. split; [exists []; split; [reflexivity | constructor]|].
    split; [apply prefix_nil | reflexivity].
  - cbn [check_loop]. destruct (Py.startswith w "PLACEHOLDER") eqn:Hs.
    { apply trace_skip; [unfold not_placeholder; rewrite Hs; reflexivity | exact IH]. }
    assert (Hw : not_placeholder w = true) by (unfold not_placeholder; rewrite Hs; reflexivity).
    destruct (check_loop nw p ws) as [b evs] eqn:E.
    destruct (net_get nw w) as [e|code text] eqn:Hg.
    + apply trace_fail; [exact Hw | | exact IH].
      unfold endpoint_ok. rewrite Hs, Hg. reflexivity.
    + destruct (Z.eqb code 200) eqn:Hc; [destruct (Py.contains "amazon" w) eqn:Ha;
        [destruct (net_price_visible nw w) eqn:Hv|]|].
      * apply trace_succ; [exact Hw|]. unfold endpoint_ok. rewrite Hs, Hg, Hc, Ha, Hv. reflexivity.
      * apply trace_fail; [exact Hw | | exact IH].
        unfold endpoint_ok. rewrite Hs, Hg, Hc, Ha, Hv. reflexivity.
      * apply trace_succ; [exact Hw|]. unfold endpoint_ok. rewrite Hs, Hg, Hc, Ha. reflexivity.
      * apply trace_fail; [exact Hw | | exact IH].
        unfold endpoint_ok. rewrite Hs, Hg, Hc. reflexivity.
Qed.

(** [check_proxy] over a list of websites returns [True] exactly when
    the test of some website passes. Each website it tries, that is each
    [session.get] of a website made by [check_proxy] itself, is followed
    by one [ProxyStats] call about the proxy: [add_failure] for every
    website that failed, then [add_success] as the last call iff the
    result is [True]. The websites it tries are the first
    non-placeholder ones, in order, and all of them when the result is
    [False]. (For an Amazon website answering 200,
    [check_amazon_price_visibility] sends one more GET of its own, which
    is not among these requests.) *)
Theorem check_proxy_trace (nw : net) (p : Proxy) (ws : list string) :
  let '(b, evs) := check_proxy_on nw p ws in
  b = existsb (endpoint_ok nw) ws /\
  evs = flat_map (fun wc => [EvGet wc.1; EvStat wc.2]) (combine (gets evs) (stat_calls evs)) /\
  length (gets evs) = length (stat_calls evs) /\
  (exists fs, stat_calls evs = (fs ++ (if b then [CallSuccess p] else []))%list /\
              Forall (fun c => is_failure_call c = true /\ call_proxy c = p) fs) /\
  gets evs `prefix_of` List.filter not_placeholder ws /\
  (b = false -> gets evs = List.filter not_placeholder ws).
Proof.
  pose proof (check_loop_trace nw p ws) as H. unfold check_proxy_on.
  destruct (check_loop nw p ws) as [b evs]. exact H.
Qed.

Lemma apply_call_total st c : total_checked (apply_call st c) = S (total_checked st).
Proof.
  assert (Hi : forall proto, total_checked (init_protocol st proto) = total_checked st).
  { intros proto. unfold init_protocol. destruct (by_protocol st !! proto); reflexivity. }
  destruct c as [p|p r]; cbn [apply_call]; [unfold add_success | unfold add_failure];
    cbn [total_checked]; rewrite Hi; reflexivity.
Qed.

Lemma run_calls_total cs st : total_checked (run_calls st cs) = (total_checked st + length cs)%nat.
Proof.
  revert st. induction cs as [|c cs IH]; intros st; [cbn; lia|].
  change (run_calls st (c :: cs)) with (run_calls (apply_call st c) cs).
  rewrite IH, apply_call_total. cbn [length]. lia.
Qed.

Lemma filter_successes_failures (fs : list stat_call) (P : stat_call -> Prop) :
  Forall (fun c => is_failure_call c = true /\ P c) fs ->
  filter (fun c => is_failure_call c = false) fs = [].
Proof.
  induction 1 as [|c fs [Hc _] _ IH]; [reflexivity|].
  rewrite filter_cons_False by congruence. exact IH.
Qed.

Lemma check_proxy_successes nw p ws :
  length (filter (fun c => is_failure_call c = false) (stat_calls (snd (check_proxy_on nw p ws))))
  = (if fst (check_proxy_on nw p ws) then 1 else 0)%nat.
Proof.
  destruct (check_loop_trace nw p ws) as (_ & _ & _ & (fs & Hfs & Hfa) & _).
  unfold check_proxy_on. rewrite Hfs, filter_app, (filter_successes_failures fs _ Hfa).
  destruct (fst (check_loop nw p ws)); reflexivity.
Qed.

(** The figures of the summary after the worker threads have checked the
    proxies [ps], each with [check_proxy] on its own network conditions,
    whatever the order in which the threads' [add_success]/[add_failure]
    calls reach the shared [ProxyStats]: [total_working] is the number of
    proxies for which [check_proxy] returned [True] (the number put in the
    callback queue), and [total_checked] the total number of websites
    tried, over all proxies (the [session.get] calls of [check_proxy]
    itself, not counting the extra request of
    [check_amazon_price_visibility]), not the number of proxies. *)
Theorem stats_of_check_runs (nw : Proxy -> net) (ws : list string) (ps : list Proxy)
    (cs : list stat_call) :
  cs ≡ₚ flat_map (fun p => stat_calls (snd (check_proxy_on (nw p) p ws))) ps ->
  let st := run_calls ProxyStats_new cs in
  total_working st = length (List.filter (fun p => fst (check_proxy_on (nw p) p ws)) ps) /\
  total_checked st = sum_list_with (fun p => length (gets (snd (check_proxy_on (nw p) p ws)))) ps.
Proof.
  intros Hperm. cbn zeta.
  destruct (run_calls_sums cs ProxyStats_new) as [Hw _].
  split.
  - change (total_working (run_calls ProxyStats_new cs))
      with (msum working (by_protocol (run_calls ProxyStats_new cs))).
    rewrite Hw. change (msum working (by_protocol ProxyStats_new)) with 0%nat. cbn [Nat.add].
    rewrite (Permutation_length (filter_Permutation _ _ _ Hperm)).
    clear Hperm Hw. induction ps as [|p ps IH]; [reflexivity|].
    cbn [flat_map List.filter]. rewrite filter_app, length_app, IH, check_proxy_successes.
    destruct (fst (check_proxy_on (nw p) p ws)); reflexivity.
  - rewrite run_calls_total, (Permutation_length Hperm). change (total_checked ProxyStats_new) with 0%nat. cbn [Nat.add].
    clear Hperm Hw. induction ps as [|p ps IH]; [reflexivity|].
    cbn [flat_map sum_list_with]. rewrite length_app, IH.
    destruct (check_loop_trace (nw p) p ws) as (_ & _ & Hlen & _).
    unfold check_proxy_on. rewrite Hlen. reflexivity.
Qed.

Lemma stats_of_check_runs_witness :
  let p1 := mkProxy "http" "1.2.3.4:80" "1.2.3.4" 80 "http://1.2.3.4:80" in
  let p2 := mkProxy "socks5" "5.6.7.8:1080" "5.6.7.8" 1080 "socks5://5.6.7.8:1080" in
  let nw := fun p => if String.eqb (address p) "1.2.3.4:80"
                     then mkNet (fun _ => RResp 200 "ok") (fun _ => true)
                     else mkNet (fun _ => RExn "ProxyError") (fun _ => false) in
  let cs := flat_map (fun p => stat_calls (snd (check_proxy_on (nw p) p TEST_WEBSITES))) [p1; p2] in
  cs ≡ₚ cs /\
  total_working (run_calls ProxyStats_new cs) = 1%nat /\
  total_checked (run_calls ProxyStats_new cs) = 6%nat.
Proof.
  cbn zeta. split; [reflexivity|].
  match goal with |- context [run_calls ProxyStats_new ?c] => set (cs := c) end.
  destruct (stats_of_check_runs
    (fun p => if String.eqb (address p) "1.2.3.4:80"
              then mkNet (fun _ => RResp 200 "ok") (fun _ => true)
              else mkNet (fun _ => RExn "ProxyError") (fun _ => false))
    TEST_WEBSITES
    [mkProxy "http" "1.2.3.4:80" "1.2.3.4" 80 "http://1.2.3.4:80";
     mkProxy "socks5" "5.6.7.8:1080" "5.6.7.8" 1080 "socks5://5.6.7.8:1080"] cs)
    as [Hw Hc]; [reflexivity|].
  rewrite Hw, Hc. split; vm_compute; reflexivity.
Defined.

(* ------------------------------------------------------------------ *)
(** ** The worker pool: where each proxy is *)

Lemma omap_insert_split {A B} (f : A -> option B) (l : list A) i x y :
  l !! i = Some x ->
  omap f l = (omap f (take i l) ++ omap f [x] ++ omap f (drop (S i) l))%list /\
  omap f (<[i:=y]> l) = (omap f (take i l) ++ omap f [y] ++ omap f (drop (S i) l))%list.
Proof.
  intros H. pose proof (lookup_lt_Some _ _ _ H) as Hlt. split.
  - transitivity (omap f (take i l ++ x :: drop (S i) l)%list); [rewrite take_drop_middle; auto|].
    rewrite omap_app. f_equal. change (x :: drop (S i) l) with ([x] ++ drop (S i) l)%list.
    apply omap_app.
  - rewrite insert_take_drop by exact Hlt.
    rewrite omap_app. f_equal. change (y :: drop (S i) l) with ([y] ++ drop (S i) l)%list.
    apply omap_app.
Qed.

Lemma queued_proxies_exits n : queued_proxies (repeat IExit n) = [].
Proof. induction n as [|n IH]; [reflexivity | exact IH]. Qed.

Lemma pool_step_accounting proxies s s' :
  pool_accounting proxies s -> pool_step s s' -> pool_accounting proxies s'.
Proof.
  intros [Hsub Hsuf] Hst.
  destruct Hst as [s i n p q Hw Hq | s i n q Hw Hq | s i n p b Hw | s Hm Hq | s Hm];
    unfold pool_accounting in *; cbn [callback_queue workers proxy_queue] in *.
  - destruct (omap_insert_split (fun w => match wst w with WChecking p => Some p | _ => None end)
                (workers s) i _ (mkWorker (WChecking p) n) Hw) as [E1 E2].
    unfold checking_proxies in *. rewrite E2. rewrite E1 in Hsub.
    unfold queued_proxies in *. rewrite Hq in Hsub, Hsuf. cbn in Hsub, Hsuf |- *.
    split.
    + etrans; [|exact Hsub]. apply Permutation_submseteq. solve_Permutation.
    + etrans; [apply suffix_cons_r; reflexivity | exact Hsuf].
  - destruct (omap_insert_split (fun w => match wst w with WChecking p => Some p | _ => None end)
                (workers s) i _ (mkWorker WExited (S n)) Hw) as [E1 E2].
    unfold checking_proxies in *. rewrite E2. rewrite E1 in Hsub.
    unfold queued_proxies in *. rewrite Hq in Hsub, Hsuf. cbn in Hsub, Hsuf |- *.
    split; assumption.
  - destruct (omap_insert_split (fun w => match wst w with WChecking p => Some p | _ => None end)
                (workers s) i _ (mkWorker WWaiting n) Hw) as [E1 E2].
    unfold checking_proxies in *. rewrite E2. rewrite E1 in Hsub. cbn in Hsub |- *.
    split; [|exact Hsuf].
    etrans; [|exact Hsub]. destruct b.
    + apply Permutation_submseteq. rewrite <- !app_assoc. solve_Permutation.
    + rewrite app_nil_r. apply submseteq_skips_l.
      apply submseteq_skips_r. apply submseteq_skips_l. apply submseteq_cons, reflexivity.
  - split; assumption.
  - unfold cleanup_workers, queued_proxies in *. rewrite omap_app.
    fold (queued_proxies (repeat IExit (nworkers s))). rewrite queued_proxies_exits, app_nil_r.
    split; assumption.
Qed.

Lemma reachable_accounting proxies n s :
  reachable (pool_init proxies n) s -> pool_accounting proxies s.
Proof.
  induction 1 as [|s s' _ IH Hst].
  - unfold pool_accounting, pool_init. cbn [callback_queue workers proxy_queue].
    assert (Hc : checking_proxies (repeat (mkWorker WWaiting 0) n) = []).
    { induction n as [|n IHn]; [reflexivity | exact IHn]. }
    assert (Hq : queued_proxies (map ICand proxies) = proxies).
    { induction proxies as [|p ps IHp]; [reflexivity|]. cbn. f_equal. exact IHp. }
    rewrite Hc, Hq. split; reflexivity.
  - exact (pool_step_accounting proxies s s' IH Hst).
Qed.

(** In every state of a run of the worker pool started by
    [setup_worker_threads] on [proxies] with [n] threads: no proxy is ever
    duplicated (the callback queue, the proxies being checked and those
    still queued form a sub-multiset of [proxies]), and the threads take
    the proxies in the order of the (shuffled) list, the queued ones being
    always its last ones. When no thread can move any more and at least
    one thread was started, no proxy is left queued or being checked and
    the main thread is past [cleanup_workers]. *)
Theorem worker_pool_accounting (proxies : list Proxy) (n : nat) (s : pool) :
  reachable (pool_init proxies n) s ->
  (callback_queue s ++ checking_proxies (workers s) ++ queued_proxies (proxy_queue s))%list ⊆+ proxies /\
  queued_proxies (proxy_queue s) `suffix_of` proxies /\
  ((0 < n)%nat -> terminal s ->
     checking_proxies (workers s) = [] /\ queued_proxies (proxy_queue s) = [] /\ main s = MDone).
Proof.
  intros Hr. destruct (reachable_accounting _ _ _ Hr) as [Hsub Hsuf].
  split; [exact Hsub|]. split; [exact Hsuf|].
  intros Hn Ht.
  pose proof (reachable_inv _ _ _ Hr) as Hinv.
  pose proof (reachable_nworkers _ _ _ Hr) as Hnw.
  pose proof Hinv as (Hlen & Hf & Hcnt & Hq).
  pose proof (terminal_all_exited s Hinv Ht) as Hex.
  assert (Hc : checking_proxies (workers s) = []).
  { clear - Hex. unfold checking_proxies. induction Hex as [|w ws [Hw _] _ IH]; [reflexivity|].
    cbn. rewrite Hw. exact IH. }
  assert (Hts : total_seen (workers s) = length (workers s)).
  { clear - Hex. induction Hex as [|w ws [_ Hw] _ IH]; [reflexivity|].
    change (total_seen (w :: ws)) with (sentinels_seen w + total_seen ws)%nat.
    rewrite Hw, IH. reflexivity. }
  split; [exact Hc|].
  destruct (main s) eqn:Hm.
  - exfalso. cbn in Hcnt. lia.
  - exfalso. exact (Ht _ (step_cleanup s Hm)).
  - split; [|reflexivity].
    assert (Hall : Forall (fun x => is_exit x = true) (proxy_queue s)) by (apply Hq; discriminate).
    clear - Hall. unfold queued_proxies. induction Hall as [|x q Hx _ IH]; [reflexivity|].
    destruct x; [discriminate | exact IH].
Qed.

Lemma worker_pool_accounting_witness :
  let p0 := mkProxy "http" "1.2.3.4:80" "1.2.3.4" 80 "http://1.2.3.4:80" in
  let s5 := mkPool [] [mkWorker WExited 1] [p0] MDone 1 in
  reachable (pool_init [p0] 1) s5 /\
  ((callback_queue s5 ++ checking_proxies (workers s5) ++ queued_proxies (proxy_queue s5))%list ⊆+ [p0]) /\
  queued_proxies (proxy_queue s5) `suffix_of` [p0] /\
  ((0 < 1)%nat -> terminal s5 ->
     checking_proxies (workers s5) = [] /\ queued_proxies (proxy_queue s5) = [] /\ main s5 = MDone).
Proof.
  cbn zeta.
  set (p0 := mkProxy "http" "1.2.3.4:80" "1.2.3.4" 80 "http://1.2.3.4:80").
  set (s0 := pool_init [p0] 1).
  set (s1 := mkPool [] [mkWorker (WChecking p0) 0] [] MMonitor 1).
  set (s2 := mkPool [] [mkWorker (WChecking p0) 0] [] MAfterMonitor 1).
  set (s3 := mkPool [IExit] [mkWorker (WChecking p0) 0] [] MDone 1).
  set (s4 := mkPool [IExit] [mkWorker WWaiting 0] [p0] MDone 1).
  set (s5 := mkPool [] [mkWorker WExited 1] [p0] MDone 1).
  assert (H1 : reachable s0 s1).
  { eapply reach_step; [apply reach_refl | exact (step_take_cand s0 0 0 p0 [] eq_refl eq_refl)]. }
  assert (H2 : reachable s0 s2).
  { eapply reach_step; [exact H1 | exact (step_monitor_done s1 eq_refl eq_refl)]. }
  assert (H3 : reachable s0 s3).
  { eapply reach_step; [exact H2 | exact (step_cleanup s2 eq_refl)]. }
  assert (H4 : reachable s0 s4).
  { eapply reach_step; [exact H3 | exact (step_finish s3 0 0 p0 true eq_refl)]. }
  assert (H5 : reachable s0 s5).
  { eapply reach_step; [exact H4 | exact (step_take_exit s4 0 0 [] eq_refl eq_refl)]. }
  split; [exact H5|].
  apply (worker_pool_accounting [p0] 1 s5 H5).
Defined.

Lemma reach_step_eq s0 s s' s'' :
  reachable s0 s -> pool_step s s' -> s' = s'' -> reachable s0 s''.
Proof. intros H1 H2 ->. exact (reach_step s0 s s'' H1 H2). Qed.

(** Thread 0 takes the proxies [ps] one after the other and finds each of
    them not working. *)
Lemma pool_drain s0 ps q ws cb m k :
  ws !! 0%nat = Some (mkWorker WWaiting 0) ->
  reachable s0 (mkPool (map ICand ps ++ q)%list ws cb m k) ->
  reachable s0 (mkPool q ws cb m k).
Proof.
  intros Hw. induction ps as [|a ps IH]; intros Hr; [exact Hr|].
  apply IH.
  pose proof (lookup_lt_Some _ _ _ Hw) as Hlt.
  set (s1 := mkPool (map ICand ps ++ q)%list (<[0%nat := mkWorker (WChecking a) 0]> ws) cb m k).
  assert (H1 : reachable s0 s1).
  { eapply reach_step; [exact Hr|].
    exact (step_take_cand (mkPool (map ICand (a :: ps) ++ q)%list ws cb m k) 0 0 a _ Hw eq_refl). }
  eapply reach_step_eq; [exact H1 | apply (step_finish s1 0 0 a false) |].
  - cbn. apply list_lookup_insert_eq, Hlt.
  - cbn. rewrite list_insert_insert_eq, (list_insert_id _ _ _ Hw), app_nil_r. reflexivity.
Qed.

Lemma collect_results_none_working ps : snd (collect_results [] ps) = ps.
Proof.
  unfold collect_results. cbn. induction ps as [|p ps IH]; [reflexivity|].
  rewrite filter_cons_True by apply not_elem_of_nil. f_equal. exact IH.
Qed.

(** [main] calls [collect_results] as soon as [monitor_progress] sees the
    queue empty, without waiting for the threads: for any proxies and any
    number of threads, a run can reach the point where [collect_results]
    drains an empty callback queue, and so puts every proxy, the last one
    [p] included, in [failed_proxies] (which [update_blacklist] then
    writes to the blacklist), while [p] is still being checked; the next
    step of that thread then reports [p] as working, too late. *)
Theorem collect_results_before_workers_finish (ps : list Proxy) (p : Proxy) (n : nat) :
  (0 < n)%nat ->
  exists s s',
    reachable (pool_init (ps ++ [p])%list n) s /\ main s = MAfterMonitor /\
    callback_queue s = [] /\ In p (checking_proxies (workers s)) /\
    snd (collect_results (callback_queue s) (ps ++ [p])%list) = (ps ++ [p])%list /\
    pool_step s s' /\ callback_queue s' = [p] /\ reachable (pool_init (ps ++ [p])%list n) s'.
Proof.
  intros Hn. destruct n as [|k]; [lia|].
  set (W := mkWorker WWaiting 0).
  set (s0 := pool_init (ps ++ [p])%list (S k)).
  assert (Hw : (W :: repeat W k) !! 0%nat = Some W) by reflexivity.
  assert (H1 : reachable s0 (mkPool (map ICand [p]) (W :: repeat W k) [] MMonitor (S k))).
  { apply (pool_drain s0 ps _ _ _ _ _ Hw).
    unfold s0, pool_init. rewrite map_app. apply reach_refl. }
  set (s1 := mkPool [] (mkWorker (WChecking p) 0 :: repeat W k) [] MMonitor (S k)).
  assert (H2 : reachable s0 s1).
  { eapply reach_step; [exact H1|].
    exact (step_take_cand (mkPool (map ICand [p]) (W :: repeat W k) [] MMonitor (S k)) 0 0 p [] Hw eq_refl). }
  set (s2 := mkPool [] (mkWorker (WChecking p) 0 :: repeat W k) [] MAfterMonitor (S k)).
  assert (H3 : pool_step s1 s2) by exact (step_monitor_done s1 eq_refl eq_refl).
  set (s3 := mkPool [] (W :: repeat W k) [p] MAfterMonitor (S k)).
  assert (H4 : pool_step s2 s3) by exact (step_finish s2 0 0 p true eq_refl).
  exists s2, s3.
  split; [exact (reach_step _ _ _ H2 H3)|].
  split; [reflexivity|]. split; [reflexivity|]. split; [left; reflexivity|].
  split; [apply collect_results_none_working|].
  split; [exact H4|]. split; [reflexivity|].
  exact (reach_step _ _ _ (reach_step _ _ _ H2 H3) H4).
Qed.

Lemma collect_results_before_workers_finish_witness :
  let p1 := mkProxy "http" "1.2.3.4:80" "1.2.3.4" 80 "http://1.2.3.4:80" in
  let p2 := mkProxy "socks5" "5.6.7.8:1080" "5.6.7.8" 1080 "socks5://5.6.7.8:1080" in
  (0 < 4)%nat /\
  exists s s',
    reachable (pool_init ([p1] ++ [p2])%list 4) s /\ main s = MAfterMonitor /\
    callback_queue s = [] /\ In p2 (checking_proxies (workers s)) /\
    snd (collect_results (callback_queue s) ([p1] ++ [p2])%list) = ([p1] ++ [p2])%list /\
    pool_step s s' /\ callback_queue s' = [p2] /\ reachable (pool_init ([p1] ++ [p2])%list 4) s'.
Proof.
  cbn zeta. split; [lia|].
  apply (collect_results_before_workers_finish
           [mkProxy "http" "1.2.3.4:80" "1.2.3.4" 80 "http://1.2.3.4:80"]
           (mkProxy "socks5" "5.6.7.8:1080" "5.6.7.8" 1080 "socks5://5.6.7.8:1080") 4).
  lia.
Defined.

(* ------------------------------------------------------------------ *)
(** ** [update_readme_with_results]: an existing results heading *)

(** With a [## Recent Results] line preceded only by ordinary lines [A],
    [update_readme_with_results] keeps [A] and puts the new section after
    it, dropping every line after the old heading. The heading comes
    before any [Working proxies will be saved to] line, so [insert_index]
    becomes [results_start_index], and the new file is
    [readme_lines[:insert_index] + results_section]: whatever the search
    for the end of the old section finds, the lines [B] after the heading
    are lost, the marker line and any later section included. *)
Theorem update_readme_drops_after_heading (A B sec : list string) :
  Forall (fun x => readme_line_ok x = true) A ->
  update_readme_lines (A ++ RESULTS_HEADING :: B)%list sec = (A ++ sec)%list.
Proof.
  intros HA. set (L := (A ++ RESULTS_HEADING :: B)%list).
  assert (Hh : find_index (fun line => String.eqb (Py.strip line) RESULTS_HEADING) L = Some (length A)).
  { unfold L. rewrite find_index_app_none by (apply readme_line_ok_heading, HA).
    transitivity (Some (length A + 0)%nat); [reflexivity | f_equal; lia]. }
  assert (Hi : (length A <? match find_index (fun line => Py.contains README_MARKER line) L with
                            | Some i => S i | None => length L end)%nat = true).
  { apply Nat.ltb_lt. unfold L. rewrite find_index_app_none by (apply readme_line_ok_marker, HA).
    cbn [find_index]. change (Py.contains README_MARKER RESULTS_HEADING) with false. cbn [option_map].
    destruct (find_index (fun line => Py.contains README_MARKER line) B); cbn;
      rewrite ?length_app; cbn; lia. }
  assert (Hn : nth (length A) L "" = RESULTS_HEADING) by (unfold L; apply nth_middle).
  assert (He : match List.find (fun _ => Py.startswith RESULTS_HEADING "## ")
                       (seq (S (length A)) (length L - S (length A))) with
               | Some i => i | None => length L end = S (length A)).
  { unfold L. rewrite length_app. cbn [length].
    replace (length A + S (length B) - S (length A))%nat with (length B) by lia.
    destruct B as [|b B']; cbn -[Py.startswith]; [lia|].
    change (Py.startswith RESULTS_HEADING "## ") with true. reflexivity. }
  unfold update_readme_lines. fold L. rewrite Hh. cbn zeta. rewrite Hn, He, Hi.
  assert (Ht : take (length A) L = A) by (unfold L; apply take_app_length'; reflexivity).
  rewrite Ht, take_app_length' by reflexivity. reflexivity.
Qed.

Lemma update_readme_drops_after_heading_witness :
  Forall (fun x => readme_line_ok x = true) ["# Proxy checker"; ""] /\
  update_readme_lines (["# Proxy checker"; ""] ++
      RESULTS_HEADING :: ["old results"; "## Usage"; "Working proxies will be saved to x"])%list
    (results_section ["new"])
  = (["# Proxy checker"; ""] ++ results_section ["new"])%list.
Proof.
  split; [apply Forall_of_forallb; vm_compute; reflexivity|].
  apply update_readme_drops_after_heading. apply Forall_of_forallb; vm_compute; reflexivity.
Defined.

(* ------------------------------------------------------------------ *)
(** ** [Proxy.__init__]: extra fields *)




(* ------------------------------------------------------------------ *)
(** ** [simulate_human_browsing_sequence] and
    [check_connectivity_and_price_visibility] *)

Section BrowsingProps.

Local Open Scope Q_scope.

Import Antibot Browsing.

Lemma perform_get_quiet o : fst (perform_request "GET" true false false 0 0 o) = [EGet].
Proof. destruct o; reflexivity. Qed.

Lemma filter_negb_all (f : req_event -> bool) (l : list req_event) :
  Forall (fun e => f e = false) l -> filter (fun e => negb (f e)) l = l.
Proof.
  induction 1 as [|e l He _ IH]; [reflexivity|].
  rewrite filter_cons_True by (rewrite He; exact I). f_equal. exact IH.
Qed.

Lemma browse_loop_no_session i vs resp :
  Forall (fun e => is_session_event e = false) (fst (browse_loop i vs resp)).
Proof.
  revert i resp. induction vs as [|v vs IH]; intros i resp; cbn [browse_loop]; [constructor|].
  rewrite perform_get_quiet.
  destruct (v_page v) as [text|e].
  - destruct (browse_loop (S i) vs (<[v_url v:=text]> resp)) as [evs r] eqn:E.
    specialize (IH (S i) (<[v_url v:=text]> resp)). rewrite E in IH. cbn [fst] in *.
    repeat apply Forall_app_2; try exact IH; [destruct (Nat.ltb 0 i)|..]; repeat constructor.
  - cbn [fst]. apply Forall_app_2; [destruct (Nat.ltb 0 i)|]; repeat constructor.
Qed.

Lemma texts_for_cons u v vs :
  texts_for u (v :: vs)
  = ((if String.eqb (v_url v) u
      then match v_page v with PText t => [t] | PRaise _ => [] end else []) ++ texts_for u vs)%list.
Proof. unfold texts_for. cbn. destruct (String.eqb (v_url v) u), (v_page v); reflexivity. Qed.

Lemma browse_loop_ok i vs resp :
  (0 < i)%nat -> Forall (fun v => page_ok (v_page v) = true) vs ->
  let evs := fst (browse_loop i vs resp) in
  filter is_request_event evs = repeat EGet (length vs) /\
  length (sleeps evs) = (2 * length vs)%nat /\
  inject_Z (5 * Z.of_nat (length vs)) <= sum_Q (sleeps evs) /\
  sum_Q (sleeps evs) <= inject_Z (15 * Z.of_nat (length vs)) /\
  (forall u, match snd (browse_loop i vs resp) with
             | inr resp' => resp' !! u = match last (texts_for u vs) with
                                         | Some t => Some t
                                         | None => resp !! u
                                         end
             | inl _ => False
             end).
Proof.
  intros Hi Hok. revert i resp Hi. induction Hok as [|v vs Hv Hok IH]; intros i resp Hi.
  - cbn. repeat split; apply Qle_bool_imp_le; reflexivity.
  - cbn [browse_loop]. rewrite perform_get_quiet.
    destruct (v_page v) as [text|e] eqn:Ep; [|discriminate Hv].
    destruct (browse_loop (S i) vs (<[v_url v:=text]> resp)) as [evs r] eqn:E.
    destruct (IH (S i) (<[v_url v:=text]> resp) ltac:(lia)) as (H1 & H2 & H3 & H4 & H5).
    rewrite E in H1, H2, H3, H4, H5. cbn [fst snd] in *.
    replace (Nat.ltb 0 i) with true by (symmetry; apply Nat.ltb_lt; exact Hi).
    pose proof (think_time_bounds (v_think v)) as [T1 T2].
    pose proof (reading_time_bounds (Z.of_nat (String.length text)) (v_read v)) as [R1 R2].
    set (tt := think_time (v_think v)) in *. set (rt := reading_time _ (v_read v)) in *.
    clearbody tt rt.
    change ([ESleep tt] ++ [EGet] ++ [ESleep rt] ++ evs)%list
      with (ESleep tt :: EGet :: ESleep rt :: evs).
    change (sleeps (ESleep tt :: EGet :: ESleep rt :: evs)) with (tt :: rt :: sleeps evs).
    cbn [length]. split; [|split; [|split; [|split]]].
    + rewrite filter_cons_False by (intros []). rewrite filter_cons_True by exact I.
      rewrite filter_cons_False by (intros []). rewrite H1. reflexivity.
    + cbn [length]. rewrite H2. lia.
    + unfold sum_Q in *. cbn [fold_right].
      rewrite Nat2Z.inj_succ, Z.mul_succ_r, inject_Z_plus.
      replace (inject_Z 5) with 5 by reflexivity. lra.
    + unfold sum_Q in *. cbn [fold_right].
      rewrite Nat2Z.inj_succ, Z.mul_succ_r, inject_Z_plus.
      replace (inject_Z 15) with 15 by reflexivity. lra.
    + intros u. specialize (H5 u). destruct r as [e|resp']; [exact H5|].
      rewrite H5, texts_for_cons, Ep.
      destruct (String.eqb (v_url v) u) eqn:Eu.
      * apply String.eqb_eq in Eu. subst u. cbn [app]. rewrite last_cons.
        destruct (last _); [reflexivity|]. apply lookup_insert_eq.
      * apply String.eqb_neq in Eu. cbn [app]. destruct (last _); [reflexivity|].
        apply lookup_insert_ne. exact Eu.
Qed.

Lemma sleeps_app l1 l2 : sleeps (l1 ++ l2) = (sleeps l1 ++ sleeps l2)%list.
Proof. unfold sleeps. apply omap_app. Qed.

Lemma requests_cons_sleep d l :
  filter is_request_event (ESleep d :: l) = filter is_request_event l.
Proof. apply filter_cons_False. intros []. Qed.

Lemma sleeps_cons_sleep d l : sleeps (ESleep d :: l) = d :: sleeps l.
Proof. reflexivity. Qed.

Lemma browse_loop_raise i pre v post resp e :
  Forall (fun w => page_ok (v_page w) = true) pre -> v_page v = PRaise e ->
  let r := browse_loop i (pre ++ v :: post) resp in
  snd r = inl e /\
  filter is_request_event (fst r) = repeat EGet (S (length pre)) /\
  length (sleeps (fst r)) = (2 * length pre + if Nat.ltb 0 i then 1 else 0)%nat.
Proof.
  intros Hok He. revert i resp. induction Hok as [|w pre Hw Hok IH]; intros i resp.
  - cbn [app browse_loop]. rewrite perform_get_quiet, He. cbn [fst snd].
    split; [reflexivity|]. rewrite filter_app, sleeps_app, length_app.
    destruct (Nat.ltb 0 i); split; reflexivity.
  - cbn [app browse_loop]. rewrite perform_get_quiet.
    destruct (v_page w) as [text|e'] eqn:Ep; [|discriminate Hw].
    destruct (browse_loop (S i) (pre ++ v :: post) (<[v_url w:=text]> resp)) as [evs r] eqn:E.
    destruct (IH (S i) (<[v_url w:=text]> resp)) as (H1 & H2 & H3).
    rewrite E in H1, H2, H3. cbn [fst snd] in *. split; [exact H1|].
    rewrite !filter_app, requests_cons_sleep, H2.
    rewrite !sleeps_app, sleeps_cons_sleep, !length_app. cbn [length]. rewrite H3.
    destruct (Nat.ltb 0 i); split; try reflexivity; cbn; lia.
Qed.

Lemma sleeps_cons e l :
  sleeps (e :: l) = match e with ESleep d => d :: sleeps l | _ => sleeps l end.
Proof. destruct e; reflexivity. Qed.

Ltac filter_simpl :=
  repeat first [ rewrite filter_nil
               | rewrite filter_app
               | rewrite filter_cons_True by exact I
               | rewrite filter_cons_False by (intros []) ].

Lemma simulate_nonempty given vs :
  vs <> [] ->
  simulate_human_browsing_sequence given vs
  = let '(evs, r) := browse_loop 0 vs ∅ in
    match r with
    | inl e => ((if given then [] else [ESetupSession]) ++ evs
                ++ (if negb given then [EClose] else []), inl e)%list
    | inr responses => (((if given then [] else [ESetupSession]) ++ evs)%list, inr responses)
    end.
Proof. destruct vs as [|v vs]; [congruence|reflexivity]. Qed.

Lemma simulate_given_no_session vs :
  Forall (fun e => is_session_event e = false) (fst (simulate_human_browsing_sequence true vs)).
Proof.
  destruct vs as [|v vs]; [constructor|].
  rewrite simulate_nonempty by discriminate.
  pose proof (browse_loop_no_session 0 (v :: vs) ∅) as H.
  destruct (browse_loop 0 (v :: vs) ∅) as [evs [e|resp]]; cbn [fst] in *;
    rewrite ?app_nil_r; exact H.
Qed.

(** [simulate_human_browsing_sequence] creates a session iff it is given
    none, and closes the session it created only when a request raises,
    as its last action; when it returns (also for an empty [urls]) the
    session it created is left open, handed to the caller in the result.
    A session it is given is never closed. *)
Theorem simulate_human_browsing_sequence_session (session_given : bool) (vs : list visit) :
  let r := simulate_human_browsing_sequence session_given vs in
  fst r = (if session_given then filter (fun e => negb (is_session_event e)) (fst r)
           else ESetupSession :: filter (fun e => negb (is_session_event e)) (fst r)
                  ++ match snd r with inl _ => [EClose] | inr _ => [] end)%list.
Proof.
  cbn zeta. destruct vs as [|v vs]; [destruct session_given; reflexivity|].
  rewrite simulate_nonempty by discriminate.
  pose proof (browse_loop_no_session 0 (v :: vs) ∅) as H.
  destruct (browse_loop 0 (v :: vs) ∅) as [evs [e|resp]]; cbn [fst] in H;
    destruct session_given; cbn [fst snd negb app];
    rewrite ?filter_cons_False, ?filter_app, ?filter_negb_all by (exact H || intros []);
    rewrite ?app_nil_r; try reflexivity.
Qed.

(** When every page answers, [simulate_human_browsing_sequence] on [n > 0]
    urls makes one GET per url and [2n - 1] sleeps ([think_time] between
    two pages, [reading_time] after each), from [5n - 2] to [15n - 5]
    seconds in all; the [responses] it returns map each url to the last
    response received for it: a repeated url keeps only its last response,
    and the dict has no other url. *)
Theorem simulate_human_browsing_sequence_ok (session_given : bool) (vs : list visit) :
  vs <> [] -> Forall (fun v => page_ok (v_page v) = true) vs ->
  let r := simulate_human_browsing_sequence session_given vs in
  let n := length vs in
  filter is_request_event (fst r) = repeat EGet n /\
  length (sleeps (fst r)) = (2 * n - 1)%nat /\
  inject_Z (5 * Z.of_nat n - 2) <= sum_Q (sleeps (fst r)) /\
  sum_Q (sleeps (fst r)) <= inject_Z (15 * Z.of_nat n - 5) /\
  exists responses, snd r = inr responses /\ forall u, responses !! u = last (texts_for u vs).
Proof.
  intros Hne Hok. cbn zeta. rewrite simulate_nonempty by exact Hne.
  destruct vs as [|v vs]; [congruence|]. apply Forall_cons in Hok as [Hv Hok].
  cbn [browse_loop]. rewrite perform_get_quiet.
  destruct (v_page v) as [text|e] eqn:Ep; [|discriminate Hv].
  destruct (browse_loop 1 vs (<[v_url v:=text]> ∅)) as [evs r] eqn:E.
  destruct (browse_loop_ok 1 vs (<[v_url v:=text]> ∅) ltac:(lia) Hok) as (H1 & H2 & H3 & H4 & H5).
  rewrite E in H1, H2, H3, H4, H5. cbn [fst snd] in *.
  destruct r as [e|resp']; [destruct (H5 EmptyString)|].
  pose proof (reading_time_bounds (Z.of_nat (String.length text)) (v_read v)) as [R1 R2].
  set (rt := reading_time _ (v_read v)) in *. clearbody rt.
  cbn [Nat.ltb Nat.leb app].
  assert (Hs : sleeps ((if session_given then [] else [ESetupSession]) ++ EGet :: ESleep rt :: evs)%list
               = rt :: sleeps evs) by (destruct session_given; reflexivity).
  assert (Hq : filter is_request_event ((if session_given then [] else [ESetupSession]) ++ EGet :: ESleep rt :: evs)%list
               = EGet :: filter is_request_event evs).
  { rewrite filter_app, filter_cons_True by exact I. rewrite requests_cons_sleep.
    destruct session_given; reflexivity. }
  cbn [fst snd]. rewrite Hs, Hq, H1. cbn [length].
  split; [reflexivity|]. split; [rewrite H2; lia|].
  unfold sum_Q in *. cbn [fold_right].
  rewrite Nat2Z.inj_succ, !Z.mul_succ_r.
  replace (5 * Z.of_nat (length vs) + 5 - 2)%Z with (5 * Z.of_nat (length vs) + 3)%Z by lia.
  replace (15 * Z.of_nat (length vs) + 15 - 5)%Z with (15 * Z.of_nat (length vs) + 10)%Z by lia.
  rewrite !inject_Z_plus.
  replace (inject_Z 3) with 3 by reflexivity. replace (inject_Z 10) with 10 by reflexivity.
  split; [lra|]. split; [lra|].
  exists resp'. split; [reflexivity|]. intros u. rewrite H5, texts_for_cons, Ep.
  destruct (String.eqb (v_url v) u) eqn:Eu; cbn [app].
  - apply String.eqb_eq in Eu. subst u. rewrite last_cons.
    destruct (last _); [reflexivity|]. apply lookup_insert_eq.
  - apply String.eqb_neq in Eu. destruct (last _); [reflexivity|].
    rewrite lookup_insert_ne by exact Eu. apply lookup_empty.
Qed.

Lemma simulate_human_browsing_sequence_ok_witness :
  let vs := [mkVisit "https://example.com/a" (7 # 2) (1 # 2) (PText "first");
             mkVisit "https://example.com/a" 4 0 (PText "second price")] in
  vs <> [] /\ Forall (fun v => page_ok (v_page v) = true) vs /\
  let r := simulate_human_browsing_sequence false vs in
  let n := length vs in
  filter is_request_event (fst r) = repeat EGet n /\
  length (sleeps (fst r)) = (2 * n - 1)%nat /\
  inject_Z (5 * Z.of_nat n - 2) <= sum_Q (sleeps (fst r)) /\
  sum_Q (sleeps (fst r)) <= inject_Z (15 * Z.of_nat n - 5) /\
  exists responses, snd r = inr responses /\ forall u, responses !! u = last (texts_for u vs).
Proof.
  cbn zeta. split; [discriminate|].
  assert (Hok : Forall (fun v => page_ok (v_page v) = true)
     [mkVisit "https://example.com/a" (7 # 2) (1 # 2) (PText "first");
      mkVisit "https://example.com/a" 4 0 (PText "second price")])
    by (repeat (apply Forall_cons_2; [reflexivity|]); apply Forall_nil_2).
  split; [exact Hok|].
  apply (simulate_human_browsing_sequence_ok false); [discriminate | exact Hok].
Defined.

(** When the page of url [k] raises (the pages before it answering),
    [simulate_human_browsing_sequence] raises that exception: the urls
    before it got one GET each, the later ones none, there were [2k]
    sleeps, and the responses already received are not returned. *)
Theorem simulate_human_browsing_sequence_raise (session_given : bool) (pre : list visit)
    (v : visit) (post : list visit) (e : string) :
  Forall (fun w => page_ok (v_page w) = true) pre -> v_page v = PRaise e ->
  let r := simulate_human_browsing_sequence session_given (pre ++ v :: post) in
  snd r = inl e /\
  filter is_request_event (fst r) = repeat EGet (S (length pre)) /\
  length (sleeps (fst r)) = (2 * length pre)%nat.
Proof.
  intros Hok He. cbn zeta.
  rewrite simulate_nonempty by (destruct pre; discriminate).
  destruct (browse_loop_raise 0 pre v post ∅ e Hok He) as (H1 & H2 & H3).
  destruct (browse_loop 0 (pre ++ v :: post) ∅) as [evs r] eqn:E.
  cbn [fst snd] in *. subst r. cbn [fst snd].
  split; [reflexivity|].
  rewrite !filter_app, !sleeps_app, !length_app, H2, H3.
  destruct session_given; cbn [negb];
    rewrite ?filter_cons_False by (intros []); cbn; rewrite ?app_nil_r; split; try reflexivity; lia.
Qed.

Lemma simulate_human_browsing_sequence_raise_witness :
  Forall (fun w => page_ok (v_page w) = true) [mkVisit "https://example.com/a" 4 0 (PText "ok")] /\
  v_page (mkVisit "https://example.com/b" 4 0 (PRaise "ReadTimeout")) = PRaise "ReadTimeout" /\
  let r := simulate_human_browsing_sequence false
             ([mkVisit "https://example.com/a" 4 0 (PText "ok")]
              ++ mkVisit "https://example.com/b" 4 0 (PRaise "ReadTimeout")
              :: [mkVisit "https://example.com/c" 4 0 (PText "never")])%list in
  snd r = inl "ReadTimeout" /\
  filter is_request_event (fst r) = repeat EGet (S (length [mkVisit "https://example.com/a" 4 0 (PText "ok")])) /\
  length (sleeps (fst r)) = (2 * length [mkVisit "https://example.com/a" 4 0 (PText "ok")])%nat.
Proof.
  assert (Hok : Forall (fun w => page_ok (v_page w) = true) [mkVisit "https://example.com/a" 4 0 (PText "ok")])
    by (apply Forall_cons_2; [reflexivity | apply Forall_nil_2]).
  split; [exact Hok|]. split; [reflexivity|].
  apply (simulate_human_browsing_sequence_raise false _ _ _ "ReadTimeout" Hok). reflexivity.
Defined.

Lemma check_connectivity_events (home : page) (home_status : Z) (products : list visit) :
  let home_ok := match home with PText _ => Z.eqb home_status 200 | PRaise _ => false end in
  let browse := simulate_human_browsing_sequence true products in
  let r := check_connectivity_and_price_visibility home home_status products in
  fst r = (ESetupSession :: filter (fun e => negb (is_session_event e)) (fst r) ++ [EClose])%list /\
  sleeps (fst r) = (1 # 2) :: (if home_ok then sleeps (fst browse) else []) /\
  filter is_request_event (fst r)
    = EGet :: (if home_ok then filter is_request_event (fst browse) else []).
Proof.
  cbn zeta. unfold check_connectivity_and_price_visibility.
  assert (Hp : perform_request "GET" true true true 0 0 (page_outcome home)
               = ([ESleep (1 # 2); EGet], page_outcome home)) by (destruct home; reflexivity).
  rewrite Hp. clear Hp.
  pose proof (simulate_given_no_session products) as Hn.
  destruct (simulate_human_browsing_sequence true products) as [evs2 r2] eqn:E.
  cbn [fst snd] in *.
  destruct home as [text|e]; cbn [page_outcome connected].
  1: destruct (Z.eqb home_status 200); [destruct r2 as [e|resp]|].
  all: cbn [fst snd]; rewrite ?sleeps_cons; cbv beta iota; rewrite !sleeps_app;
    change (sleeps [EClose]) with (@nil Q);
    filter_simpl; rewrite ?filter_negb_all by exact Hn; cbn [app]; rewrite ?app_nil_r;
    repeat split.
Qed.

(** [check_connectivity_and_price_visibility] opens one session and
    closes it as its very last action in every case. It first GETs the
    base url (after a 0.5 second sleep); [results['connected']] is whether
    that request answered with status 200. If it raises (caught:
    [results['errors']] gets ["Connectivity error: " + str(e)] and
    ['home_page_size'] is not set) or its status is not 200, no product
    page is requested and the [results] dict is returned with no prices.
    Otherwise ['home_page_size'] is the length of the home page text, the
    product pages are browsed on the same session, and either the
    exception of the first product page that raises escapes (not caught),
    or the [results] dict is returned with, for each browsed url,
    ["Price found"] when the lower-cased text of its last response
    contains ["price"] and ["No price found"] otherwise. *)
Theorem check_connectivity_and_price_visibility_flow (home : page) (home_status : Z)
    (products : list visit) :
  let home_ok := match home with PText _ => Z.eqb home_status 200 | PRaise _ => false end in
  let browse := simulate_human_browsing_sequence true products in
  let r := check_connectivity_and_price_visibility home home_status products in
  fst r = (ESetupSession :: filter (fun e => negb (is_session_event e)) (fst r) ++ [EClose])%list /\
  sleeps (fst r) = (1 # 2) :: (if home_ok then sleeps (fst browse) else []) /\
  filter is_request_event (fst r)
    = EGet :: (if home_ok then filter is_request_event (fst browse) else []) /\
  (forall e, snd r = inl e <-> home_ok = true /\ snd browse = inl e) /\
  (forall res, snd r = inr res ->
     connected res = home_ok /\
     errors res = match home with PRaise e => ["Connectivity error: " ++ e] | PText _ => [] end /\
     home_page_size res
       = match home with PText t => Some (Z.of_nat (String.length t)) | PRaise _ => None end /\
     prices res = match home_ok, snd browse with
                  | true, inr responses => price_label <$> responses
                  | _, _ => ∅
                  end).
Proof.
  pose proof (check_connectivity_events home home_status products) as Hev.
  cbn zeta in Hev |- *. destruct Hev as (H1 & H2 & H3).
  split; [exact H1|]. split; [exact H2|]. split; [exact H3|]. clear H1 H2 H3.
  unfold check_connectivity_and_price_visibility.
  assert (Hp : perform_request "GET" true true true 0 0 (page_outcome home)
               = ([ESleep (1 # 2); EGet], page_outcome home)) by (destruct home; reflexivity).
  rewrite Hp. clear Hp.
  destruct (simulate_human_browsing_sequence true products) as [evs2 r2] eqn:E.
  destruct home as [text|e]; cbn [page_outcome connected].
  1: destruct (Z.eqb home_status 200); [destruct r2 as [e|resp]|].
  all: cbn [fst snd]; split;
    [ intros e'; split;
      [ intros H; (discriminate H || (injection H as <-; auto))
      | intros [H H']; (discriminate H || congruence) ]
    | intros res H; (discriminate H || (injection H as <-; cbn; auto)) ].
Qed.

End BrowsingProps.

(* ------------------------------------------------------------------ *)
(** ** [_parse_price]: reading a dollar amount *)

Definition all_chars (f : ascii -> bool) (s : string) : bool := forallb f (list_ascii_of_string s).

Lemma str_app_cons c a b : String c a ++ b = String c (a ++ b).
Proof. reflexivity. Qed.

Lemma str_app_nil_l b : "" ++ b = b.
Proof. reflexivity. Qed.

Lemma all_chars_app f a b : all_chars f (a ++ b) = all_chars f a && all_chars f b.
Proof.
  unfold all_chars. induction a as [|c a IH]; [reflexivity|].
  rewrite str_app_cons. cbn. rewrite IH. apply andb_assoc.
Qed.

Lemma remove_char_app c a b : remove_char c (a ++ b) = remove_char c a ++ remove_char c b.
Proof.
  induction a as [|d a IH]; [reflexivity|].
  rewrite str_app_cons. cbn. rewrite IH. destruct (Ascii.eqb c d); reflexivity.
Qed.

Lemma remove_char_id c s : all_chars (fun d => negb (Ascii.eqb c d)) s = true -> remove_char c s = s.
Proof.
  unfold all_chars. induction s as [|d s IH]; cbn; [reflexivity|].
  intros H. apply andb_true_iff in H as [H1 H2].
  destruct (Ascii.eqb c d); [discriminate|]. rewrite IH by exact H2. reflexivity.
Qed.

Lemma all_chars_impl (f g : ascii -> bool) s :
  (forall c, f c = true -> g c = true) -> all_chars f s = true -> all_chars g s = true.
Proof.
  unfold all_chars. intros Hfg. induction s as [|c s IH]; cbn; [reflexivity|].
  intros H. apply andb_true_iff in H as [H1 H2]. rewrite (Hfg c H1), (IH H2). reflexivity.
Qed.

Lemma take_while_app_all f a b :
  all_chars f a = true -> take_while f (a ++ b) = a ++ take_while f b.
Proof.
  unfold all_chars. induction a as [|c a IH]; [reflexivity|]. rewrite str_app_cons. cbn.
  intros H. apply andb_true_iff in H as [H1 H2]. rewrite H1, (IH H2). reflexivity.
Qed.

Lemma drop_while_app_all f a b :
  all_chars f a = true -> drop_while f (a ++ b) = drop_while f b.
Proof.
  unfold all_chars. induction a as [|c a IH]; [reflexivity|]. rewrite str_app_cons. cbn.
  intros H. apply andb_true_iff in H as [H1 H2]. rewrite H1. exact (IH H2).
Qed.

Lemma digits_value_app acc a b : digits_value acc (a ++ b) = digits_value (digits_value acc a) b.
Proof. revert acc. induction a as [|c a IH]; intros acc; [reflexivity|]. rewrite str_app_cons. apply IH. Qed.

Lemma digits_value_acc acc b :
  digits_value acc b = (acc * 10 ^ Z.of_nat (String.length b) + digits_value 0 b)%Z.
Proof.
  revert acc. induction b as [|c b IH]; intros acc; cbn [digits_value String.length].
  - cbn. lia.
  - rewrite (IH (acc * 10 + _)%Z), (IH (0 * 10 + _)%Z).
    rewrite Nat2Z.inj_succ, Z.pow_succ_r by lia. lia.
Qed.

Lemma strip_no_space s : all_chars (fun c => negb (Py.is_space c)) s = true -> Py.strip s = s.
Proof.
  intros H.
  assert (Hl : forall l, forallb (fun c => negb (Py.is_space c)) l = true -> lstrip_l l = l).
  { intros [|c l] Hc; [reflexivity|]. apply lstrip_l_id. cbn in *.
    apply andb_true_iff in Hc as [Hc _]. rewrite Hc. reflexivity. }
  unfold all_chars in H.
  assert (E : list_ascii_of_string (Py.strip s) = list_ascii_of_string s).
  { rewrite strip_spec, (Hl _ H), Hl; [apply rev_involutive|].
    rewrite forallb_forall in *. intros c Hc. apply H. apply in_rev. exact Hc. }
  rewrite <- (string_of_list_ascii_of_string (Py.strip s)), E.
  apply string_of_list_ascii_of_string.
Qed.

Definition price_char (c : ascii) : bool :=
  is_num_char c || Ascii.eqb c "."%char || Ascii.eqb c "$"%char.

Lemma price_char_facts c :
  price_char c = true ->
  Py.is_space c = false /\ Ascii.eqb " "%char c = false /\
  (Ascii.eqb "$"%char c = false \/ c = "$"%char).
Proof. destruct c as [[] [] [] [] [] [] [] []]; intros H; try discriminate H; auto. Qed.

Lemma num_char_facts c :
  is_num_char c = true -> price_char c = true /\ Ascii.eqb "$"%char c = false.
Proof. destruct c as [[] [] [] [] [] [] [] []]; intros H; try discriminate H; auto. Qed.

Lemma digit_num_char c : is_digit c = true -> is_num_char c = true.
Proof. intros H. unfold is_num_char. rewrite H. reflexivity. Qed.

Lemma remove_comma_digits ipc :
  all_chars is_num_char ipc = true -> all_chars is_digit (remove_char ","%char ipc) = true.
Proof.
  unfold all_chars. induction ipc as [|c s IH]; [reflexivity|].
  cbn [remove_char list_ascii_of_string forallb].
  intros H. apply andb_true_iff in H as [H1 H2].
  destruct (Ascii.eqb "," c) eqn:E; [exact (IH H2)|].
  cbn [list_ascii_of_string forallb]. rewrite (IH H2).
  unfold is_num_char in H1. destruct (is_digit c) eqn:Ed; [reflexivity|].
  cbn [orb] in H1. apply Ascii.eqb_eq in H1. subst c. discriminate E.
Qed.

Lemma remove_comma_has_digit ipc :
  existsb is_digit (list_ascii_of_string ipc) = true ->
  remove_char ","%char ipc <> EmptyString.
Proof.
  induction ipc as [|c s IH]; [discriminate|].
  cbn [remove_char list_ascii_of_string existsb]. intros H. destruct (Ascii.eqb "," c) eqn:E; [|discriminate].
  apply Ascii.eqb_eq in E. subst c. exact (IH H).
Qed.

Definition amount_tail (fp : option string) : string :=
  match fp with None => "" | Some f => "." ++ f end.

Definition fraction_ok (fp : option string) : bool :=
  match fp with None => true | Some f => all_chars is_digit f end.

Lemma take_while_all f s : all_chars f s = true -> take_while f s = s.
Proof.
  intros H. rewrite <- (str_app_nil_r s) at 1. rewrite take_while_app_all by exact H.
  apply str_app_nil_r.
Qed.

Lemma drop_while_all f s : all_chars f s = true -> drop_while f s = "".
Proof.
  intros H. rewrite <- (str_app_nil_r s). rewrite drop_while_app_all by exact H. reflexivity.
Qed.

Lemma group1_num_head c s' :
  is_num_char c = true ->
  price_regex_group1 (String c s')
  = match drop_while is_num_char (String c s') with
    | String d rest =>
        if Ascii.eqb d "."%char
        then Some (take_while is_num_char (String c s') ++ "." ++ take_while is_digit rest)
        else Some (take_while is_num_char (String c s'))
    | EmptyString => Some (take_while is_num_char (String c s'))
    end.
Proof.
  intros H. unfold price_regex_group1. cbn [drop_while]. rewrite H. cbn [negb].
  rewrite H. reflexivity.
Qed.

Lemma group1_amount ipc fp :
  all_chars is_num_char ipc = true -> ipc <> "" -> fraction_ok fp = true ->
  price_regex_group1 (ipc ++ amount_tail fp) = Some (ipc ++ amount_tail fp).
Proof.
  intros Hn Hne Hf. destruct ipc as [|c ipc']; [congruence|].
  assert (Hc : is_num_char c = true).
  { unfold all_chars in Hn. cbn in Hn. apply andb_true_iff in Hn as [Hc _]. exact Hc. }
  rewrite str_app_cons, group1_num_head by exact Hc. rewrite <- str_app_cons.
  rewrite take_while_app_all, drop_while_app_all by exact Hn.
  destruct fp as [f|]; cbn [amount_tail fraction_ok] in *.
  - change ("." ++ f) with (String "."%char f). cbn [take_while drop_while].
    replace (is_num_char "."%char) with false by reflexivity.
    cbn [Ascii.eqb]. rewrite (take_while_all is_digit f Hf), str_app_nil_r. reflexivity.
  - reflexivity.
Qed.

Lemma is_digit_dot : is_digit "."%char = false.
Proof. reflexivity. Qed.

Lemma decimal_of_string_amount ds fp :
  all_chars is_digit ds = true -> ds <> "" -> fraction_ok fp = true ->
  let f := match fp with None => "" | Some f => f end in
  decimal_of_string (ds ++ amount_tail fp)
  = Some (Qred (Qmake (digits_value 0 (ds ++ f)) (Z.to_pos (10 ^ Z.of_nat (String.length f))))).
Proof.
  intros Hd Hne Hf. cbn zeta. unfold decimal_of_string.
  rewrite take_while_app_all, drop_while_app_all by exact Hd.
  assert (Hl : (String.length ds =? 0)%nat = false) by (destruct ds; [congruence | reflexivity]).
  destruct fp as [f|]; cbn [amount_tail fraction_ok] in *.
  - change ("." ++ f) with (String "."%char f). cbn [take_while drop_while].
    rewrite is_digit_dot. replace (Ascii.eqb "."%char "."%char) with true by reflexivity.
    rewrite (drop_while_all is_digit f Hf), (take_while_all is_digit f Hf), str_app_nil_r.
    cbn [String.eqb negb].
    replace ((String.length ds + String.length f =? 0)%nat) with false
      by (symmetry; apply Nat.eqb_neq; apply Nat.eqb_neq in Hl; lia).
    reflexivity.
  - cbn [take_while drop_while]. rewrite str_app_nil_r. cbn [String.eqb negb].
    rewrite Nat.add_0_r, Hl, str_app_nil_r. reflexivity.
Qed.

Lemma pos_of_pow10 k : Z.pos (Z.to_pos (10 ^ Z.of_nat k)) = (10 ^ Z.of_nat k)%Z.
Proof. apply Z2Pos.id, Z.pow_pos_nonneg; lia. Qed.

Lemma decimal_qmake ds f :
  Qred (Qmake (digits_value 0 (ds ++ f)) (Z.to_pos (10 ^ Z.of_nat (String.length f))))
  == decimal_value ds (Some f).
Proof.
  rewrite Qred_correct, Qmake_Qdiv, pos_of_pow10, digits_value_app, digits_value_acc.
  unfold decimal_value. rewrite inject_Z_plus, inject_Z_mult.
  assert (Hp : (0 < 10 ^ Z.of_nat (String.length f))%Z) by (apply Z.pow_pos_nonneg; lia).
  assert (Hq : ~ inject_Z (10 ^ Z.of_nat (String.length f)) == 0).
  { unfold Qeq. cbn. lia. }
  field. exact Hq.
Qed.

Lemma all_chars_tail (P : ascii -> bool) fp :
  P "."%char = true -> (forall c, is_digit c = true -> P c = true) ->
  fraction_ok fp = true -> all_chars P (amount_tail fp) = true.
Proof.
  intros Hdot Hdig Hf. destruct fp as [f|]; cbn [amount_tail fraction_ok] in *; [|reflexivity].
  change ("." ++ f) with (String "."%char f). unfold all_chars. cbn [list_ascii_of_string forallb].
  rewrite Hdot. cbn [andb]. exact (all_chars_impl is_digit P f Hdig Hf).
Qed.

Lemma amount_chars (P : ascii -> bool) ipc fp :
  P "."%char = true -> (forall c, is_num_char c = true -> P c = true) ->
  all_chars is_num_char ipc = true -> fraction_ok fp = true ->
  all_chars P (ipc ++ amount_tail fp) = true.
Proof.
  intros Hdot Hnum Hn Hf. rewrite all_chars_app, (all_chars_impl is_num_char P ipc Hnum Hn).
  apply all_chars_tail; [exact Hdot | intros c Hc; apply Hnum, digit_num_char, Hc | exact Hf].
Qed.

(** A dollar amount as a product page shows it, ["$"], digits with
    thousands commas, and optionally a dot and the cents (or any number of
    fraction digits), is read by [_parse_price] as the float nearest to
    its decimal value (binary64, ties to even; [inf] past the largest
    float): the value the range check of each element is applied to. *)
Theorem element_value_dollar_amount (ipc : string) (fp : option string) :
  all_chars is_num_char ipc = true ->
  existsb is_digit (list_ascii_of_string ipc) = true ->
  fraction_ok fp = true ->
  element_value (price_display ipc fp)
  = Some (F64.of_Q (decimal_value (remove_char ","%char ipc) fp)).
Proof.
  intros Hn Hd Hf.
  assert (Hne : ipc <> "") by (intros ->; discriminate Hd).
  change (price_display ipc fp) with ("$" ++ (ipc ++ amount_tail fp)).
  unfold element_value.
  rewrite strip_no_space.
  2:{ change ("$" ++ (ipc ++ amount_tail fp)) with (String "$"%char (ipc ++ amount_tail fp)).
      unfold all_chars. cbn [list_ascii_of_string forallb]. fold (all_chars (fun c => negb (Py.is_space c))).
      apply amount_chars; [reflexivity | | exact Hn | exact Hf].
      intros c Hc. destruct (num_char_facts c Hc) as [Hp _].
      destruct (price_char_facts c Hp) as [Hs _]. rewrite Hs. reflexivity. }
  change (remove_char "$"%char ("$" ++ (ipc ++ amount_tail fp)))
    with (remove_char "$"%char (ipc ++ amount_tail fp)).
  rewrite (remove_char_id "$"%char).
  2:{ apply amount_chars; [reflexivity | | exact Hn | exact Hf].
      intros c Hc. destruct (num_char_facts c Hc) as [_ H]. rewrite H. reflexivity. }
  rewrite (remove_char_id " "%char).
  2:{ apply amount_chars; [reflexivity | | exact Hn | exact Hf].
      intros c Hc. destruct (num_char_facts c Hc) as [Hp _].
      destruct (price_char_facts c Hp) as [_ [H _]]. rewrite H. reflexivity. }
  rewrite group1_amount by assumption.
  rewrite remove_char_app, (remove_char_id ","%char (amount_tail fp)).
  2:{ apply all_chars_tail; [reflexivity | | exact Hf].
      intros c Hc. destruct c as [[] [] [] [] [] [] [] []]; try discriminate Hc; reflexivity. }
  unfold py_float.
  rewrite decimal_of_string_amount
    by (apply remove_comma_digits, Hn || apply remove_comma_has_digit, Hd || exact Hf).
  cbn [option_map]. f_equal. apply F64Facts.of_Q_Qeq.
  destruct fp as [f|].
  - apply decimal_qmake.
  - cbn zeta. rewrite str_app_nil_r, Qred_correct. reflexivity.
Qed.

Lemma element_value_dollar_amount_witness :
  all_chars is_num_char "1,234" = true /\
  existsb is_digit (list_ascii_of_string "1,234") = true /\
  fraction_ok (Some "56") = true /\
  element_value (price_display "1,234" (Some "56"))
  = Some (F64.of_Q (decimal_value (remove_char ","%char "1,234") (Some "56"))).
Proof.
  split; [reflexivity|]. split; [reflexivity|]. split; [reflexivity|].
  apply element_value_dollar_amount; reflexivity.
Defined.
